(** * age-orm: agtype codec, entity state, query builder and graph facade

    A shallow embedding of the Python sources
      - [age_orm/utils/serialization.py]  (value codec, parameter substitution)
      - [age_orm/graph.py]                (result parsing, CRUD, raw Cypher)
      - [age_orm/models/base.py]          (entity state, dirty tracking, lazy relationships)
      - [age_orm/query/builder.py]        (query builder and its execution methods)
    together with the theorems that settle the properties stated about them.

    Modelling conventions.
      - Python [str] is modelled by [string], read as a sequence of code points
        0..255 (Latin-1).  The character classes of [str.strip] and of the
        regular-expression class [\w] are the ones Python uses on that range.
        A JSON [\uXXXX] escape above U+00FF denotes no character of the
        model: [Json.loads] has no value for such a text, and the
        statements about what the decoder parses are made for the texts
        without such an escape ([Limits.narrow_escapes]).
      - Python [int] is [Z]; [str(int)] is the decimal text of the standard
        library ([NilZero.string_of_int]).  The interpreter bounds the
        number of digits of a conversion between [int] and [str] (4300 by
        default): above the bound [str] and [int] raise ValueError, and so
        does [json.loads] on an integer literal.  The functions of the
        model are total, so they follow the interpreter within the bound
        only; [Limits] states the bound, and the statements about integers
        and digit runs of any size carry it.
      - A Python [float] is carried by a decimal text that denotes it
        ([VFloat]); [str(float)] prints that text and [float(text)] keeps the
        text it accepted.  No rounding is modelled.
      - A Python [dict] is an association list in insertion order without
        duplicate keys; a Python [set] of names is a [gset string].
      - Exceptions are values of [exn]; code that talks to the database runs
        in a state-and-exception monad over the journal of statements sent. *)

From Stdlib Require Import String Ascii List ZArith Bool Lia Arith Sorted.
From Stdlib Require Import DecimalString.
From Stdlib Require DecimalFacts DecimalPos DecimalZ.
From stdpp Require Import base strings gmap.
Import ListNotations.
Open Scope string_scope.

(** Let [simpl] compute string concatenation on a known prefix. *)
Arguments String.append !s1 s2 : simpl nomatch.

(* ====================================================================== *)
(** * Text: the Python string operations the sources use *)
(* ====================================================================== *)

Module Text.

Definition ord (c : ascii) : nat := nat_of_ascii c.

Definition between (lo hi n : nat) : bool := Nat.leb lo n && Nat.leb n hi.

(** [str.isspace] on code points 0..255. *)
Definition isspace (c : ascii) : bool :=
  let n := ord c in
  between 9 13 n || between 28 32 n || Nat.eqb n 133 || Nat.eqb n 160.

(** [0-9] *)
Definition isdigit (c : ascii) : bool := between 48 57 (ord c).

(** The explicit class [[a-zA-Z0-9_]]. *)
Definition is_ident_char (c : ascii) : bool :=
  let n := ord c in
  between 97 122 n || between 65 90 n || between 48 57 n || Nat.eqb n 95.

(** The class [\w] of a [str] pattern on code points 0..255: the ASCII
    identifier characters and the Latin-1 letters and numerics. *)
Definition is_word_char (c : ascii) : bool :=
  let n := ord c in
  is_ident_char c
  || Nat.eqb n 170 || Nat.eqb n 178 || Nat.eqb n 179 || Nat.eqb n 181
  || Nat.eqb n 185 || Nat.eqb n 186 || between 188 190 n
  || between 192 214 n || between 216 246 n || between 248 255 n.

Definition is_ascii_letter (c : ascii) : bool :=
  let n := ord c in between 97 122 n || between 65 90 n.

(** [s.startswith(p)] *)
Definition startswith (p s : string) : bool := String.prefix p s.

Fixpoint drop (n : nat) (s : string) : string :=
  match n, s with
  | O, _ => s
  | S n', String _ r => drop n' r
  | S _, EmptyString => EmptyString
  end.

Fixpoint lstrip (s : string) : string :=
  match s with
  | String c r => if isspace c then lstrip r else s
  | EmptyString => EmptyString
  end.

Fixpoint rstrip (s : string) : string :=
  match s with
  | EmptyString => EmptyString
  | String c r =>
      match rstrip r with
      | EmptyString => if isspace c then EmptyString else String c EmptyString
      | r' => String c r'
      end
  end.

(** [s.strip()] *)
Definition strip (s : string) : string := rstrip (lstrip s).

(** [s.replace(old, new)] for a non-empty [old]: left to right, matches do
    not overlap.  [skip] counts the characters of the current match that
    are still to be dropped. *)
Fixpoint replace_from (old new : string) (skip : nat) (s : string) : string :=
  match s with
  | EmptyString => EmptyString
  | String c r =>
      match skip with
      | S k => replace_from old new k r
      | O =>
          if String.prefix old s
          then new ++ replace_from old new (String.length old - 1) r
          else String c (replace_from old new 0 r)
      end
  end.

Fixpoint intersperse_chars (new s : string) : string :=
  match s with
  | EmptyString => EmptyString
  | String c r => String c (new ++ intersperse_chars new r)
  end.

Definition replace (old new s : string) : string :=
  match old with
  | EmptyString => new ++ intersperse_chars new s
  | _ => replace_from old new 0 s
  end.

(** [sep.join(parts)] *)
Definition join (sep : string) (parts : list string) : string :=
  String.concat sep parts.

(** [str(n)] for an [int] within the digit limit of the interpreter
    ([Limits.int_within]); above it [str] raises ValueError, which this
    total function does not show. *)
Definition str_of_int (z : Z) : string := NilZero.string_of_int (Z.to_int z).

Definition str_of_nat (n : nat) : string := str_of_int (Z.of_nat n).

(** [x in (a, b, ...)] for strings. *)
Definition str_in (x : string) (l : list string) : bool :=
  existsb (String.eqb x) l.

End Text.




(** Characters that cannot be written inside a string literal. *)
Definition dquote : ascii := "034"%char.
Definition newline : ascii := "010"%char.
Definition carriage : ascii := "013"%char.
Definition tab : ascii := "009"%char.
Definition backslash : ascii := "\"%char.

Definition str1 (c : ascii) : string := String c EmptyString.

(** In examples a double quote inside a text is written as a backquote;
    [qq] restores it. *)
Fixpoint qq (s : string) : string :=
  match s with
  | EmptyString => EmptyString
  | String c r => String (if Ascii.eqb c "`"%char then dquote else c) (qq r)
  end.

(* ====================================================================== *)
(** * Values *)
(* ====================================================================== *)

(** The Python values the codec handles. *)
Unset Elimination Schemes.
Inductive pyval : Type :=
| VNone
| VBool (b : bool)
| VInt (z : Z)
| VFloat (text : string)
| VStr (s : string)
| VList (items : list pyval)
| VDict (items : list (string * pyval)).
Set Elimination Schemes.

(** Insertion-ordered dictionaries with string keys. *)
Module Dict.
Section Ops.
Context {A : Type}.

Fixpoint get (k : string) (d : list (string * A)) : option A :=
  match d with
  | [] => None
  | (k', v) :: r => if String.eqb k k' then Some v else get k r
  end.

(** [k in d] *)
Definition has (k : string) (d : list (string * A)) : bool :=
  match get k d with Some _ => true | None => false end.

(** [d[k] = v]: an existing key keeps its position, a new one goes last. *)
Fixpoint set (k : string) (v : A) (d : list (string * A)) : list (string * A) :=
  match d with
  | [] => [(k, v)]
  | (k', v') :: r =>
      if String.eqb k k' then (k', v) :: r else (k', v') :: set k v r
  end.

(** [del d[k]] *)
Fixpoint remove (k : string) (d : list (string * A)) : list (string * A) :=
  match d with
  | [] => []
  | (k', v') :: r =>
      if String.eqb k k' then r else (k', v') :: remove k r
  end.

(** [d.update(other)] *)
Definition update (d other : list (string * A)) : list (string * A) :=
  fold_left (fun acc kv => set (fst kv) (snd kv) acc) other d.

Definition keys (d : list (string * A)) : list string := map fst d.

(** [dict(pairs)]: a later pair overwrites an earlier one with its key. *)
Definition of_pairs (pairs : list (string * A)) : list (string * A) :=
  update [] pairs.
End Ops.
End Dict.

(* ====================================================================== *)
(** * age_orm/utils/serialization.py: encoders *)
(* ====================================================================== *)

Definition hex_digit (n : nat) : ascii :=
  if Nat.ltb n 10 then ascii_of_nat (48 + n) else ascii_of_nat (87 + n).

(** [f"{code:04x}"] *)
Definition hex4 (code : nat) : string :=
  String (hex_digit (code / 4096 mod 16))
    (String (hex_digit (code / 256 mod 16))
       (String (hex_digit (code / 16 mod 16))
          (String (hex_digit (code mod 16)) EmptyString))).

(** The final loop of [escape_agtype_string]: control characters that are
    left after the replacements become [\uXXXX]. *)
Fixpoint escape_control (s : string) : string :=
  match s with
  | EmptyString => EmptyString
  | String c r =>
      let code := Text.ord c in
      if Nat.ltb code 32
         && negb (Ascii.eqb c newline || Ascii.eqb c carriage || Ascii.eqb c tab)
      then (String backslash (String "u" (hex4 code))) ++ escape_control r
      else String c (escape_control r)
  end.

Definition escape_agtype_string (s : string) : string :=
  let s := Text.replace (str1 backslash) (String backslash (str1 backslash)) s in
  let s := Text.replace (str1 dquote) (String backslash (str1 dquote)) s in
  let s := Text.replace (str1 newline) (String backslash "n") s in
  let s := Text.replace (str1 carriage) (String backslash "r") s in
  let s := Text.replace (str1 tab) (String backslash "t") s in
  escape_control s.

Definition escape_sql_literal (s : string) : string :=
  Text.replace "'" "''" s.

Definition quoted (s : string) : string := String dquote (s ++ str1 dquote).

Fixpoint to_agtype_value (val : pyval) : string :=
  match val with
  | VNone => "null"
  | VBool b => if b then "true" else "false"
  | VInt z => Text.str_of_int z
  | VFloat text => text
  | VStr s => quoted (escape_agtype_string s)
  | VList items =>
      "[" ++ Text.join ", " (map to_agtype_value items) ++ "]"
  | VDict items =>
      "{" ++ Text.join ", "
               (map (fun kv => quoted (fst kv) ++ ": " ++ to_agtype_value (snd kv)) items)
          ++ "}"
  end.

Definition to_agtype_properties (props : list (string * pyval)) : string :=
  "{" ++ Text.join ", "
           (map (fun kv => quoted (fst kv) ++ ": " ++ to_agtype_value (snd kv)) props)
      ++ "}".

Fixpoint format_cypher_value (val : pyval) : string :=
  match val with
  | VNone => "null"
  | VBool b => if b then "true" else "false"
  | VInt z => Text.str_of_int z
  | VFloat text => text
  | VStr s =>
      let escaped :=
        Text.replace "'" (String backslash "'")
          (Text.replace (str1 backslash) (String backslash (str1 backslash)) s) in
      "'" ++ escaped ++ "'"
  | VList items =>
      "[" ++ Text.join ", " (map format_cypher_value items) ++ "]"
  | VDict items =>
      "{" ++ Text.join ", "
               (map (fun kv => fst kv ++ ": " ++ format_cypher_value (snd kv)) items)
          ++ "}"
  end.




(* ====================================================================== *)
(** * Exceptions *)
(* ====================================================================== *)

(** The exceptions the modelled code can raise (messages are not modelled). *)
Inductive exn : Type :=
| EntityNotFoundError
| MultipleResultsError
| DetachedInstanceError
| ImportError
| ReError            (* re.error: a bad replacement template *)
| IndexError
| AttributeError
| TypeError
| ValueError
| ValidationError    (* pydantic rejects the constructor arguments *)
| DatabaseError      (* the transport failed to run a statement *)
| Unmodelled.        (* Python goes on with a value the typed model cannot hold *)

Inductive result (A : Type) : Type :=
| Ok (a : A)
| Raise (e : exn).
Arguments Ok {A} a.
Arguments Raise {A} e.

(* ====================================================================== *)
(** * re: what [pattern.sub(repl, text)] does with a string [repl] *)
(* ====================================================================== *)

(** [pattern.sub] first parses a string replacement as a template: backslash
    escapes are processed ([\\] becomes one backslash, [\n] a newline, ...),
    [\g<0>] stands for the matched text, an unknown escape of an ASCII
    letter and a reference to a group the pattern does not have are errors,
    any other unknown escape is kept as it is.  The patterns built by
    [substitute_cypher_params] have no groups. *)
Module Template.

Inductive piece : Type :=
| Lit (c : ascii)
| WholeMatch.

Inductive state : Type :=
| Normal
| Escape                          (* after a backslash *)
| GroupOpen                       (* after \g *)
| GroupName (zeros : bool)        (* inside \g< ; [zeros]: some 0 was read *)
| Octal0 (acc more : nat)         (* after \0: up to [more] more octal digits *)
| Digit1 (d1 : nat)               (* after \d, d in 1..9 *)
| Digit2 (d1 d2 : nat).           (* after \dd, both octal *)

Definition is_octdigit (c : ascii) : bool := Text.between 48 55 (Text.ord c).
Definition digit_value (c : ascii) : nat := Text.ord c - 48.

(** ESCAPES of the regular-expression parser. *)
Definition escape_char (c : ascii) : option ascii :=
  if Ascii.eqb c "a" then Some "007"%char
  else if Ascii.eqb c "b" then Some "008"%char
  else if Ascii.eqb c "f" then Some "012"%char
  else if Ascii.eqb c "n" then Some "010"%char
  else if Ascii.eqb c "r" then Some "013"%char
  else if Ascii.eqb c "t" then Some "009"%char
  else if Ascii.eqb c "v" then Some "011"%char
  else if Ascii.eqb c backslash then Some backslash
  else None.

Definition step_normal (c : ascii) : state * list piece :=
  if Ascii.eqb c backslash then (Escape, []) else (Normal, [Lit c]).

Definition emit (out : list piece) (k : option (list piece)) : option (list piece) :=
  option_map (fun t => out ++ t)%list k.

Fixpoint parse_from (st : state) (s : string) : option (list piece) :=
  match s with
  | EmptyString =>
      match st with
      | Normal => Some []
      | Octal0 acc _ => Some [Lit (ascii_of_nat (acc mod 256))]
      | _ => None
      end
  | String c r =>
      match st with
      | Normal =>
          let '(st', out) := step_normal c in emit out (parse_from st' r)
      | Escape =>
          if Ascii.eqb c "g" then parse_from GroupOpen r
          else if Ascii.eqb c "0" then parse_from (Octal0 0 2) r
          else if Text.isdigit c then parse_from (Digit1 (digit_value c)) r
          else match escape_char c with
               | Some e => emit [Lit e] (parse_from Normal r)
               | None =>
                   if Text.is_ascii_letter c then None
                   else emit [Lit backslash; Lit c] (parse_from Normal r)
               end
      | GroupOpen =>
          if Ascii.eqb c "<" then parse_from (GroupName false) r else None
      | GroupName zeros =>
          if Ascii.eqb c ">"
          then (if zeros then emit [WholeMatch] (parse_from Normal r) else None)
          else if Ascii.eqb c "0" then parse_from (GroupName true) r
          else None
      | Octal0 acc more =>
          if Nat.ltb 0 more && is_octdigit c
          then parse_from (Octal0 (acc * 8 + digit_value c) (more - 1)) r
          else let '(st', out) := step_normal c in
               emit (Lit (ascii_of_nat (acc mod 256)) :: out) (parse_from st' r)
      | Digit1 d1 =>
          if is_octdigit c && Nat.leb d1 7
          then parse_from (Digit2 d1 (digit_value c)) r
          else None
      | Digit2 d1 d2 =>
          if is_octdigit c && Nat.leb (d1 * 64 + d2 * 8 + digit_value c) 255
          then emit [Lit (ascii_of_nat (d1 * 64 + d2 * 8 + digit_value c))]
                 (parse_from Normal r)
          else None
      end
  end.

Definition parse (template : string) : option (list piece) :=
  parse_from Normal template.

Fixpoint render (matched : string) (t : list piece) : string :=
  match t with
  | [] => EmptyString
  | Lit c :: r => String c (render matched r)
  | WholeMatch :: r => matched ++ render matched r
  end.

End Template.

(* ====================================================================== *)
(** * age_orm/utils/serialization.py: substitute_cypher_params *)
(* ====================================================================== *)

(** Does the pattern [\$<key>(?![a-zA-Z0-9_])] match at the head of [s]?
    ([re.escape] makes the key match literally.) *)
Definition param_match (key s : string) : bool :=
  String.prefix ("$" ++ key) s
  && match Text.drop (S (String.length key)) s with
     | String c _ => negb (Text.is_ident_char c)
     | EmptyString => true
     end.

(** The scan of [pattern.sub]: left to right, every match is replaced by
    the rendered replacement, matches do not overlap. *)
Fixpoint sub_param_from (key : string) (repl : string) (skip : nat) (s : string) : string :=
  match s with
  | EmptyString => EmptyString
  | String c r =>
      match skip with
      | S k => sub_param_from key repl k r
      | O =>
          if param_match key s
          then repl ++ sub_param_from key repl (String.length key) r
          else String c (sub_param_from key repl 0 r)
      end
  end.

(** [re.compile(...).sub(repl, text)] for the pattern of one key. *)
Definition re_sub_param (key repl text : string) : result string :=
  match Template.parse repl with
  | None => Raise ReError
  | Some t => Ok (sub_param_from key (Template.render ("$" ++ key) t) 0 text)
  end.

(** [sorted(keys, key=len, reverse=True)]: longest first, keys of equal
    length in their original order. *)
Fixpoint insert_by_len (k : string) (sorted : list string) : list string :=
  match sorted with
  | [] => [k]
  | h :: t =>
      if Nat.leb (String.length h) (String.length k)
      then k :: sorted
      else h :: insert_by_len k t
  end.

Definition sorted_by_len_desc (keys : list string) : list string :=
  fold_right insert_by_len [] keys.

Fixpoint substitute_keys (params : list (string * pyval)) (keys : list string)
    (text : string) : result string :=
  match keys with
  | [] => Ok text
  | key :: rest =>
      match Dict.get key params with
      | None => Ok text       (* unreachable: the keys are those of [params] *)
      | Some v =>
          match re_sub_param key (format_cypher_value v) text with
          | Ok text' => substitute_keys params rest text'
          | Raise e => Raise e
          end
      end
  end.

Definition substitute_cypher_params (cypher : string)
    (params : option (list (string * pyval))) : result string :=
  match params with
  | None => Ok cypher
  | Some [] => Ok cypher
  | Some ps => substitute_keys ps (sorted_by_len_desc (Dict.keys ps)) cypher
  end.

(* ====================================================================== *)
(** * json.loads, int() and float(): the library parsers the decoder calls *)
(* ====================================================================== *)

Module Json.

(** JSON whitespace: space, tab, newline, carriage return. *)
Definition is_ws (c : ascii) : bool :=
  Ascii.eqb c " " || Ascii.eqb c tab || Ascii.eqb c newline || Ascii.eqb c carriage.

Fixpoint skip_ws (s : string) : string :=
  match s with
  | String c r => if is_ws c then skip_ws r else s
  | EmptyString => EmptyString
  end.

Definition hex_value (c : ascii) : option nat :=
  let n := Text.ord c in
  if Text.between 48 57 n then Some (n - 48)
  else if Text.between 97 102 n then Some (n - 87)
  else if Text.between 65 70 n then Some (n - 55)
  else None.

Definition hex4_value (h1 h2 h3 h4 : ascii) : option nat :=
  match hex_value h1, hex_value h2, hex_value h3, hex_value h4 with
  | Some a, Some b, Some c, Some d => Some (a * 4096 + b * 256 + c * 16 + d)
  | _, _, _, _ => None
  end.

(** The one-character escapes of a JSON string. *)
Definition unescape (c : ascii) : option ascii :=
  if Ascii.eqb c dquote then Some dquote
  else if Ascii.eqb c backslash then Some backslash
  else if Ascii.eqb c "/" then Some "/"%char
  else if Ascii.eqb c "b" then Some "008"%char
  else if Ascii.eqb c "f" then Some "012"%char
  else if Ascii.eqb c "n" then Some newline
  else if Ascii.eqb c "r" then Some carriage
  else if Ascii.eqb c "t" then Some tab
  else None.

Definition push (c : ascii) (k : option (string * string)) : option (string * string) :=
  match k with
  | Some (body, rest) => Some (String c body, rest)
  | None => None
  end.

(** [scanstring] in strict mode, from just after the opening quote: the
    decoded text and what follows the closing quote. *)
Fixpoint scanstring (s : string) : option (string * string) :=
  match s with
  | EmptyString => None
  | String c r =>
      if Ascii.eqb c dquote then Some (EmptyString, r)
      else if Ascii.eqb c backslash then
        match r with
        | EmptyString => None
        | String e r1 =>
            if Ascii.eqb e "u" then
              match r1 with
              | String h1 (String h2 (String h3 (String h4 r2))) =>
                  match hex4_value h1 h2 h3 h4 with
                  | Some code =>
                      if Nat.leb code 255
                      then push (ascii_of_nat code) (scanstring r2)
                      else None
                  | None => None
                  end
              | _ => None
              end
            else
              match unescape e with
              | Some ch => push ch (scanstring r1)
              | None => None
              end
        end
      else if Nat.ltb (Text.ord c) 32 then None
      else push c (scanstring r)
  end.

(** The longest run of decimal digits at the head of [s], and the rest. *)
Fixpoint span_digits (s : string) : string * string :=
  match s with
  | String c r =>
      if Text.isdigit c
      then let '(ds, rest) := span_digits r in (String c ds, rest)
      else (EmptyString, s)
  | EmptyString => (EmptyString, EmptyString)
  end.

(** The value of a run of decimal digits. *)
Definition int_of_digits (ds : string) : Z :=
  match NilEmpty.uint_of_string ds with
  | Some u => Z.of_uint u
  | None => 0%Z
  end.

(** The optional fraction [(\.\d+)?]. *)
Definition scan_frac (s : string) : string * string :=
  match s with
  | String c r =>
      if Ascii.eqb c "." then
        match span_digits r with
        | (EmptyString, _) => (EmptyString, s)
        | (ds, rest) => (String c ds, rest)
        end
      else (EmptyString, s)
  | EmptyString => (EmptyString, s)
  end.

(** The optional exponent [([eE][-+]?\d+)?]. *)
Definition scan_exp (s : string) : string * string :=
  match s with
  | String c r =>
      if Ascii.eqb c "e" || Ascii.eqb c "E" then
        let '(sign, r1) :=
          match r with
          | String g r' =>
              if Ascii.eqb g "-" || Ascii.eqb g "+" then (str1 g, r') else (EmptyString, r)
          | EmptyString => (EmptyString, r)
          end in
        match span_digits r1 with
        | (EmptyString, _) => (EmptyString, s)
        | (ds, rest) => (String c (sign ++ ds), rest)
        end
      else (EmptyString, s)
  | EmptyString => (EmptyString, s)
  end.

(** NUMBER_RE at the head of [s]: an optional minus sign, then 0 or a run of
    digits that does not start with 0, then the optional fraction and the
    optional exponent; an [int] when both are absent, else a float. *)
Definition scan_number (s : string) : option (pyval * string) :=
  let '(neg, s1) :=
    match s with
    | String c r => if Ascii.eqb c "-" then (true, r) else (false, s)
    | EmptyString => (false, s)
    end in
  let int_part :=
    match s1 with
    | String d r =>
        if Ascii.eqb d "0" then Some (str1 d, r)
        else if Text.isdigit d then Some (span_digits s1)
        else None
    | EmptyString => None
    end in
  match int_part with
  | None => None
  | Some (ds, rest) =>
      let '(frac, rest1) := scan_frac rest in
      let '(exp, rest2) := scan_exp rest1 in
      match frac, exp with
      | EmptyString, EmptyString =>
          Some (VInt (if neg then - int_of_digits ds else int_of_digits ds)%Z, rest2)
      | _, _ =>
          Some (VFloat ((if neg then "-" else EmptyString) ++ ds ++ frac ++ exp), rest2)
      end
  end.

(** The scanner: one fuel unit per value and per element; [loads] gives
    it more than any text can use. *)
Fixpoint scan_once (fuel : nat) (s : string) : option (pyval * string) :=
  match fuel with
  | O => None
  | S f =>
      match s with
      | EmptyString => None
      | String c r =>
          if Ascii.eqb c dquote then
            match scanstring r with
            | Some (body, rest) => Some (VStr body, rest)
            | None => None
            end
          else if Ascii.eqb c "{" then
            match skip_ws r with
            | String c1 r1 =>
                if Ascii.eqb c1 "}" then Some (VDict [], r1)
                else if Ascii.eqb c1 dquote then
                  match object_loop f r1 with
                  | Some (pairs, rest) => Some (VDict (Dict.of_pairs pairs), rest)
                  | None => None
                  end
                else None
            | EmptyString => None
            end
          else if Ascii.eqb c "[" then
            match skip_ws r with
            | String c1 r1 =>
                if Ascii.eqb c1 "]" then Some (VList [], r1)
                else
                  match array_loop f (String c1 r1) with
                  | Some (values, rest) => Some (VList values, rest)
                  | None => None
                  end
            | EmptyString => None
            end
          else if String.prefix "null" s then Some (VNone, Text.drop 4 s)
          else if String.prefix "true" s then Some (VBool true, Text.drop 4 s)
          else if String.prefix "false" s then Some (VBool false, Text.drop 5 s)
          else
            match scan_number s with
            | Some x => Some x
            | None =>
                if String.prefix "NaN" s then Some (VFloat "nan", Text.drop 3 s)
                else if String.prefix "Infinity" s then Some (VFloat "inf", Text.drop 8 s)
                else if String.prefix "-Infinity" s then Some (VFloat "-inf", Text.drop 9 s)
                else None
            end
      end
  end

(** The loop of JSONArray, from the first character of an element. *)
with array_loop (fuel : nat) (s : string) : option (list pyval * string) :=
  match fuel with
  | O => None
  | S f =>
      match scan_once f s with
      | None => None
      | Some (value, s1) =>
          match skip_ws s1 with
          | String c r =>
              if Ascii.eqb c "]" then Some ([value], r)
              else if Ascii.eqb c "," then
                match array_loop f (skip_ws r) with
                | Some (values, rest) => Some (value :: values, rest)
                | None => None
                end
              else None
          | EmptyString => None
          end
      end
  end

(** The loop of JSONObject, from just after the opening quote of a key. *)
with object_loop (fuel : nat) (s : string) : option (list (string * pyval) * string) :=
  match fuel with
  | O => None
  | S f =>
      match scanstring s with
      | None => None
      | Some (key, s1) =>
          match skip_ws s1 with
          | String c r =>
              if Ascii.eqb c ":" then
                match scan_once f (skip_ws r) with
                | None => None
                | Some (value, s2) =>
                    match skip_ws s2 with
                    | String c2 r2 =>
                        if Ascii.eqb c2 "}" then Some ([(key, value)], r2)
                        else if Ascii.eqb c2 "," then
                          match skip_ws r2 with
                          | String c3 r3 =>
                              if Ascii.eqb c3 dquote then
                                match object_loop f r3 with
                                | Some (pairs, rest) => Some ((key, value) :: pairs, rest)
                                | None => None
                                end
                              else None
                          | EmptyString => None
                          end
                        else None
                    | EmptyString => None
                    end
                end
              else None
          | EmptyString => None
          end
      end
  end.

Definition fuel_for (s : string) : nat := 2 * String.length s + 2.

(** [json.loads(s)]; [None] is JSONDecodeError.  This holds for a text
    within [Limits.text_within]: an escape above U+00FF, which Python
    decodes, has no value here, and an integer literal above the digit
    limit, on which Python raises a plain ValueError, is read here. *)
Definition loads (s : string) : option pyval :=
  let s0 := skip_ws s in
  match scan_once (fuel_for s0) s0 with
  | Some (v, rest) =>
      match skip_ws rest with
      | EmptyString => Some v
      | _ => None
      end
  | None => None
  end.

End Json.

(** Python's [int(text)] and [float(text)] on decimal text. *)
Module Num.

(** [digit (_? digit)*]: the digits without the underscores, [None] when
    the text is not of that shape. *)
Fixpoint digit_part (after_digit : bool) (s : string) : option string :=
  match s with
  | EmptyString => if after_digit then Some EmptyString else None
  | String c r =>
      if Text.isdigit c then
        match digit_part true r with
        | Some ds => Some (String c ds)
        | None => None
        end
      else if Ascii.eqb c "_" && after_digit then digit_part false r
      else None
  end.

Definition split_sign (s : string) : bool * string :=
  match s with
  | String c r =>
      if Ascii.eqb c "-" then (true, r)
      else if Ascii.eqb c "+" then (false, r)
      else (false, s)
  | EmptyString => (false, s)
  end.

(** [int(s)]; [None] is ValueError.  Python also raises ValueError when
    the text has more digits than the digit limit; this function follows
    it on the texts within the limit ([Limits.text_within]). *)
Definition py_int (s : string) : option Z :=
  let '(neg, body) := split_sign (Text.strip s) in
  match digit_part false body with
  | Some ds => Some (if neg then - Json.int_of_digits ds else Json.int_of_digits ds)%Z
  | None => None
  end.

Definition lower (c : ascii) : ascii :=
  if Text.between 65 90 (Text.ord c) then ascii_of_nat (Text.ord c + 32) else c.

Fixpoint lowercase (s : string) : string :=
  match s with
  | EmptyString => EmptyString
  | String c r => String (lower c) (lowercase r)
  end.

(** The head of [s] as [digit (_? digit)*]: whether it is non-empty, and
    the rest. *)
Fixpoint span_digit_part (after_digit : bool) (s : string) : bool * string :=
  match s with
  | EmptyString => (after_digit, s)
  | String c r =>
      if Text.isdigit c then (true, snd (span_digit_part true r))
      else if Ascii.eqb c "_" && after_digit then
        match r with
        | String d _ => if Text.isdigit d then span_digit_part false r else (true, s)
        | EmptyString => (true, s)
        end
      else (after_digit, s)
  end.

(** The grammar of a decimal floating-point literal after the sign. *)
Definition float_body (s : string) : bool :=
  let '(has_int, r1) := span_digit_part false s in
  let '(has_frac, r2) :=
    match r1 with
    | String c r => if Ascii.eqb c "." then span_digit_part false r else (false, r1)
    | EmptyString => (false, r1)
    end in
  (has_int || has_frac)
  && match r2 with
     | EmptyString => true
     | String c r =>
         if Ascii.eqb c "e" || Ascii.eqb c "E" then
           match span_digit_part false (snd (split_sign r)) with
           | (true, EmptyString) => true
           | _ => false
           end
         else false
     end.

(** [float(s)]: the text it accepts, kept as the value; [None] is ValueError. *)
Definition py_float (s : string) : option string :=
  let t := Text.strip s in
  let body := snd (split_sign t) in
  if Text.str_in (lowercase body) ["inf"; "infinity"; "nan"] || float_body body
  then Some t
  else None.

End Num.

(** The bounds within which the total functions above follow the
    interpreter. *)
Module Limits.

(** [sys.get_int_max_str_digits()] as the interpreter starts. *)
Definition int_max_str_digits : nat := 4300.

(** [str(z)] does not raise: [z] has at most 4300 decimal digits. *)
Definition int_within (z : Z) : bool :=
  Nat.leb (String.length (Text.str_of_int (Z.abs z))) int_max_str_digits.

(** No run of digits and underscores of [s] holds more than [limit]
    digits; [run] is the number of digits of the run that is being read.
    Neither [int] nor [json.loads] then meets an integer above the
    limit. *)
Fixpoint digit_runs_within (limit run : nat) (s : string) : bool :=
  match s with
  | EmptyString => true
  | String c r =>
      if Text.isdigit c then Nat.ltb run limit && digit_runs_within limit (S run) r
      else if Ascii.eqb c "_" then digit_runs_within limit run r
      else digit_runs_within limit 0 r
  end.

(** Every backslash that is followed by the letter u is followed by u00:
    the text has no escape for a code point above U+00FF. *)
Fixpoint narrow_escapes (s : string) : bool :=
  match s with
  | EmptyString => true
  | String c r =>
      (if Ascii.eqb c backslash then
         match r with
         | String u r1 => negb (Ascii.eqb u "u") || String.prefix "00" r1
         | EmptyString => true
         end
       else true)
      && narrow_escapes r
  end.

(** The texts on which [Json.loads] and [Num.py_int] follow [json.loads]
    and [int]. *)
Definition text_within (s : string) : bool :=
  digit_runs_within int_max_str_digits 0 s && narrow_escapes s.

End Limits.

(* ====================================================================== *)
(** * age_orm/graph.py: result parsing helpers *)
(* ====================================================================== *)

(** What the driver hands back for one column of one row. *)
Inductive cell : Type :=
| CNull                                   (* None *)
| CStr (s : string)                       (* agtype as text *)
| CDict (d : list (string * pyval))
| CInt (z : Z)
| CFloat (text : string)
| CBool (b : bool)
| COther (shown : string).                (* any other object, with its str() *)

Definition is_closer (c : ascii) : bool := Ascii.eqb c "]" || Ascii.eqb c "}".

(** Does [r] start with [::] and a word character? *)
Definition tag_follows (r : string) : bool :=
  match r with
  | String c1 (String c2 (String w _)) =>
      Ascii.eqb c1 ":" && Ascii.eqb c2 ":" && Text.is_word_char w
  | _ => false
  end.

(** [re.sub(r'([\]}])::\w+', r'\1', text)]: every [::tag] that directly
    follows a closing bracket or brace is removed.  [skip] counts the two
    colons still to drop, [in_tag] says that the word of a tag is being
    dropped. *)
Fixpoint strip_bracket_tags_from (skip : nat) (in_tag : bool) (s : string) : string :=
  match s with
  | EmptyString => EmptyString
  | String c r =>
      match skip with
      | S k => strip_bracket_tags_from k in_tag r
      | O =>
          if in_tag && Text.is_word_char c then strip_bracket_tags_from 0 true r
          else if is_closer c && tag_follows r
               then String c (strip_bracket_tags_from 2 true r)
               else String c (strip_bracket_tags_from 0 false r)
      end
  end.

Definition strip_bracket_tags (s : string) : string :=
  strip_bracket_tags_from 0 false s.

(** Word characters up to the end of the text, where the end may also be
    just before one final newline (what [$] accepts); the result is what
    is left after the match. *)
Fixpoint word_to_end (s : string) : option string :=
  match s with
  | EmptyString => Some EmptyString
  | String c r =>
      if Text.is_word_char c then word_to_end r
      else if Ascii.eqb c newline
           then match r with EmptyString => Some (str1 newline) | _ => None end
           else None
  end.

(** Does [::\w+$] match at the head of [s]? *)
Definition trailing_tag_at (s : string) : option string :=
  match s with
  | String c1 (String c2 (String w r)) =>
      if Ascii.eqb c1 ":" && Ascii.eqb c2 ":" && Text.is_word_char w
      then word_to_end r
      else None
  | _ => None
  end.

(** [re.sub(r'::\w+$', '', text)]: the leftmost match is removed. *)
Fixpoint strip_trailing_tag (s : string) : string :=
  match s with
  | EmptyString => EmptyString
  | String c r =>
      match trailing_tag_at s with
      | Some rest => rest
      | None => String c (strip_trailing_tag r)
      end
  end.

(** [parsed["graph_id"] = parsed.pop("id")] on a record that has both
    [id] and [properties]. *)
Definition normalize_record (parsed : list (string * pyval)) : list (string * pyval) :=
  if Dict.has "id" parsed && Dict.has "properties" parsed then
    match Dict.get "id" parsed with
    | Some v => Dict.set "graph_id" v (Dict.remove "id" parsed)
    | None => parsed
    end
  else parsed.

Definition normalize_item (item : pyval) : pyval :=
  match item with
  | VDict d => VDict (normalize_record d)
  | _ => item
  end.

(** The text of a cell after the suffixes are stripped. *)
Definition stripped_text (val : string) : string :=
  let val_str := Text.strip val in
  let val_str := strip_bracket_tags val_str in
  let val_str := strip_trailing_tag val_str in
  Text.strip val_str.

Definition json_candidate (val_str : string) : bool :=
  Text.startswith "{" val_str || Text.startswith "[" val_str
  || Text.startswith (str1 dquote) val_str
  || Text.str_in val_str ["null"; "true"; "false"].

(** [_parse_agtype_result(val, return_type)].  The function is total: on a
    text cell it follows the code within [Limits.text_within]; outside,
    the code can also raise (the ValueError of [json.loads] on an integer
    above the digit limit is not caught by [except json.JSONDecodeError]). *)
Definition _parse_agtype_result (val : cell) (return_type : string)
    : list (string * pyval) :=
  match val with
  | CNull => []
  | CStr s =>
      let val_str := stripped_text s in
      let from_json :=
        if json_candidate val_str then
          match Json.loads val_str with
          | Some (VDict parsed) => Some (normalize_record parsed)
          | Some (VList parsed) => Some [("value", VList (map normalize_item parsed))]
          | Some parsed => Some [("value", parsed)]
          | None => None                     (* JSONDecodeError: pass *)
          end
        else None in
      match from_json with
      | Some d => d
      | None =>
          match Num.py_int val_str with
          | Some num => [("value", VInt num)]
          | None =>
              match Num.py_float val_str with
              | Some num => [("value", VFloat num)]
              | None => [("raw", VStr val_str)]
              end
          end
      end
  | CDict d => d
  | CInt z => [("value", VInt z)]
  | CFloat text => [("value", VFloat text)]
  | CBool b => [("value", VBool b)]
  | COther shown => [("raw", VStr shown)]
  end.

(** The multi-column branch: cell [i] goes under the key [col_i]. *)
Fixpoint parse_columns (i : nat) (row : list cell) (parsed_row : list (string * pyval))
    : list (string * pyval) :=
  match row with
  | [] => parsed_row
  | val :: rest =>
      parse_columns (S i) rest
        (Dict.set ("col_" ++ Text.str_of_nat i) (VDict (_parse_agtype_result val "raw"))
           parsed_row)
  end.

Fixpoint _parse_result_rows (rows : list (list cell)) (return_type : string)
    (num_columns : nat) : result (list (list (string * pyval))) :=
  match rows with
  | [] => Ok []
  | row :: rest =>
      let parsed :=
        if Nat.eqb num_columns 1 then
          match row with
          | val :: _ => Ok (_parse_agtype_result val return_type)
          | [] => Raise IndexError
          end
        else Ok (parse_columns 0 row []) in
      match parsed with
      | Raise e => Raise e
      | Ok p =>
          match _parse_result_rows rest return_type num_columns with
          | Ok ps => Ok (p :: ps)
          | Raise e => Raise e
          end
      end
  end.

(* ====================================================================== *)
(** * The database transport *)
(* ====================================================================== *)

(** database.py: a handle on a connection pool. *)
Record Database : Type := MkDatabase { dsn : string }.

(** The state the modelled code acts on: the journal of the statements sent
    to the database, oldest first. *)
Definition World : Type := list string.

(** Computations that send statements and may raise. *)
Definition M (A : Type) : Type := World -> result A * World.

Definition ret {A : Type} (a : A) : M A := fun w => (Ok a, w).

Definition raise {A : Type} (e : exn) : M A := fun w => (Raise e, w).

Definition bind {A B : Type} (m : M A) (k : A -> M B) : M B :=
  fun w =>
    match m w with
    | (Ok a, w') => k a w'
    | (Raise e, w') => (Raise e, w')
    end.

Definition lift {A : Type} (r : result A) : M A := fun w => (r, w).

Notation "'let*' x ':=' m 'in' k" := (bind m (fun x => k))
  (at level 10, x name, m at level 100, k at level 200).

(** graph.py: class Graph, the part that talks to the database. *)
Module Graph.

Record Graph : Type := MkGraph { _name : string; _db : Database }.

Section Transport.

(** The answer of the database to a statement, given everything it was sent
    before; [None] when it fails. *)
Variable respond : World -> string -> option (list (list cell)).

(** [conn.execute(sql).fetchall()] on a connection of the pool. *)
Definition fetchall (sql : string) : M (list (list cell)) :=
  fun w =>
    match respond w sql with
    | Some rows => (Ok rows, w ++ [sql])%list
    | None => (Raise DatabaseError, w ++ [sql])%list
    end.

Definition column_clause (columns : option (list string)) : string :=
  match columns with
  | None | Some [] => "result agtype"
  | Some cs => Text.join ", " (map (fun c => c ++ " agtype") cs)
  end.

Definition num_columns (columns : option (list string)) : nat :=
  match columns with
  | None | Some [] => 1
  | Some cs => List.length cs
  end.

Definition wrap_sql (self : Graph) (resolved_cypher col_clause : string) : string :=
  "SELECT * FROM cypher('" ++ _name self ++ "', $$ " ++ resolved_cypher
  ++ " $$) AS (" ++ col_clause ++ ")".

Definition _parse_results (rows : list (list cell)) (return_type : string)
    (num_columns : nat) : result (list (list (string * pyval))) :=
  _parse_result_rows rows return_type num_columns.

Definition _execute_cypher (self : Graph) (cypher : string)
    (params : option (list (string * pyval))) (columns : option (list string))
    (return_type : string) : M (list (list (string * pyval))) :=
  let* resolved_cypher := lift (substitute_cypher_params cypher params) in
  let sql := wrap_sql self resolved_cypher (column_clause columns) in
  let* rows := fetchall sql in
  lift (_parse_results rows return_type (num_columns columns)).

End Transport.
End Graph.

(* ====================================================================== *)
(** * age_orm/references.py and age_orm/models: entities *)
(* ====================================================================== *)

(** A model class as the code sees it: its name, its [__label__], whether it
    derives from Vertex, its pydantic fields with their defaults, and the
    validation pydantic runs on the constructor arguments ([None] when it
    rejects them; the result is the instance's field values). *)
Unset Elimination Schemes.
Inductive ModelClass : Type :=
| MkModelClass (__name__ : string) (__label__ : option string) (is_vertex : bool)
    (model_fields : list (string * FieldInfo))
    (validate : list (string * pyval) -> option (list (string * pyval)))
with FieldInfo : Type :=
| DefaultRelationship (r : Relationship)       (* finfo.default is a Relationship *)
| DefaultOther                                 (* any other default, or none *)
with Relationship : Type :=
| MkRelationship (_target_class : Target) (edge_label direction : string)
    (uselist cache : bool) (depth : Z)
with Target : Type :=
| ByName (qualified : string)                  (* a dotted name, resolved on use *)
| ByClass (c : ModelClass).
Set Elimination Schemes.

Definition __name__ (c : ModelClass) : string :=
  match c with MkModelClass n _ _ _ _ => n end.
Definition __label__ (c : ModelClass) : option string :=
  match c with MkModelClass _ l _ _ _ => l end.
Definition is_vertex (c : ModelClass) : bool :=
  match c with MkModelClass _ _ v _ _ => v end.
Definition model_fields (c : ModelClass) : list (string * FieldInfo) :=
  match c with MkModelClass _ _ _ f _ => f end.
Definition validate (c : ModelClass) : list (string * pyval) -> option (list (string * pyval)) :=
  match c with MkModelClass _ _ _ _ v => v end.

Definition _target_class (r : Relationship) : Target :=
  match r with MkRelationship t _ _ _ _ _ => t end.
Definition edge_label (r : Relationship) : string :=
  match r with MkRelationship _ l _ _ _ _ => l end.
Definition direction (r : Relationship) : string :=
  match r with MkRelationship _ _ d _ _ _ => d end.
Definition uselist (r : Relationship) : bool :=
  match r with MkRelationship _ _ _ u _ _ => u end.
Definition cache (r : Relationship) : bool :=
  match r with MkRelationship _ _ _ _ c _ => c end.
Definition depth (r : Relationship) : Z :=
  match r with MkRelationship _ _ _ _ _ d => d end.

(** [finfo.default.__class__ is Relationship] *)
Definition is_relationship (finfo : FieldInfo) : bool :=
  match finfo with DefaultRelationship _ => true | DefaultOther => false end.

(** [getattr(cls, "__label__", None) or cls.__name__] *)
Definition label_or_name (c : ModelClass) : string :=
  match __label__ c with
  | Some l => if String.eqb l EmptyString then __name__ c else l
  | None => __name__ c
  end.

(** The state of an instance: the pydantic field values and the internal
    attributes that [AgeModel.__init__] stores in the instance. *)
Record EntityOf (R : Type) : Type := MkEntity {
  cls : ModelClass;
  field_values : list (string * pyval);
  _age_fields : list (string * FieldInfo);
  _age_refs : list (string * FieldInfo);
  _age_refs_vals : list (string * R);
  _age_graph_id : option Z;
  _age_label : option string;
  _age_db : option Database;
  _age_graph : option Graph.Graph;
  _age_relations : list (string * list (pyval * pyval));
  _age_dirty : gset string;
  _age_start_id : option Z;
  _age_end_id : option Z
}.
Arguments MkEntity {R}.
Arguments cls {R}.
Arguments field_values {R}.
Arguments _age_fields {R}.
Arguments _age_refs {R}.
Arguments _age_refs_vals {R}.
Arguments _age_graph_id {R}.
Arguments _age_label {R}.
Arguments _age_db {R}.
Arguments _age_graph {R}.
Arguments _age_relations {R}.
Arguments _age_dirty {R}.
Arguments _age_start_id {R}.
Arguments _age_end_id {R}.

(** The value of a loaded relationship: the list of target instances, or one
    instance or None. *)
Unset Elimination Schemes.
Inductive RelValue : Type :=
| RelMany (models : list (EntityOf RelValue))
| RelOne (model : option (EntityOf RelValue)).
Set Elimination Schemes.

Definition Entity : Type := EntityOf RelValue.

(** models/base.py (class AgeModel), models/edge.py and dict_to_model. *)
Module AgeModel.

Definition _INTERNAL_ATTRS : list string :=
  ["_age_graph_id"; "_age_label"; "_age_dirty"; "_age_db"; "_age_graph";
   "_age_fields"; "_age_refs"; "_age_refs_vals"; "_age_relations"].

(** The keyword arguments of a constructor call, read at their annotated
    types: the field arguments and the underscore arguments. *)
Record Kwargs : Type := MkKwargs {
  kw_fields : list (string * pyval);
  kw_graph_id : option Z;                 (* _graph_id *)
  kw_label : option string;               (* _label *)
  kw_db : option Database;                (* _db *)
  kw_graph : option Graph.Graph;          (* _graph *)
  kw_start_id : option Z;                 (* _start_id *)
  kw_end_id : option Z                    (* _end_id *)
}.

Definition only_fields (props : list (string * pyval)) : Kwargs :=
  MkKwargs props None None None None None None.

(** What an attribute of an instance can hold. *)
Inductive attr_value : Type :=
| AVal (v : pyval)
| AId (g : option Z)
| ALabel (l : option string)
| ADb (d : option Database)
| AGraph (g : option Graph.Graph)
| ADirty (d : gset string)
| AFieldMap (f : list (string * FieldInfo))
| ARefsVals (r : list (string * RelValue))
| ARelations (r : list (string * list (pyval * pyval)))
| ARel (r : RelValue)
| ADefault (f : FieldInfo).

(** [x or y] on optional strings: None and the empty string are falsy. *)
Definition or_str (x : option string) (y : option string) : option string :=
  match x with
  | Some s => if String.eqb s EmptyString then y else x
  | None => y
  end.

(** [kwargs.get("_label", None) or self.__label__ or type(self).__name__] *)
Definition initial_label (c : ModelClass) (kw : option string) : option string :=
  or_str (or_str kw (__label__ c)) (Some (__name__ c)).

Fixpoint split_fields (fs : list (string * FieldInfo))
    : list (string * FieldInfo) * list (string * FieldInfo) :=
  match fs with
  | [] => ([], [])
  | (fname, finfo) :: rest =>
      let '(fields, refs) := split_fields rest in
      if is_relationship finfo
      then (fields, (fname, finfo) :: refs)
      else ((fname, finfo) :: fields, refs)
  end.

(** [AgeModel.__init__], followed for an edge class by the two assignments
    of [Edge.__init__]. *)
Definition __init__ (c : ModelClass) (kwargs : Kwargs) : result Entity :=
  match validate c (kw_fields kwargs) with
  | None => Raise ValidationError
  | Some values =>
      let '(fields, refs) := split_fields (model_fields c) in
      Ok {| cls := c;
            field_values := values;
            _age_fields := fields;
            _age_refs := refs;
            _age_refs_vals := [];
            _age_graph_id := kw_graph_id kwargs;
            _age_label := initial_label c (kw_label kwargs);
            _age_db := kw_db kwargs;
            _age_graph := kw_graph kwargs;
            _age_relations := [];
            _age_dirty :=
              match kw_db kwargs with
              | Some _ => ∅
              | None => list_to_set (Dict.keys fields)
              end;
            _age_start_id := if is_vertex c then None else kw_start_id kwargs;
            _age_end_id := if is_vertex c then None else kw_end_id kwargs |}
  end.

(** [object.__setattr__(self, "_age_...", value)] *)
Definition store_internal (self : Entity) (attr : string) (value : attr_value)
    : result Entity :=
  let 'MkEntity c vs fs rs rv gid lbl db gr rel dirty sid eid := self in
  match value with
  | AId g =>
      if String.eqb attr "_age_graph_id"
      then Ok (MkEntity c vs fs rs rv g lbl db gr rel dirty sid eid)
      else if String.eqb attr "_age_start_id"
      then Ok (MkEntity c vs fs rs rv gid lbl db gr rel dirty g eid)
      else if String.eqb attr "_age_end_id"
      then Ok (MkEntity c vs fs rs rv gid lbl db gr rel dirty sid g)
      else Raise Unmodelled
  | ALabel l =>
      if String.eqb attr "_age_label"
      then Ok (MkEntity c vs fs rs rv gid l db gr rel dirty sid eid)
      else Raise Unmodelled
  | ADb d =>
      if String.eqb attr "_age_db"
      then Ok (MkEntity c vs fs rs rv gid lbl d gr rel dirty sid eid)
      else Raise Unmodelled
  | AGraph g =>
      if String.eqb attr "_age_graph"
      then Ok (MkEntity c vs fs rs rv gid lbl db g rel dirty sid eid)
      else Raise Unmodelled
  | ADirty d =>
      if String.eqb attr "_age_dirty"
      then Ok (MkEntity c vs fs rs rv gid lbl db gr rel d sid eid)
      else Raise Unmodelled
  | ARefsVals r =>
      if String.eqb attr "_age_refs_vals"
      then Ok (MkEntity c vs fs rs r gid lbl db gr rel dirty sid eid)
      else Raise Unmodelled
  | ARelations r =>
      if String.eqb attr "_age_relations"
      then Ok (MkEntity c vs fs rs rv gid lbl db gr r dirty sid eid)
      else Raise Unmodelled
  | AFieldMap f =>
      if String.eqb attr "_age_fields"
      then Ok (MkEntity c vs f rs rv gid lbl db gr rel dirty sid eid)
      else if String.eqb attr "_age_refs"
      then Ok (MkEntity c vs fs f rv gid lbl db gr rel dirty sid eid)
      else Raise Unmodelled
  | _ => Raise Unmodelled
  end.

(** The properties of the class that have a setter, with the attribute the
    setter stores into. *)
Definition setter_slot (self : Entity) (attr : string) : option string :=
  if String.eqb attr "_label" then Some "_age_label"
  else if String.eqb attr "_dirty" then Some "_age_dirty"
  else if String.eqb attr "_graph_id" then Some "_age_graph_id"
  else if String.eqb attr "_db" then Some "_age_db"
  else if String.eqb attr "_graph" then Some "_age_graph"
  else if String.eqb attr "_relations" then Some "_age_relations"
  else if negb (is_vertex (cls self)) && String.eqb attr "_start_id" then Some "_age_start_id"
  else if negb (is_vertex (cls self)) && String.eqb attr "_end_id" then Some "_age_end_id"
  else None.

(** The properties without a setter: those of AgeModel and, on an edge
    class, the two that Edge adds. *)
Definition read_only_properties (c : ModelClass) : list string :=
  (["graph_id"; "label"; "is_dirty"; "_fields"; "_refs"; "_refs_vals"]
   ++ (if is_vertex c then [] else ["start_id"; "end_id"]))%list.

Definition set_field_value (self : Entity) (attr : string) (v : pyval) : Entity :=
  let 'MkEntity c vs fs rs rv gid lbl db gr rel dirty sid eid := self in
  MkEntity c (Dict.set attr v vs) fs rs rv gid lbl db gr rel dirty sid eid.

(** [super().__setattr__(attr, value)]: pydantic's assignment.  A property
    with a setter stores into its attribute; a property without one
    raises AttributeError, also when a field of the class has its name; a
    declared field takes the value (assignments are not validated); a
    name that is neither is refused.  A vertex has no [_start_id] property: Python keeps the value
    in a plain attribute that nothing reads, the instance state modelled
    here is unchanged. *)
Definition super_setattr (self : Entity) (attr : string) (value : attr_value)
    : result Entity :=
  match setter_slot self attr with
  | Some slot => store_internal self slot value
  | None =>
      if Text.str_in attr (read_only_properties (cls self)) then Raise AttributeError
      else if Text.startswith "_" attr then
        (if String.eqb attr "_start_id" || String.eqb attr "_end_id"
         then Ok self else Raise Unmodelled)
      else if Dict.has attr (model_fields (cls self)) then
        match value with
        | AVal v => Ok (set_field_value self attr v)
        | _ => Raise Unmodelled
        end
      else Raise ValueError
  end.

Definition dirty_add (self : Entity) (attr : string) : Entity :=
  let 'MkEntity c vs fs rs rv gid lbl db gr rel dirty sid eid := self in
  MkEntity c vs fs rs rv gid lbl db gr rel ({[ attr ]} ∪ dirty) sid eid.

Definition __setattr__ (self : Entity) (attr : string) (value : attr_value)
    : result Entity :=
  if Text.str_in attr _INTERNAL_ATTRS then store_internal self attr value
  else
    match super_setattr self attr value with
    | Raise e => Raise e
    | Ok self =>
        if Text.startswith "_" attr || String.eqb attr "model_config" then Ok self
        else
          let refs := _age_refs self in
          if Dict.has attr (model_fields (cls self)) && negb (Dict.has attr refs)
          then Ok (dirty_add self attr)
          else Ok self
    end.

(** [self._dirty.clear()], what the persistence operations do to mark an
    instance clean. *)
Definition dirty_clear (self : Entity) : Entity :=
  let 'MkEntity c vs fs rs rv gid lbl db gr rel dirty sid eid := self in
  MkEntity c vs fs rs rv gid lbl db gr rel ∅ sid eid.

(** The [graph_id], [label] and [is_dirty] properties. *)
Definition graph_id (self : Entity) : option Z := _age_graph_id self.

Definition label (self : Entity) : option string :=
  or_str (or_str (_age_label self) (__label__ (cls self))) (Some (__name__ (cls self))).

Definition is_dirty (self : Entity) : bool :=
  negb (bool_decide (_age_dirty self = ∅)).

(** [data.get("graph_id")] and the like, read at the annotated type. *)
Definition as_id (v : option pyval) : option Z :=
  match v with Some (VInt z) => Some z | _ => None end.

Definition as_label (v : option pyval) : option string :=
  match v with Some (VStr s) => Some s | _ => None end.

Definition then_set (r : result Entity) (attr : string) (value : attr_value)
    : result Entity :=
  match r with
  | Ok instance => __setattr__ instance attr value
  | Raise e => Raise e
  end.

(** utils/serialization.py: dict_to_model *)
Definition dict_to_model (data : list (string * pyval)) (model_class : ModelClass)
    (db : option Database) (graph : option Graph.Graph) : result Entity :=
  let kwargs :=
    match Dict.get "properties" data with
    | Some (VDict props) => Ok props
    | Some _ => Raise TypeError            (* ** needs a mapping *)
    | None => Ok data
    end in
  match kwargs with
  | Raise e => Raise e
  | Ok props =>
      let instance := __init__ model_class (only_fields props) in
      let instance := then_set instance "_graph_id" (AId (as_id (Dict.get "graph_id" data))) in
      let instance :=
        then_set instance "_label"
          (ALabel (match Dict.get "label" data with
                   | Some v => as_label (Some v)
                   | None => __label__ model_class
                   end)) in
      let instance := then_set instance "_dirty" (ADirty ∅) in
      let instance := then_set instance "_db" (ADb db) in
      let instance := then_set instance "_graph" (AGraph graph) in
      let instance :=
        if Dict.has "start_id" data
        then then_set instance "_start_id" (AId (as_id (Dict.get "start_id" data)))
        else instance in
      if Dict.has "end_id" data
      then then_set instance "_end_id" (AId (as_id (Dict.get "end_id" data)))
      else instance
  end.

Fixpoint hydrate_all (results : list (list (string * pyval))) (model_class : ModelClass)
    (db : option Database) (graph : option Graph.Graph) : result (list Entity) :=
  match results with
  | [] => Ok []
  | r :: rest =>
      match dict_to_model r model_class db graph with
      | Raise e => Raise e
      | Ok m =>
          match hydrate_all rest model_class db graph with
          | Ok ms => Ok (m :: ms)
          | Raise e => Raise e
          end
      end
  end.

(** [object.__getattribute__(self, "_age_...")] *)
Definition load_internal (self : Entity) (item : string) : result attr_value :=
  if String.eqb item "_age_graph_id" then Ok (AId (_age_graph_id self))
  else if String.eqb item "_age_label" then Ok (ALabel (_age_label self))
  else if String.eqb item "_age_dirty" then Ok (ADirty (_age_dirty self))
  else if String.eqb item "_age_db" then Ok (ADb (_age_db self))
  else if String.eqb item "_age_graph" then Ok (AGraph (_age_graph self))
  else if String.eqb item "_age_fields" then Ok (AFieldMap (_age_fields self))
  else if String.eqb item "_age_refs" then Ok (AFieldMap (_age_refs self))
  else if String.eqb item "_age_refs_vals" then Ok (ARefsVals (_age_refs_vals self))
  else if String.eqb item "_age_relations" then Ok (ARelations (_age_relations self))
  else if negb (is_vertex (cls self)) && String.eqb item "_age_start_id"
  then Ok (AId (_age_start_id self))
  else if negb (is_vertex (cls self)) && String.eqb item "_age_end_id"
  then Ok (AId (_age_end_id self))
  else Raise AttributeError.

(** The properties, with the attribute each one reads. *)
Definition getter_slot (self : Entity) (item : string) : option string :=
  if String.eqb item "graph_id" || String.eqb item "_graph_id" then Some "_age_graph_id"
  else if String.eqb item "_label" then Some "_age_label"
  else if String.eqb item "_dirty" then Some "_age_dirty"
  else if String.eqb item "_db" then Some "_age_db"
  else if String.eqb item "_graph" then Some "_age_graph"
  else if String.eqb item "_relations" then Some "_age_relations"
  else if String.eqb item "_fields" then Some "_age_fields"
  else if String.eqb item "_refs" then Some "_age_refs"
  else if String.eqb item "_refs_vals" then Some "_age_refs_vals"
  else if String.eqb item "start_id" || String.eqb item "_start_id" then Some "_age_start_id"
  else if String.eqb item "end_id" || String.eqb item "_end_id" then Some "_age_end_id"
  else None.

(** [super().__getattribute__(item)]: a property, else a field value of the
    instance, else the default the class declares for the field.  Methods
    and other class attributes are not modelled. *)
Definition super_getattribute (self : Entity) (item : string) : result attr_value :=
  if String.eqb item "label" then Ok (ALabel (label self))
  else if String.eqb item "is_dirty" then Ok (AVal (VBool (is_dirty self)))
  else
    match getter_slot self item with
    | Some slot => load_internal self slot
    | None =>
        if Text.startswith "_age_" item then load_internal self item
        else
          match Dict.get item (field_values self) with
          | Some v => Ok (AVal v)
          | None =>
              match Dict.get item (model_fields (cls self)) with
              | Some finfo => Ok (ADefault finfo)
              | None => Raise AttributeError
              end
          end
    end.

Definition set_refs_val (self : Entity) (item : string) (r_val : RelValue) : Entity :=
  let 'MkEntity c vs fs rs rv gid lbl db gr rel dirty sid eid := self in
  MkEntity c vs fs rs (Dict.set item r_val rv) gid lbl db gr rel dirty sid eid.

(** [f"{graph_id}"] *)
Definition show_id (g : option Z) : string :=
  match g with Some z => Text.str_of_int z | None => "None" end.

Section Process.

Variable respond : World -> string -> option (list (list cell)).

(** [pydoc.locate]: the class a dotted name denotes, if any. *)
Variable locate : string -> option ModelClass.

(** references.py: Relationship.resolve_target_class *)
Definition resolve_target_class (r : Relationship) : result ModelClass :=
  match _target_class r with
  | ByName qualified =>
      match locate qualified with
      | Some resolved => Ok resolved
      | None => Raise ImportError
      end
  | ByClass c => Ok c
  end.

Definition relationship_cypher (relationship : Relationship) (target_label : string)
    (graph_id : option Z) : string :=
  let dir_left := if String.eqb (direction relationship) "inbound" then "<" else EmptyString in
  let dir_right := if String.eqb (direction relationship) "outbound" then ">" else EmptyString in
  let depth_str :=
    if Z.ltb 1 (depth relationship)
    then "*1.." ++ Text.str_of_int (depth relationship) else EmptyString in
  "MATCH (n)" ++ dir_left ++ "-[:" ++ edge_label relationship ++ depth_str ++ "]-"
  ++ dir_right ++ "(m:" ++ target_label ++ ") WHERE id(n) = " ++ show_id graph_id
  ++ " RETURN m".

(** [AgeModel.__getattribute__]: the value read, and the instance, whose
    relationship cache the read may have filled. *)
Definition __getattribute__ (self : Entity) (item : string) : M (attr_value * Entity) :=
  if Text.str_in item _INTERNAL_ATTRS then
    let* v := lift (load_internal self item) in ret (v, self)
  else if Text.startswith "_" item || Text.startswith "model_" item then
    let* v := lift (super_getattribute self item) in ret (v, self)
  else
    let refs := _age_refs self in
    match Dict.get item refs with
    | None => let* v := lift (super_getattribute self item) in ret (v, self)
    | Some finfo =>
        let refs_vals := _age_refs_vals self in
        match Dict.get item refs_vals with
        | Some cached => ret (ARel cached, self)
        | None =>
            match _age_db self, _age_graph self with
            | Some db, Some graph =>
                match finfo with
                | DefaultOther => raise AttributeError
                | DefaultRelationship relationship =>
                    let* target_class := lift (resolve_target_class relationship) in
                    let target_label := label_or_name target_class in
                    let cypher :=
                      relationship_cypher relationship target_label (_age_graph_id self) in
                    let* results :=
                      Graph._execute_cypher respond graph cypher None None "vertex" in
                    let* models :=
                      lift (hydrate_all results target_class (Some db) (Some graph)) in
                    let r_val :=
                      if uselist relationship then RelMany models
                      else RelOne (match models with m :: _ => Some m | [] => None end) in
                    if cache relationship
                    then ret (ARel r_val, set_refs_val self item r_val)
                    else ret (ARel r_val, self)
                end
            | _, _ => raise DetachedInstanceError
            end
        end
    end.

End Process.
End AgeModel.

(* ====================================================================== *)
(** * age_orm/event.py *)
(* ====================================================================== *)

Module Event.

(** A handler sees the target, the event name and the graph; it may change
    the target and it may raise. *)
Definition handler : Type := Entity -> string -> Graph.Graph -> result Entity.

(** [_registrars[event]]: per registered class (given by its [isinstance]
    test) the handlers, in registration order. *)
Definition registrars : Type := string -> list ((ModelClass -> bool) * list handler).

Fixpoint run_handlers (fns : list handler) (target : Entity) (event : string)
    (graph : Graph.Graph) : result Entity :=
  match fns with
  | [] => Ok target
  | fn :: rest =>
      match fn target event graph with
      | Ok target' => run_handlers rest target' event graph
      | Raise e => Raise e
      end
  end.

Fixpoint dispatch_classes (by_event : list ((ModelClass -> bool) * list handler))
    (target : Entity) (event : string) (graph : Graph.Graph) : result Entity :=
  match by_event with
  | [] => Ok target
  | (isinstance, fns) :: rest =>
      if isinstance (cls target) then
        match run_handlers fns target event graph with
        | Ok target' => dispatch_classes rest target' event graph
        | Raise e => Raise e
        end
      else dispatch_classes rest target event graph
  end.

Definition dispatch (_registrars : registrars) (target : Entity) (event : string)
    (graph : Graph.Graph) : result Entity :=
  dispatch_classes (_registrars event) target event graph.

End Event.

(* ====================================================================== *)
(** * age_orm/graph.py: the methods of Graph that handle entities *)
(* ====================================================================== *)

(** What [_hydrate_result] returns: the data unchanged, a row of hydrated
    columns, or a model instance. *)
Unset Elimination Schemes.
Inductive hydrated : Type :=
| HValue (v : pyval)
| HRow (items : list (string * hydrated))
| HModel (m : Entity).
Set Elimination Schemes.

Module GraphOps.
Import Graph.

Section Process.

Variable respond : World -> string -> option (list (list cell)).
Variable _registrars : Event.registrars.

(** [AgeModel._label_registry] *)
Variable _label_registry : list (string * ModelClass).

Definition delete_statement (entity : Entity) : string :=
  if is_vertex (cls entity)
  then "MATCH (n) WHERE id(n) = " ++ AgeModel.show_id (AgeModel.graph_id entity)
       ++ " DETACH DELETE n"
  else "MATCH ()-[e]->() WHERE id(e) = " ++ AgeModel.show_id (AgeModel.graph_id entity)
       ++ " DELETE e".

(** [Graph.delete]; the result is the entity as the call leaves it. *)
Definition delete (self : Graph) (entity : Entity) : M Entity :=
  match AgeModel.graph_id entity with
  | None => raise EntityNotFoundError
  | Some _ =>
      let* entity := lift (Event.dispatch _registrars entity "pre_delete" self) in
      let cypher := delete_statement entity in
      let* _ := _execute_cypher respond self cypher None None "raw" in
      let* entity := lift (AgeModel.__setattr__ entity "_graph_id" (AgeModel.AId None)) in
      let* entity := lift (AgeModel.__setattr__ entity "_db" (AgeModel.ADb None)) in
      let* entity := lift (AgeModel.__setattr__ entity "_graph" (AgeModel.AGraph None)) in
      let* entity := lift (Event.dispatch _registrars entity "post_delete" self) in
      ret entity
  end.

(** [AgeModel._label_registry.get(data["label"])]: a list or a dict cannot
    be a key. *)
Definition registry_get (label : pyval) : result (option ModelClass) :=
  match label with
  | VStr l => Ok (Dict.get l _label_registry)
  | VList _ | VDict _ => Raise TypeError
  | _ => Ok None
  end.

Fixpoint _hydrate_result (self : Graph) (data : pyval) : result hydrated :=
  match data with
  | VDict d =>
      if existsb (Text.startswith "col_") (Dict.keys d) then
        match
          (fix columns (items : list (string * pyval)) : result (list (string * hydrated)) :=
             match items with
             | [] => Ok []
             | (k, v) :: rest =>
                 match _hydrate_result self v with
                 | Raise e => Raise e
                 | Ok h =>
                     match columns rest with
                     | Ok hs => Ok ((k, h) :: hs)
                     | Raise e => Raise e
                     end
                 end
             end) d
        with
        | Ok hs => Ok (HRow hs)
        | Raise e => Raise e
        end
      else if negb (Dict.has "label" d) || negb (Dict.has "properties" d) then Ok (HValue data)
      else
        match Dict.get "label" d with
        | None => Ok (HValue data)
        | Some l =>
            match registry_get l with
            | Raise e => Raise e
            | Ok None => Ok (HValue data)
            | Ok (Some model_class) =>
                match AgeModel.dict_to_model d model_class (Some (_db self)) (Some self) with
                | Ok m => Ok (HModel m)
                | Raise e => Raise e
                end
            end
        end
  | _ => Ok (HValue data)
  end.

Fixpoint hydrate_results (self : Graph) (results : list (list (string * pyval)))
    : result (list hydrated) :=
  match results with
  | [] => Ok []
  | r :: rest =>
      match _hydrate_result self (VDict r) with
      | Raise e => Raise e
      | Ok h =>
          match hydrate_results self rest with
          | Ok hs => Ok (h :: hs)
          | Raise e => Raise e
          end
      end
  end.

(** [Graph.cypher(statement, columns=..., return_type=..., **params)] *)
Definition cypher (self : Graph) (statement : string) (columns : option (list string))
    (return_type : string) (params : list (string * pyval)) : M (list hydrated) :=
  let* results := _execute_cypher respond self statement (Some params) columns return_type in
  lift (hydrate_results self results).

End Process.
End GraphOps.

(* ====================================================================== *)
(** * age_orm/query/builder.py: class Query *)
(* ====================================================================== *)

Module Query.

Record Filter : Type := MkFilter { condition : string; joiner : option string }.

Record Query : Type := MkQuery {
  _model_class : ModelClass;
  _graph : Graph.Graph;
  _label : string;
  _filters : list Filter;
  _sort_columns : list string;
  _limit : option Z;
  _skip : Z;
  _return_fields : option (list string);
  _bind_vars : list (string * pyval)
}.

(** [Query(model_class, graph)] *)
Definition new (model_class : ModelClass) (graph : Graph.Graph) : Query :=
  {| _model_class := model_class;
     _graph := graph;
     _label := label_or_name model_class;
     _filters := [];
     _sort_columns := [];
     _limit := None;
     _skip := 0;
     _return_fields := None;
     _bind_vars := [] |}.

Definition next_joiner (self : Query) (_or : bool) : option string :=
  match _filters self with
  | [] => None
  | _ => Some (if _or then "OR" else "AND")
  end.

Definition add_filter (self : Query) (condition : string) (_or : bool)
    (kwargs : list (string * pyval)) : Query :=
  {| _model_class := _model_class self;
     _graph := _graph self;
     _label := _label self;
     _filters := (_filters self ++ [MkFilter condition (next_joiner self _or)])%list;
     _sort_columns := _sort_columns self;
     _limit := _limit self;
     _skip := _skip self;
     _return_fields := _return_fields self;
     _bind_vars := Dict.update (_bind_vars self) kwargs |}.

Definition filter (self : Query) (condition : string) (_or : bool)
    (kwargs : list (string * pyval)) : Query :=
  add_filter self condition _or kwargs.

Definition filter_by (self : Query) (_or : bool) (kwargs : list (string * pyval)) : Query :=
  match kwargs with
  | [] => self
  | _ =>
      let conditions := map (fun k => "n." ++ k ++ " = $" ++ k) (Dict.keys kwargs) in
      let condition := Text.join " AND " conditions in
      let condition :=
        if Nat.ltb 1 (List.length conditions) then "(" ++ condition ++ ")" else condition in
      add_filter self condition _or kwargs
  end.


(** [limit(count, skip=0)] *)
Definition limit (self : Query) (count : Z) (skip : Z) : Query :=
  {| _model_class := _model_class self;
     _graph := _graph self;
     _label := _label self;
     _filters := _filters self;
     _sort_columns := _sort_columns self;
     _limit := Some count;
     _skip := skip;
     _return_fields := _return_fields self;
     _bind_vars := _bind_vars self |}.

Definition returns (self : Query) (fields : list string) : Query :=
  {| _model_class := _model_class self;
     _graph := _graph self;
     _label := _label self;
     _filters := _filters self;
     _sort_columns := _sort_columns self;
     _limit := _limit self;
     _skip := _skip self;
     _return_fields := Some fields;
     _bind_vars := _bind_vars self |}.

Definition where_part (fc : Filter) : string :=
  match joiner fc with
  | None => condition fc
  | Some j => j ++ " " ++ condition fc
  end.

Definition nl : string := str1 newline.

Definition _build_match_where (self : Query) : result string :=
  let cypher := "MATCH (n:" ++ _label self ++ ")" in
  match _filters self with
  | [] => Ok cypher
  | filters =>
      let where_parts := map where_part filters in
      let where_clause := Text.join " " where_parts in
      match substitute_cypher_params where_clause (Some (_bind_vars self)) with
      | Ok where_clause => Ok (cypher ++ nl ++ "WHERE " ++ where_clause)
      | Raise e => Raise e
      end
  end.

Definition _build_cypher (self : Query) : result string :=
  match _build_match_where self with
  | Raise e => Raise e
  | Ok cypher =>
      let cypher :=
        match _return_fields self with
        | Some (f :: fs) => cypher ++ nl ++ "RETURN " ++ Text.join ", " (f :: fs)
        | _ => cypher ++ nl ++ "RETURN n"
        end in
      let cypher :=
        match _sort_columns self with
        | [] => cypher
        | cols => cypher ++ nl ++ "ORDER BY " ++ Text.join ", " cols
        end in
      let cypher :=
        if Z.ltb 0 (_skip self)
        then cypher ++ nl ++ "SKIP " ++ Text.str_of_int (_skip self) else cypher in
      let cypher :=
        match _limit self with
        | Some l => cypher ++ nl ++ "LIMIT " ++ Text.str_of_int l
        | None => cypher
        end in
      Ok cypher
  end.

Section Process.

Variable respond : World -> string -> option (list (list cell)).

(** [iterator()], run to its end: the statement is executed when the first
    element is asked for, each row is hydrated in turn. *)
Definition iterator (self : Query) : M (list Entity) :=
  let* cypher := lift (_build_cypher self) in
  let* results := Graph._execute_cypher respond (_graph self) cypher None None "vertex" in
  lift (AgeModel.hydrate_all results (_model_class self)
          (Some (Graph._db (_graph self))) (Some (_graph self))).

(** [all()] is [list(self.iterator())]. *)
Definition all (self : Query) : M (list Entity) := iterator self.

Definition one (self : Query) : M Entity :=
  let* results := all self in
  if Nat.eqb (List.length results) 0 then raise EntityNotFoundError
  else if Nat.ltb 1 (List.length results) then raise MultipleResultsError
  else
    match results with
    | r :: _ => ret r
    | [] => raise IndexError
    end.

Definition count_of (results : list (list (string * pyval))) : pyval :=
  match results with
  | r :: _ =>
      match Dict.get "value" r with
      | Some v => v
      | None => VInt 0
      end
  | [] => VInt 0
  end.

Definition count (self : Query) : M pyval :=
  let* cypher := lift (_build_match_where self) in
  let cypher := cypher ++ nl ++ "RETURN count(n)" in
  let* results := Graph._execute_cypher respond (_graph self) cypher None None "raw" in
  ret (count_of results).

Definition delete (self : Query) : M pyval :=
  let* match_where := lift (_build_match_where self) in
  let cypher := match_where ++ nl ++ "DETACH DELETE n" in
  let* count := count self in
  let* _ := Graph._execute_cypher respond (_graph self) cypher None None "raw" in
  ret count.

End Process.
End Query.

(* ====================================================================== *)
(** * The clause structure of a built query, as the design states it *)
(* ====================================================================== *)

Module Clauses.
Import Query.


(** The WHERE clause: absent without filters, else the joined conditions
    with the bind variables substituted. *)
Definition where_clause (q : Query) : result (list string) :=
  match _filters q with
  | [] => Ok []
  | fs =>
      match substitute_cypher_params (Text.join " " (map where_part fs))
              (Some (_bind_vars q)) with
      | Ok w => Ok ["WHERE " ++ w]
      | Raise e => Raise e
      end
  end.






End Clauses.

(* ====================================================================== *)
(** * The model classes of the test suite (tests/conftest.py) and a graph *)
(* ====================================================================== *)

Module Fixtures.

Definition or_none (v : option pyval) : pyval :=
  match v with Some x => x | None => VNone end.

(** class Person(Vertex): name: str, age: int, email: str | None = None *)
Definition person_validate (kw : list (string * pyval)) : option (list (string * pyval)) :=
  match Dict.get "name" kw, Dict.get "age" kw with
  | Some (VStr n), Some (VInt a) =>
      Some [("name", VStr n); ("age", VInt a); ("email", or_none (Dict.get "email" kw))]
  | _, _ => None
  end.

Definition Person : ModelClass :=
  MkModelClass "Person" (Some "Person") true
    [("name", DefaultOther); ("age", DefaultOther); ("email", DefaultOther)]
    person_validate.

(** class Company(Vertex): name: str, industry: str = "tech" *)
Definition company_validate (kw : list (string * pyval)) : option (list (string * pyval)) :=
  match Dict.get "name" kw with
  | Some (VStr n) =>
      Some [("name", VStr n);
            ("industry", match Dict.get "industry" kw with Some v => v | None => VStr "tech" end)]
  | _ => None
  end.

Definition Company : ModelClass :=
  MkModelClass "Company" (Some "Company") true
    [("name", DefaultOther); ("industry", DefaultOther)] company_validate.

(** class PersonWithRels(Vertex), with the relationships friends and employer *)
Definition friends_rel : Relationship :=
  MkRelationship (ByName "tests.conftest.PersonWithRels") "KNOWS" "outbound" true true 1.

Definition employer_rel : Relationship :=
  MkRelationship (ByName "tests.conftest.Company") "WORKS_AT" "outbound" false true 1.

Definition person_rels_validate (kw : list (string * pyval))
    : option (list (string * pyval)) :=
  match Dict.get "name" kw, Dict.get "age" kw with
  | Some (VStr n), Some (VInt a) => Some [("name", VStr n); ("age", VInt a)]
  | _, _ => None
  end.

Definition PersonWithRels : ModelClass :=
  MkModelClass "PersonWithRels" (Some "PersonRel") true
    [("name", DefaultOther); ("age", DefaultOther);
     ("friends", DefaultRelationship friends_rel);
     ("employer", DefaultRelationship employer_rel)]
    person_rels_validate.

Definition locate (qualified : string) : option ModelClass :=
  if String.eqb qualified "tests.conftest.PersonWithRels" then Some PersonWithRels
  else if String.eqb qualified "tests.conftest.Company" then Some Company
  else None.

Definition registry : list (string * ModelClass) :=
  [("Person", Person); ("Company", Company); ("PersonRel", PersonWithRels)].

Definition no_handlers : Event.registrars := fun _ => [].

Definition db0 : Database := MkDatabase "postgresql://localhost/test".
Definition g0 : Graph.Graph := Graph.MkGraph "test_graph" db0.

(** A database that answers every statement with the same rows. *)
Definition always (rows : list (list cell)) : World -> string -> option (list (list cell)) :=
  fun _ _ => Some rows.

Definition alice_row : list cell :=
  [CStr (qq "{`id`: 844424930131969, `label`: `Person`, `properties`: {`name`: `Alice`, `age`: 30}}::vertex")].

Definition bob_row : list cell :=
  [CStr (qq "{`id`: 844424930131970, `label`: `Person`, `properties`: {`name`: `Bob`, `age`: 25}}::vertex")].

End Fixtures.

Module Scenario.
Import Fixtures.

(** [needle in s] *)
Fixpoint contains (needle s : string) : bool :=
  String.prefix needle s
  || match s with
     | String _ r => contains needle r
     | EmptyString => false
     end.

(** A database holding three persons: it counts three until a deletion
    was sent, and none afterwards. *)
Definition three_persons : World -> string -> option (list (list cell)) :=
  fun sent sql =>
    if contains "count(n)" sql
    then (if existsb (contains "DETACH DELETE") sent
          then Some [[CStr "0"]] else Some [[CStr "3"]])
    else Some [].

Definition all_persons : Query.Query := Query.new Person g0.

Definition adults : Query.Query :=
  Query.filter all_persons "n.age > $min_age" false [("min_age", VInt 20)].

Definition sql_of (cypher : string) : string :=
  Graph.wrap_sql g0 cypher "result agtype".

End Scenario.

(* ====================================================================== *)
(** * Notions used in the statements about entities *)
(* ====================================================================== *)

(** The declared persisted fields of a class: its fields other than the
    relationship slots. *)
Definition persisted_names (c : ModelClass) : list string :=
  Dict.keys (List.filter (fun kv => negb (is_relationship (snd kv))) (model_fields c)).

(** A persisted field of an instance. *)
Definition persisted_field (e : Entity) (x : string) : bool :=
  Dict.has x (model_fields (cls e)) && negb (Dict.has x (_age_refs e)).

(** The field names pydantic accepts (no leading underscore, not
    [model_config]) that do not shadow a read-only property of the class
    [c]: one of AgeModel or, for an edge class, one of Edge. *)
Definition assignable_name (c : ModelClass) (x : string) : bool :=
  negb (Text.startswith "_" x) && negb (String.eqb x "model_config")
  && negb (Text.str_in x (AgeModel.read_only_properties c)).

(** Handlers that only observe: they return normally and leave the target
    as it is. *)
Definition observers_only (regs : Event.registrars) : Prop :=
  forall event isinstance fns fn,
    In (isinstance, fns) (regs event) -> In fn fns ->
    forall target ev graph, fn target ev graph = Ok target.

Module EntityScenario.
Import Fixtures.

Definition alice_kwargs : AgeModel.Kwargs :=
  AgeModel.only_fields [("name", VStr "Alice"); ("age", VInt 30);
                        ("email", VStr "alice@example.com")].

(** [Person(name="Test", age=1, _db=...)] *)
Definition loaded_kwargs : AgeModel.Kwargs :=
  AgeModel.MkKwargs [("name", VStr "Test"); ("age", VInt 1)] None None (Some db0) None
    None None.

Definition alice_record : list (string * pyval) :=
  [("label", VStr "Person");
   ("properties", VDict [("name", VStr "Alice"); ("age", VInt 30)]);
   ("graph_id", VInt 844424930131969)].

Definition rel_person_record : list (string * pyval) :=
  [("label", VStr "PersonRel");
   ("properties", VDict [("name", VStr "Test"); ("age", VInt 25)]);
   ("graph_id", VInt 1125899906842625)].

End EntityScenario.

(* ====================================================================== *)
(** * The decoder as the design text words it *)
(* ====================================================================== *)

(** Exactly one trailing [::tag] is stripped; then a JSON parse of an
    object, an array or a quoted string, an integer parse and a float parse
    are attempted in that order; else the stripped text is returned under
    the raw key. *)
Module AsWorded.




End AsWorded.

(** A non-empty run of word characters: the name of a type tag. *)
Fixpoint all_word (s : string) : bool :=
  match s with
  | EmptyString => true
  | String c r => Text.is_word_char c && all_word r
  end.

Definition is_tag (tag : string) : bool :=
  match tag with
  | EmptyString => false
  | _ => all_word tag
  end.

(** [s] is empty or starts with a character that is not a word character. *)
Definition word_stops (s : string) : bool :=
  match s with
  | EmptyString => true
  | String c _ => negb (Text.is_word_char c)
  end.



Module CellScenario.


Definition vertex_cell : string :=
  qq "{`id`: 844424930131969, `label`: `Person`, `properties`: {`name`: `Alice`}}::vertex".

End CellScenario.

(* ====================================================================== *)
(** * The values whose encoding the decoder reads back *)
(* ====================================================================== *)

Module RoundTrip.

(** No closing bracket or brace of [s] is directly followed by [::] and a
    word character. *)
Fixpoint tag_free (s : string) : bool :=
  match s with
  | EmptyString => true
  | String c r => negb (is_closer c && tag_follows r) && tag_free r
  end.

(** A key that needs no escaping: no double quote, no backslash, no control
    character. *)
Definition plain_char (c : ascii) : bool :=
  negb (Ascii.eqb c dquote) && negb (Ascii.eqb c backslash)
  && negb (Nat.ltb (Text.ord c) 32).

Fixpoint plain_key (k : string) : bool :=
  match k with
  | EmptyString => true
  | String c r => plain_char c && plain_key r
  end.

Fixpoint all_digits (s : string) : bool :=
  match s with
  | EmptyString => true
  | String c r => Text.isdigit c && all_digits r
  end.

Definition digits1 (s : string) : bool :=
  match s with
  | EmptyString => false
  | _ => all_digits s
  end.

(** An exponent as [str] prints it: e, an optional sign, digits. *)
Definition exponent (r : string) : bool :=
  match r with
  | String c r1 =>
      Ascii.eqb c "e"
      && digits1 (match r1 with
                  | String g r2 => if Ascii.eqb g "-" || Ascii.eqb g "+" then r2 else r1
                  | EmptyString => r1
                  end)
  | EmptyString => false
  end.

(** The integer digits of a printed float: 0, or digits that do not start
    with 0. *)
Definition int_digits (ip : string) : bool :=
  match ip with
  | EmptyString => false
  | String c r => if Ascii.eqb c "0" then String.eqb r EmptyString else true
  end.

(** The text [str] prints for a finite float: an optional minus sign, the
    integer digits, then a fraction, an exponent, or both. *)
Definition finite_repr (t : string) : bool :=
  let body :=
    match t with
    | String c r => if Ascii.eqb c "-" then r else t
    | EmptyString => t
    end in
  let '(ip, r) := Json.span_digits body in
  int_digits ip
  && match r with
     | String c r1 =>
         if Ascii.eqb c "." then
           let '(fp, r2) := Json.span_digits r1 in
           digits1 fp && (String.eqb r2 EmptyString || exponent r2)
         else exponent r
     | EmptyString => false
     end.

Fixpoint unique_keys (d : list (string * pyval)) : bool :=
  match d with
  | [] => true
  | (k, _) :: r => negb (Dict.has k r) && unique_keys r
  end.

(** The values whose JSON text parses back to them: finite floats, strings
    and keys free of bracket tags, keys that need no escaping and are
    distinct within their map. *)
Fixpoint json_safe (v : pyval) : bool :=
  match v with
  | VNone | VBool _ | VInt _ => true
  | VFloat t => finite_repr t
  | VStr s => tag_free s
  | VList l => forallb json_safe l
  | VDict d =>
      forallb (fun kv => plain_key (fst kv) && tag_free (fst kv) && json_safe (snd kv)) d
      && unique_keys d
  end.

(** A record the decoder takes for a vertex or an edge. *)
Definition graph_record (d : list (string * pyval)) : bool :=
  Dict.has "id" d && Dict.has "properties" d.

Definition no_graph_record (v : pyval) : bool :=
  match v with
  | VDict d => negb (graph_record d)
  | _ => true
  end.

(** The values that round-trip through the cell decoder: as above, where a
    float alone may also be infinite or not a number, and where neither the
    value nor, for a list, one of its elements is a map with both the keys
    id and properties. *)
Definition roundtrip_safe (v : pyval) : bool :=
  match v with
  | VFloat t => finite_repr t || Text.str_in t ["inf"; "-inf"; "nan"]
  | VDict d => json_safe v && negb (graph_record d)
  | VList l => json_safe v && forallb no_graph_record l
  | _ => json_safe v
  end.

(** Every integer of [v] is within the digit limit of the interpreter, so
    that [str] writes it and [int] and [json.loads] read it. *)
Fixpoint ints_within (v : pyval) : bool :=
  match v with
  | VInt z => Limits.int_within z
  | VList l => forallb ints_within l
  | VDict d => forallb (fun kv => ints_within (snd kv)) d
  | _ => true
  end.

(** What the decoder is to return for [v]: a map as it is, any other value
    under the value key. *)
Definition expected (v : pyval) : list (string * pyval) :=
  match v with
  | VDict d => d
  | _ => [("value", v)]
  end.

(** The decoded record is equivalent to [v]: for a map, the same items in
    some order; else [v] under the single key value. *)
Definition equivalent (v : pyval) (decoded : list (string * pyval)) : Prop :=
  match v with
  | VDict d => Permutation d decoded
  | _ => decoded = [("value", v)]
  end.

(** The encoding of one character by [escape_agtype_string]. *)
Definition escape_char (c : ascii) : string :=
  if Ascii.eqb c backslash then String backslash (str1 backslash)
  else if Ascii.eqb c dquote then String backslash (str1 dquote)
  else if Ascii.eqb c newline then String backslash "n"
  else if Ascii.eqb c carriage then String backslash "r"
  else if Ascii.eqb c tab then String backslash "t"
  else if Nat.ltb (Text.ord c) 32 then String backslash (String "u" (hex4 (Text.ord c)))
  else str1 c.

Fixpoint escape_chars (s : string) : string :=
  match s with
  | EmptyString => EmptyString
  | String c r => escape_char c ++ escape_chars r
  end.

(** Fuel that is enough to scan the encoding of [v]. *)
Fixpoint need (v : pyval) : nat :=
  match v with
  | VList l => S (fold_right (fun x acc => S (need x) + acc) 0 l)
  | VDict d => S (fold_right (fun kv acc => S (need (snd kv)) + acc) 0 d)
  | _ => 1
  end.

(** What may follow a value inside a JSON text. *)
Definition follow_ok (rest : string) : bool :=
  match rest with
  | EmptyString => true
  | String c _ => Ascii.eqb c "," || Ascii.eqb c "]" || Ascii.eqb c "}"
  end.

(** Texts that [strip] leaves alone: no whitespace at either end. *)
Definition starts_solid (s : string) : bool :=
  match s with
  | EmptyString => true
  | String c _ => negb (Text.isspace c)
  end.

Fixpoint ends_solid (s : string) : bool :=
  match s with
  | EmptyString => true
  | String c EmptyString => negb (Text.isspace c)
  | String _ r => ends_solid r
  end.

(** No closing bracket or brace at all. *)
Fixpoint closer_free (s : string) : bool :=
  match s with
  | EmptyString => true
  | String c r => negb (is_closer c) && closer_free r
  end.

Fixpoint colon_free (s : string) : bool :=
  match s with
  | EmptyString => true
  | String c r => negb (Ascii.eqb c ":") && colon_free r
  end.

(** The last character is neither a word character nor a newline. *)
Fixpoint ends_hard (s : string) : bool :=
  match s with
  | EmptyString => false
  | String c EmptyString => negb (Text.is_word_char c) && negb (Ascii.eqb c newline)
  | String _ r => ends_hard r
  end.

(** The parts of the text of a finite float. *)
Definition sign_text (neg : bool) : string := if neg then "-" else EmptyString.

Definition frac_text (fp : option string) : string :=
  match fp with
  | Some d => "." ++ d
  | None => EmptyString
  end.

Definition exp_text (e : option (string * string)) : string :=
  match e with
  | Some (sg, ed) => "e" ++ sg ++ ed
  | None => EmptyString
  end.

Definition float_text (neg : bool) (ip : string) (fp : option string)
    (e : option (string * string)) : string :=
  sign_text neg ++ ip ++ frac_text fp ++ exp_text e.

Definition float_parts_ok (ip : string) (fp : option string)
    (e : option (string * string)) : bool :=
  all_digits ip && int_digits ip
  && match fp with Some d => digits1 d | None => true end
  && match e with
     | Some (sg, ed) => Text.str_in sg [EmptyString; "-"; "+"] && digits1 ed
     | None => true
     end
  && match fp, e with None, None => false | _, _ => true end.

(** A character a value can start with. *)
Definition value_start (c : ascii) : bool :=
  Text.isdigit c || Text.str_in (str1 c) ["-"; "n"; "t"; "f"; "["; "{"; str1 dquote].

(** A character a number can start with. *)
Definition number_start (c : ascii) : bool := Text.isdigit c || Ascii.eqb c "-".

(** The text of one item of a map. *)
Definition item_text (kv : string * pyval) : string :=
  quoted (fst kv) ++ ": " ++ to_agtype_value (snd kv).

Definition item_safe (kv : string * pyval) : bool :=
  plain_key (fst kv) && tag_free (fst kv) && json_safe (snd kv).

(** The scanner reads the encoding of [v] back, whatever follows it inside
    a JSON text, when it is given the fuel [need v]. *)
Definition scans_back (v : pyval) : Prop :=
  json_safe v = true ->
  forall rest f,
    follow_ok rest = true -> need v <= f ->
    Json.scan_once f (to_agtype_value v ++ rest) = Some (v, rest).

(** The characters of the text of an integer or of a finite float. *)
Definition number_char (c : ascii) : bool :=
  Text.isdigit c || Text.str_in (str1 c) ["-"; "+"; "."; "e"].

Fixpoint number_text (s : string) : bool :=
  match s with
  | EmptyString => true
  | String c r => number_char c && number_text r
  end.

(** Bracket tags: the encoding of [v] has none, whatever tag-free text
    follows it, when that text does not start like a tag. *)
Definition tags_ok (v : pyval) : Prop :=
  json_safe v = true ->
  forall rest,
    tag_follows rest = false -> tag_free rest = true ->
    tag_free (to_agtype_value v ++ rest) = true.

(** None of the keys of [d] is a key of [acc]. *)
Definition fresh_keys (acc d : list (string * pyval)) : bool :=
  forallb (fun kv => negb (Dict.has (fst kv) acc)) d.

End RoundTrip.

(** Values to run the round trip on. *)
Module ValueScenario.

Definition sample : pyval :=
  VDict [("name", VStr (qq "Ann `A` }:: ]"));
         ("age", VInt (-30));
         ("score", VFloat "1.5e-07");
         ("tags", VList [VStr "x"; VNone; VBool true; VList []; VDict [("id", VInt 7)]]);
         ("address", VDict [])].

(** A map a caller may store as a property value; it has the two keys the
    decoder knows a vertex by. *)
Definition record_like : pyval :=
  VDict [("id", VInt 1); ("properties", VDict [])].

End ValueScenario.

(* ====================================================================== *)
(** * Conditions used to state properties of the code *)
(* ====================================================================== *)

Module Shape.

(** The character [c] does not occur in [s]. *)
Fixpoint no_char (c : ascii) (s : string) : bool :=
  match s with
  | EmptyString => true
  | String x r => negb (Ascii.eqb x c) && no_char c r
  end.

(** [s] is empty or starts with a character that cannot go on a parameter
    name. *)
Definition ends_name (s : string) : bool :=
  match s with
  | EmptyString => true
  | String c _ => negb (Text.is_ident_char c)
  end.

End Shape.

(* ====================================================================== *)
(** * age_orm/utils/serialization.py: the parsers of the bracket format *)
(* ====================================================================== *)

(** The pieces of the two patterns _AGTYPE_VERTEX_RE and _AGTYPE_EDGE_RE
    (both with DOTALL), matched at the head of a text: a run of word
    characters, an identifier of the form digits, dot, digits in square
    brackets, for an edge a second pair of brackets with two identifiers
    and a comma between them, and braces around any text.  Each repetition
    is greedy, and what follows it in the pattern cannot start with a
    character of the repeated class, so the longest run is the only
    candidate; the text in the braces extends to the last closing brace. *)
Module BracketFormat.

(** [\w+]: the longest run of word characters, and the rest. *)
Fixpoint span_word (s : string) : string * string :=
  match s with
  | String c r =>
      if Text.is_word_char c
      then let '(w, rest) := span_word r in (String c w, rest)
      else (EmptyString, s)
  | EmptyString => (EmptyString, EmptyString)
  end.

(** A literal character of the pattern. *)
Definition expect (c : ascii) (s : string) : option string :=
  match s with
  | String x r => if Ascii.eqb x c then Some r else None
  | EmptyString => None
  end.

(** An identifier: digits, a dot, digits; the matched text and the rest. *)
Definition graphid (s : string) : option (string * string) :=
  match Json.span_digits s with
  | (String a0 a, r) =>
      match expect "." r with
      | Some r1 =>
          match Json.span_digits r1 with
          | (String b0 b, r2) => Some (String a0 a ++ "." ++ String b0 b, r2)
          | (EmptyString, _) => None
          end
      | None => None
      end
  | (EmptyString, _) => None
  end.

(** Any text and a closing brace, greedy: the text before the last closing
    brace. *)
Fixpoint before_last_brace (s : string) : option string :=
  match s with
  | EmptyString => None
  | String x r =>
      match before_last_brace r with
      | Some t => Some (String x t)
      | None => if Ascii.eqb x "}" then Some EmptyString else None
      end
  end.

(** The label, the identifier in brackets, and the rest. *)
Definition head (s : string) : option (string * string * string) :=
  match span_word s with
  | (String l0 l, r) =>
      match expect "[" r with
      | Some r1 =>
          match graphid r1 with
          | Some (gid, r2) =>
              match expect "]" r2 with
              | Some r3 => Some (String l0 l, gid, r3)
              | None => None
              end
          | None => None
          end
      | None => None
      end
  | (EmptyString, _) => None
  end.

(** The text in the braces. *)
Definition props (s : string) : option string :=
  match expect "{" s with
  | Some r => before_last_brace r
  | None => None
  end.

(** [_AGTYPE_VERTEX_RE.match(s)]: the groups 1 to 3. *)
Definition match_vertex (s : string) : option (string * string * string) :=
  match head s with
  | Some (label, gid, r) =>
      match props r with
      | Some p => Some (label, gid, p)
      | None => None
      end
  | None => None
  end.

(** [_AGTYPE_EDGE_RE.match(s)]: the groups 1 to 5. *)
Definition match_edge (s : string)
    : option (string * string * string * string * string) :=
  match head s with
  | Some (label, gid, r) =>
      match expect "[" r with
      | Some r1 =>
          match graphid r1 with
          | Some (start_id, r2) =>
              match expect "," r2 with
              | Some r3 =>
                  match graphid r3 with
                  | Some (end_id, r4) =>
                      match expect "]" r4 with
                      | Some r5 =>
                          match props r5 with
                          | Some p => Some (label, gid, start_id, end_id, p)
                          | None => None
                          end
                      | None => None
                      end
                  | None => None
                  end
              | None => None
              end
          | None => None
          end
      | None => None
      end
  | None => None
  end.

End BracketFormat.

(** [json.loads("{" + props_str + "}") if props_str.strip() else {}]; a
    JSONDecodeError is a ValueError. *)
Definition parse_props (props_str : string) : result pyval :=
  match Text.strip props_str with
  | EmptyString => Ok (VDict [])
  | _ =>
      match Json.loads ("{" ++ props_str ++ "}") with
      | Some v => Ok v
      | None => Raise ValueError
      end
  end.

(** [int(graph_id.replace(".", ""))] *)
Definition graphid_number (graph_id : string) : result Z :=
  match Num.py_int (Text.replace "." EmptyString graph_id) with
  | Some z => Ok z
  | None => Raise ValueError
  end.

Definition parse_agtype_vertex (agtype_str : string) : result (list (string * pyval)) :=
  match BracketFormat.match_vertex (Text.strip agtype_str) with
  | None => Raise ValueError
  | Some (label, graph_id, props_str) =>
      match parse_props props_str with
      | Raise e => Raise e
      | Ok props =>
          match graphid_number graph_id with
          | Raise e => Raise e
          | Ok gid =>
              Ok [("label", VStr label); ("graph_id", VInt gid); ("properties", props)]
          end
      end
  end.

Definition parse_agtype_edge (agtype_str : string) : result (list (string * pyval)) :=
  match BracketFormat.match_edge (Text.strip agtype_str) with
  | None => Raise ValueError
  | Some (label, graph_id, start_id, end_id, props_str) =>
      match parse_props props_str with
      | Raise e => Raise e
      | Ok props =>
          match graphid_number graph_id with
          | Raise e => Raise e
          | Ok gid =>
              match graphid_number start_id with
              | Raise e => Raise e
              | Ok sid =>
                  match graphid_number end_id with
                  | Raise e => Raise e
                  | Ok eid =>
                      Ok [("label", VStr label); ("graph_id", VInt gid);
                          ("start_id", VInt sid); ("end_id", VInt eid);
                          ("properties", props)]
                  end
              end
          end
      end
  end.


(* ====================================================================== *)
(** * models/base.py and utils/serialization.py: dumping an instance *)
(* ====================================================================== *)

Module Dump.

(** [AgeModel.model_dump(mode="json")] with the other arguments at their
    defaults: the fields of the class that are not data fields of the
    instance (the relationship slots) are excluded; pydantic returns the
    others in the order of their declaration, with the values the instance
    holds (the values of the model are JSON values already). *)
Definition model_dump (self : Entity) : list (string * pyval) :=
  flat_map
    (fun kf =>
       if Dict.has (fst kf) (_age_fields self) then
         match Dict.get (fst kf) (field_values self) with
         | Some v => [(fst kf, v)]
         | None => []
         end
       else [])
    (model_fields (cls self)).

(** [{k: v for k, v in all_props.items() if k in dirty}] *)
Definition dirty_fields_dump (self : Entity) : list (string * pyval) :=
  List.filter (fun kv => bool_decide (fst kv ∈ _age_dirty self)) (model_dump self).

Definition cypher_map (props : list (string * pyval)) : string :=
  "{" ++ Text.join ", " (map (fun kv => fst kv ++ ": " ++ format_cypher_value (snd kv)) props)
  ++ "}".

(** [model_to_cypher_properties(model, only)]; [only] is a set of names,
    None and the empty set select every field. *)
Definition model_to_cypher_properties (model : Entity) (only : option (gset string)) : string :=
  let props := model_dump model in
  let props :=
    match only with
    | Some names =>
        if bool_decide (names = ∅) then props
        else List.filter (fun kv => bool_decide (fst kv ∈ names)) props
    | None => props
    end in
  cypher_map props.

Definition model_to_agtype (model : Entity) : string :=
  to_agtype_properties (model_dump model).

End Dump.

(* ====================================================================== *)
(** * age_orm/graph.py: schema, creation, update and traversal *)
(* ====================================================================== *)

Module GraphCrud.
Import Graph.

(** The journal line of a statement that is sent with bound parameters:
    the statement, then the parameters. *)
Definition bound (sql : string) (params : list string) : string :=
  sql ++ " % (" ++ Text.join ", " params ++ ")".

(** [f"{entity.label}"] *)
Definition label_text (entity : Entity) : string :=
  match AgeModel.label entity with Some l => l | None => "None" end.

Definition label_lookup (self : Graph) (label : string) : string :=
  bound ("SELECT 1 FROM information_schema.tables "
         ++ "WHERE table_schema = %s AND table_name = %s")
        [_name self; label].

Definition create_label (self : Graph) (label kind : string) : string :=
  if String.eqb kind "v"
  then "SELECT create_vlabel('" ++ _name self ++ "', '" ++ label ++ "')"
  else "SELECT create_elabel('" ++ _name self ++ "', '" ++ label ++ "')".

Definition add_statement (entity : Entity) : string :=
  "CREATE (n:" ++ label_text entity ++ " " ++ Dump.model_to_cypher_properties entity None
  ++ ") RETURN n".

Definition set_parts (props : list (string * pyval)) : string :=
  Text.join ", "
    (map (fun kv => "n." ++ fst kv ++ " = " ++ format_cypher_value (snd kv)) props).

Definition update_statement (entity : Entity) (props : list (string * pyval)) : string :=
  "MATCH (n) WHERE id(n) = " ++ AgeModel.show_id (AgeModel.graph_id entity)
  ++ " SET " ++ set_parts props ++ " RETURN n".

Definition connect_statement (from_v edge to_v : Entity) : string :=
  "MATCH (a), (b) WHERE id(a) = " ++ AgeModel.show_id (AgeModel.graph_id from_v)
  ++ " AND id(b) = " ++ AgeModel.show_id (AgeModel.graph_id to_v) ++ " "
  ++ "CREATE (a)-[e:" ++ label_text edge ++ " "
  ++ Dump.model_to_cypher_properties edge None ++ "]->(b) RETURN e".

(** The arrows of a pattern: [any] clears both, and so does any text that
    is neither [inbound] nor [outbound]. *)
Definition dir_left (direction : string) : string :=
  if String.eqb direction "any" then EmptyString
  else if String.eqb direction "inbound" then "<" else EmptyString.

Definition dir_right (direction : string) : string :=
  if String.eqb direction "any" then EmptyString
  else if String.eqb direction "outbound" then ">" else EmptyString.

Definition traverse_statement (vertex : Entity) (edge_label : string) (depth : Z)
    (direction : string) : string :=
  "MATCH (n)" ++ dir_left direction ++ "-[:" ++ edge_label ++ "*1.."
  ++ Text.str_of_int depth ++ "]-" ++ dir_right direction ++ "(m) "
  ++ "WHERE id(n) = " ++ AgeModel.show_id (AgeModel.graph_id vertex) ++ " RETURN m".

Section Process.

Variable respond : World -> string -> option (list (list cell)).
Variable _registrars : Event.registrars.
Variable _label_registry : list (string * ModelClass).

(** [conn.execute(sql)], the result not read. *)
Definition execute (sql : string) : M unit :=
  let* _ := fetchall respond sql in ret tt.

(** [conn.execute(sql, params).fetchone()] *)
Definition fetchone (sql : string) : M (option (list cell)) :=
  let* rows := fetchall respond sql in
  ret (match rows with row :: _ => Some row | [] => None end).

(** [Graph.ensure_label(model_class, kind)] *)
Definition ensure_label (self : Graph) (model_class : ModelClass) (kind : string) : M unit :=
  let label := label_or_name model_class in
  let* row := fetchone (label_lookup self label) in
  match row with
  | None => execute (create_label self label kind)
  | Some _ => ret tt
  end.

(** The assignments that bind an entity after the database stored it. *)
Definition bind_to (self : Graph) (entity : Entity) : result Entity :=
  let entity := AgeModel.dirty_clear entity in
  match AgeModel.__setattr__ entity "_db" (AgeModel.ADb (Some (_db self))) with
  | Ok entity => AgeModel.__setattr__ entity "_graph" (AgeModel.AGraph (Some self))
  | Raise e => Raise e
  end.

(** [Graph.add]; the result is the entity as the call leaves it. *)
Definition add (self : Graph) (entity : Entity) : M Entity :=
  let* entity := lift (Event.dispatch _registrars entity "pre_add" self) in
  let* _ := ensure_label self (cls entity) "v" in
  let cypher := add_statement entity in
  let* results := _execute_cypher respond self cypher None None "vertex" in
  let* entity :=
    match results with
    | first :: _ =>
        let* entity :=
          lift (AgeModel.__setattr__ entity "_graph_id"
                  (AgeModel.AId (AgeModel.as_id (Dict.get "graph_id" first)))) in
        lift (bind_to self entity)
    | [] => ret entity
    end in
  let* entity := lift (Event.dispatch _registrars entity "post_add" self) in
  ret entity.

(** [Graph.update(entity, only_dirty)] *)
Definition update (self : Graph) (entity : Entity) (only_dirty : bool) : M Entity :=
  match AgeModel.graph_id entity with
  | None => raise EntityNotFoundError
  | Some _ =>
      let* entity := lift (Event.dispatch _registrars entity "pre_update" self) in
      let props :=
        if only_dirty then Dump.dirty_fields_dump entity else Dump.model_dump entity in
      match props with
      | [] => ret entity
      | _ =>
          let cypher := update_statement entity props in
          let* _ := _execute_cypher respond self cypher None None "vertex" in
          let entity := AgeModel.dirty_clear entity in
          let* entity := lift (Event.dispatch _registrars entity "post_update" self) in
          ret entity
      end
  end.

(** [Graph.connect(from_v, edge, to_v)]; the result is the edge. *)
Definition connect (self : Graph) (from_v edge to_v : Entity) : M Entity :=
  match AgeModel.graph_id from_v, AgeModel.graph_id to_v with
  | Some _, Some _ =>
      let* edge := lift (Event.dispatch _registrars edge "pre_add" self) in
      let* _ := ensure_label self (cls edge) "e" in
      let cypher := connect_statement from_v edge to_v in
      let* results := _execute_cypher respond self cypher None None "edge" in
      let* edge :=
        match results with
        | first :: _ =>
            let* edge :=
              lift (AgeModel.__setattr__ edge "_graph_id"
                      (AgeModel.AId (AgeModel.as_id (Dict.get "graph_id" first)))) in
            let* edge :=
              lift (AgeModel.__setattr__ edge "_start_id"
                      (AgeModel.AId (AgeModel.graph_id from_v))) in
            let* edge :=
              lift (AgeModel.__setattr__ edge "_end_id"
                      (AgeModel.AId (AgeModel.graph_id to_v))) in
            lift (bind_to self edge)
        | [] => ret edge
        end in
      let* edge := lift (Event.dispatch _registrars edge "post_add" self) in
      ret edge
  | _, _ => raise EntityNotFoundError
  end.

(** [Graph.traverse(vertex, edge_label, depth, direction, target_class)] *)
Definition traverse (self : Graph) (vertex : Entity) (edge_label : string) (depth : Z)
    (direction : string) (target_class : option ModelClass) : M (list hydrated) :=
  match AgeModel.graph_id vertex with
  | None => raise EntityNotFoundError
  | Some _ =>
      let cypher := traverse_statement vertex edge_label depth direction in
      let* results := _execute_cypher respond self cypher None None "vertex" in
      match target_class with
      | Some c =>
          let* ms := lift (AgeModel.hydrate_all results c (Some (_db self)) (Some self)) in
          ret (map HModel ms)
      | None => lift (GraphOps.hydrate_results _label_registry self results)
      end
  end.

End Process.
End GraphCrud.

(** Instances to run the operations on. *)
Module GraphScenario.
Import Fixtures.

(** Alice as [dict_to_model] returns her for [EntityScenario.alice_record]. *)
Definition alice_loaded : Entity :=
  MkEntity Person
    [("name", VStr "Alice"); ("age", VInt 30); ("email", VNone)]
    [("name", DefaultOther); ("age", DefaultOther); ("email", DefaultOther)]
    [] [] (Some 844424930131969%Z) (Some "Person") (Some db0) (Some g0) [] ∅ None None.

Definition bob_loaded : Entity :=
  MkEntity Person
    [("name", VStr "Bob"); ("age", VInt 25); ("email", VNone)]
    [("name", DefaultOther); ("age", DefaultOther); ("email", DefaultOther)]
    [] [] (Some 844424930131970%Z) (Some "Person") (Some db0) (Some g0) [] ∅ None None.

(** class Knows(Edge): __label__ = "KNOWS"; since: int *)
Definition knows_validate (kw : list (string * pyval)) : option (list (string * pyval)) :=
  match Dict.get "since" kw with
  | Some (VInt y) => Some [("since", VInt y)]
  | _ => None
  end.

Definition Knows : ModelClass :=
  MkModelClass "Knows" (Some "KNOWS") false [("since", DefaultOther)] knows_validate.

(** [Knows(since=2020)] *)
Definition knows_new : Entity :=
  MkEntity Knows [("since", VInt 2020)] [("since", DefaultOther)]
    [] [] None (Some "KNOWS") None None [] (list_to_set ["since"]) None None.

(** class Follows(Edge): __label__ = "FOLLOWS"; start_id: int, a field
    with the name of a read-only property of Edge. *)
Definition follows_validate (kw : list (string * pyval)) : option (list (string * pyval)) :=
  match Dict.get "start_id" kw with
  | Some (VInt y) => Some [("start_id", VInt y)]
  | _ => None
  end.

Definition Follows : ModelClass :=
  MkModelClass "Follows" (Some "FOLLOWS") false [("start_id", DefaultOther)] follows_validate.

(** The same field on a vertex class. *)
Definition Stop : ModelClass :=
  MkModelClass "Stop" (Some "Stop") true [("start_id", DefaultOther)] follows_validate.

Definition knows_row : list cell :=
  [CStr (qq "{`id`: 1125899906842625, `label`: `KNOWS`, `end_id`: 844424930131970, `start_id`: 844424930131969, `properties`: {`since`: 2020}}::edge")].

End GraphScenario.

(* ====================================================================== *)
(** * age_orm/query/builder.py: first, lookups *)
(* ====================================================================== *)

Module QueryMore.
Import Query.

(** [self._limit = value] *)
Definition set_limit (self : Query) (value : option Z) : Query :=
  {| _model_class := _model_class self;
     _graph := _graph self;
     _label := _label self;
     _filters := _filters self;
     _sort_columns := _sort_columns self;
     _limit := value;
     _skip := _skip self;
     _return_fields := _return_fields self;
     _bind_vars := _bind_vars self |}.

(** A chain of [filter] calls without parameters: the condition and the
    [_or] flag of each call, in the order of the calls. *)
Definition filter_all (self : Query) (calls : list (string * bool)) : Query :=
  fold_left (fun q call => Query.filter q (fst call) (snd call) []) calls self.

Definition by_id_statement (self : Query) (graph_id : Z) : string :=
  "MATCH (n:" ++ _label self ++ ") WHERE id(n) = " ++ Text.str_of_int graph_id
  ++ " RETURN n".

Definition by_property_statement (self : Query) (field : string) (value : pyval) : string :=
  "MATCH (n:" ++ _label self ++ ") " ++ "WHERE n." ++ field ++ " = "
  ++ format_cypher_value value ++ " " ++ "RETURN n".

Section Process.

Variable respond : World -> string -> option (list (list cell)).

(** [first()]: the result, and the query as the call leaves it.  The limit
    is put back after [all()] has returned; when [all()] raises, the
    assignment that puts it back is not reached. *)
Definition first (self : Query) (w : World) : result (option Entity) * Query * World :=
  let original_limit := _limit self in
  let self := set_limit self (Some 1%Z) in
  match Query.all respond self w with
  | (Ok results, w') =>
      (Ok (match results with r :: _ => Some r | [] => None end),
       set_limit self original_limit, w')
  | (Raise e, w') => (Raise e, self, w')
  end.

Definition by_id (self : Query) (graph_id : Z) : M (option Entity) :=
  let cypher := by_id_statement self graph_id in
  let* results := Graph._execute_cypher respond (_graph self) cypher None None "vertex" in
  match results with
  | first :: _ =>
      let* m := lift (AgeModel.dict_to_model first (_model_class self)
                        (Some (Graph._db (_graph self))) (Some (_graph self))) in
      ret (Some m)
  | [] => ret None
  end.

Definition by_property (self : Query) (field : string) (value : pyval) : M (option Entity) :=
  let cypher := by_property_statement self field value in
  let* results := Graph._execute_cypher respond (_graph self) cypher None None "vertex" in
  match results with
  | first :: _ =>
      let* m := lift (AgeModel.dict_to_model first (_model_class self)
                        (Some (Graph._db (_graph self))) (Some (_graph self))) in
      ret (Some m)
  | [] => ret None
  end.

End Process.
End QueryMore.

(* ====================================================================== *)
(** * age_orm/event.py: registering handlers *)
(* ====================================================================== *)

Module Listen.
Section Classes.

(** Class objects as dictionary keys: whether two are the same class. *)
Variable same_class : ModelClass -> ModelClass -> bool.

(** [isinstance(target, target_class)], by the class of the target. *)
Variable isinstance : ModelClass -> ModelClass -> bool.

(** [_registrars]: per event, per registered class in the order in which
    the classes were first registered, the handlers in registration
    order. *)
Definition registry : Type := list (string * list (ModelClass * list Event.handler)).

(** [_registrars[event]] *)
Definition by_event (reg : registry) (event : string)
    : list (ModelClass * list Event.handler) :=
  match Dict.get event reg with
  | Some classes => classes
  | None => []
  end.

(** [by_event[target].append(fn)] *)
Fixpoint add_handler (target : ModelClass) (fn : Event.handler)
    (classes : list (ModelClass * list Event.handler))
    : list (ModelClass * list Event.handler) :=
  match classes with
  | [] => [(target, [fn])]
  | (c, fns) :: rest =>
      if same_class target c then (c, fns ++ [fn])%list :: rest
      else (c, fns) :: add_handler target fn rest
  end.

(** [listen(target, event, fn)]; [event] is one name or a list of names. *)
Definition listen (reg : registry) (target : ModelClass) (event : string + list string)
    (fn : Event.handler) : registry :=
  let events := match event with inl ev => [ev] | inr evs => evs end in
  fold_left (fun reg ev => Dict.set ev (add_handler target fn (by_event reg ev)) reg)
    events reg.

(** The registrations as [dispatch] reads them. *)
Definition registrars_of (reg : registry) : Event.registrars :=
  fun event => map (fun cf => (fun tc => isinstance tc (fst cf), snd cf)) (by_event reg event).

Definition dispatch (reg : registry) (target : Entity) (event : string)
    (graph : Graph.Graph) : result Entity :=
  Event.dispatch (registrars_of reg) target event graph.

End Classes.
End Listen.

(* ====================================================================== *)
(** * age_orm/graph.py: bulk insertion of vertices *)
(* ====================================================================== *)

Module Bulk.
Import Graph.







Section Process.

Variable respond : World -> string -> option (list (list cell)).


End Process.
End Bulk.

(* ====================================================================== *)
(** * age_orm/database.py: the catalogue of graphs *)
(* ====================================================================== *)

Module DatabaseOps.

(** exceptions.py: the two errors of the catalogue; [Other] is any of the
    errors above. *)
Inductive error : Type :=
| GraphNotFoundError
| GraphExistsError
| Other (e : exn).

Inductive outcome (A : Type) : Type :=
| Done (a : A)
| Failed (e : error).
Arguments Done {A} a.
Arguments Failed {A} e.

Definition exists_statement (name : string) : string :=
  GraphCrud.bound "SELECT 1 FROM ag_catalog.ag_graph WHERE name = %s" [name].

Definition create_statement (name : string) : string :=
  GraphCrud.bound "SELECT create_graph(%s)" [name].

Definition drop_statement (name : string) (cascade : bool) : string :=
  GraphCrud.bound "SELECT drop_graph(%s, %s)" [name; if cascade then "True" else "False"].

Section Process.

Variable respond : World -> string -> option (list (list cell)).

(** [Database.graph_exists(name)] *)
Definition graph_exists (name : string) : M bool :=
  let* result := GraphCrud.fetchone respond (exists_statement name) in
  ret (match result with Some _ => true | None => false end).

(** [Database.create_graph(name)] *)
Definition create_graph (self : Database) (name : string)
    : World -> outcome Graph.Graph * World :=
  fun w =>
    match graph_exists name w with
    | (Raise e, w) => (Failed (Other e), w)
    | (Ok true, w) => (Failed GraphExistsError, w)
    | (Ok false, w) =>
        match GraphCrud.execute respond (create_statement name) w with
        | (Raise e, w) => (Failed (Other e), w)
        | (Ok _, w) => (Done (Graph.MkGraph name self), w)
        end
    end.

(** [Database.graph(name, create)] *)
Definition graph (self : Database) (name : string) (create : bool)
    : World -> outcome Graph.Graph * World :=
  fun w =>
    let first :=
      if create then
        match graph_exists name w with
        | (Raise e, w) => (Failed (Other e), w)
        | (Ok found, w) => (Done (negb found), w)
        end
      else (Done false, w) in
    match first with
    | (Failed e, w) => (Failed e, w)
    | (Done true, w) => create_graph self name w
    | (Done false, w) =>
        match graph_exists name w with
        | (Raise e, w) => (Failed (Other e), w)
        | (Ok false, w) => (Failed GraphNotFoundError, w)
        | (Ok true, w) => (Done (Graph.MkGraph name self), w)
        end
    end.

(** [Database.drop_graph(name, cascade)] *)
Definition drop_graph (name : string) (cascade : bool) : World -> outcome unit * World :=
  fun w =>
    match graph_exists name w with
    | (Raise e, w) => (Failed (Other e), w)
    | (Ok false, w) => (Failed GraphNotFoundError, w)
    | (Ok true, w) =>
        match GraphCrud.execute respond (drop_statement name cascade) w with
        | (Raise e, w) => (Failed (Other e), w)
        | (Ok _, w) => (Done tt, w)
        end
    end.

End Process.
End DatabaseOps.

(* ====================================================================== *)
(** * Checks of the embedding on concrete inputs *)
(* ====================================================================== *)

Example strip_ex : Text.strip ("  42::int" ++ str1 newline) = "42::int".
Proof. reflexivity. Qed.

Example replace_ex : Text.replace "'" "''" "'a' and 'b'" = "''a'' and ''b''".
Proof. reflexivity. Qed.

Example str_of_int_ex : Text.str_of_int (-120) = "-120" /\ Text.str_of_int 0 = "0".
Proof. split; reflexivity. Qed.

Example escape_agtype_string_ex :
  escape_agtype_string (qq "He said `hello\world`" ++ str1 newline ++ str1 "001"%char)
  = qq "He said \`hello\\world\`\n\u0001".
Proof. reflexivity. Qed.

Example to_agtype_value_ex :
  to_agtype_value (VDict [("key", VStr "val"); ("num", VList [VInt 1; VBool true; VNone])])
  = qq "{`key`: `val`, `num`: [1, true, null]}".
Proof. reflexivity. Qed.

Example format_cypher_value_ex :
  format_cypher_value (VList [VInt 1; VStr "it's"; VDict [("k", VStr "v")]])
  = "[1, 'it\'s', {k: 'v'}]".
Proof. reflexivity. Qed.

Example sorted_by_len_desc_ex :
  sorted_by_len_desc ["b"; "a"; "cc"; "dd"; "e"] = ["cc"; "dd"; "b"; "a"; "e"].
Proof. reflexivity. Qed.

Example substitute_ex_age :
  substitute_cypher_params "$age < $age_max" (Some [("age", VInt 20); ("age_max", VInt 50)])
  = Ok "20 < 50".
Proof. reflexivity. Qed.

Example substitute_ex_backslash :
  substitute_cypher_params "$p" (Some [("p", VStr "a\b")]) = Ok "'a\b'"
  /\ format_cypher_value (VStr "a\b") = "'a\\b'".
Proof. split; reflexivity. Qed.

Example json_loads_ex1 :
  Json.loads (qq " { `a` : [1, -2.5e3, true, null, `x\n\/`] , `a`: {} } ")
  = Some (VDict [("a", VDict [])]).
Proof. vm_compute. reflexivity. Qed.

Example json_loads_ex2 :
  Json.loads (qq "[1, [2, {`k`: `v`}], NaN, -Infinity, -0, 10]")
  = Some (VList [VInt 1; VList [VInt 2; VDict [("k", VStr "v")]];
                 VFloat "nan"; VFloat "-inf"; VInt 0; VInt 10]).
Proof. vm_compute. reflexivity. Qed.

Example json_loads_bad :
  map Json.loads ["01"; "-"; "1.e5"; "[1,]"; qq "{`a`:1,}"; "[inf]"; "[.5]"; "[+1]";
                  "nul"; "[tru]"; qq "`a"; qq "`\x`"; EmptyString; " "; qq "`" ++ str1 tab ++ qq "`"]
  = repeat None 15.
Proof. vm_compute. reflexivity. Qed.

Example py_int_ex :
  map Num.py_int ["1_000"; "+5"; " 5"; "007"; "1__0"; "_1"; "1_"; "0x10"; "-0"; "- 5";
                  EmptyString; "+"; "-12"]
  = [Some 1000%Z; Some 5%Z; Some 5%Z; Some 7%Z; None; None; None; None; Some 0%Z; None;
     None; None; Some (-12)%Z].
Proof. vm_compute. reflexivity. Qed.

Example text_within_ex :
  map Limits.text_within
      ["42::int"; qq "{`a`: `\u00e9`, `b`: [1_0, 2]}"; qq "`\u0100`"; qq "`\ud83d\ude00`"]
  = [true; true; false; false]
  /\ map (Limits.digit_runs_within 3 0) ["123"; "1234"; "1_2_3_4"; "123.456"; "12 3456"]
     = [true; false; false; true; false].
Proof. vm_compute. split; reflexivity. Qed.

Example py_float_ex :
  map (fun t => match Num.py_float t with Some _ => true | None => false end)
      ["1_0.5"; "1e5"; ".5"; "5."; "inf"; "nan"; "Infinity"; "+inf"; "iNf"; "1e"; "e5"; ".";
       "-.5e-3"; "1_0e1_0"; "in f"; "nan(1)"; "0x1p3"; "1.5f"; "infinit"; "-nan"; "1e+";
       "._5"; "5._5"; "5_.5"]
  = [true; true; true; true; true; true; true; true; true; false; false; false;
     true; true; false; false; false; false; false; true; false;
     false; false; false].
Proof. vm_compute. reflexivity. Qed.

Example parse_vertex_ex :
  _parse_agtype_result
    (CStr (qq "{`id`: 844424930131969, `label`: `Person`, `properties`: {`name`: `Alice`}}::vertex"))
    "vertex"
  = [("label", VStr "Person"); ("properties", VDict [("name", VStr "Alice")]);
     ("graph_id", VInt 844424930131969)].
Proof. vm_compute. reflexivity. Qed.

Example parse_scalars_ex :
  map (fun s => _parse_agtype_result (CStr s) "raw")
      ["42"; "42::int"; qq "`text`::text"; "true"; "null"; "1.5::float"; "abc"; "1_0"; "[1, 2]"]
  = [[("value", VInt 42)]; [("value", VInt 42)]; [("value", VStr "text")];
     [("value", VBool true)]; [("value", VNone)]; [("value", VFloat "1.5")];
     [("raw", VStr "abc")]; [("value", VInt 10)]; [("value", VList [VInt 1; VInt 2])]].
Proof. vm_compute. reflexivity. Qed.

Example parse_path_ex :
  _parse_agtype_result
    (CStr (qq "[{`id`: 1, `label`: `A`, `properties`: {}}::vertex, {`id`: 2, `label`: `E`, `start_id`: 1, `end_id`: 3, `properties`: {}}::edge]::path"))
    "raw"
  = [("value", VList [VDict [("label", VStr "A"); ("properties", VDict []); ("graph_id", VInt 1)];
                      VDict [("label", VStr "E"); ("start_id", VInt 1); ("end_id", VInt 3);
                             ("properties", VDict []); ("graph_id", VInt 2)]])].
Proof. vm_compute. reflexivity. Qed.

(* ====================================================================== *)
(** * Facts about strings *)
(* ====================================================================== *)

Lemma append_assoc (a b c : string) : (a ++ b) ++ c = a ++ (b ++ c).
Proof. induction a as [|x a IH]; simpl; [reflexivity | now rewrite IH]. Qed.

Lemma append_nil_r (a : string) : a ++ EmptyString = a.
Proof. induction a as [|x a IH]; simpl; [reflexivity | now rewrite IH]. Qed.

Lemma length_append (a b : string) :
  String.length (a ++ b) = (String.length a + String.length b)%nat.
Proof. induction a as [|x a IH]; simpl; [reflexivity | now rewrite IH]. Qed.

(* ====================================================================== *)
(** * Query builder: the order of the clauses *)
(* ====================================================================== *)


(* ====================================================================== *)
(** * Query execution: one() and delete() *)
(* ====================================================================== *)

(** C5.  [one()] raises EntityNotFoundError when the query yields no
    result, returns the entity when it yields exactly one, and raises
    MultipleResultsError when it yields more than one; the statements sent
    are those of [all()]. *)
Theorem one_zero_one_many :
  forall (respond : World -> string -> option (list (list cell)))
         (q : Query.Query) (w w' : World),
    (Query.all respond q w = (Ok [], w') ->
     Query.one respond q w = (Raise EntityNotFoundError, w'))
    /\ (forall r, Query.all respond q w = (Ok [r], w') ->
                  Query.one respond q w = (Ok r, w'))
    /\ (forall rs, Query.all respond q w = (Ok rs, w') -> (1 < List.length rs)%nat ->
                   Query.one respond q w = (Raise MultipleResultsError, w')).
Proof.
  intros respond q w w'. unfold Query.one, bind.
  repeat split.
  - intros ->. reflexivity.
  - intros r ->. reflexivity.
  - intros rs -> Hlen. destruct rs as [|a [|b rs]]; simpl in Hlen; try lia. reflexivity.
Qed.

Lemma one_zero_one_many_witness :
  Query.one (Fixtures.always []) Scenario.all_persons []
  = (Raise EntityNotFoundError,
     [Scenario.sql_of ("MATCH (n:Person)" ++ Query.nl ++ "RETURN n")])
  /\ (exists r,
        Query.one (Fixtures.always [Fixtures.alice_row]) Scenario.all_persons []
        = (Ok r, [Scenario.sql_of ("MATCH (n:Person)" ++ Query.nl ++ "RETURN n")])
        /\ field_values r = [("name", VStr "Alice"); ("age", VInt 30); ("email", VNone)])
  /\ Query.one (Fixtures.always [Fixtures.alice_row; Fixtures.bob_row]) Scenario.all_persons []
     = (Raise MultipleResultsError,
        [Scenario.sql_of ("MATCH (n:Person)" ++ Query.nl ++ "RETURN n")]).
Proof.
  split; [| split].
  - apply (proj1 (one_zero_one_many (Fixtures.always []) Scenario.all_persons [] _)).
    vm_compute. reflexivity.
  - destruct (Query.all (Fixtures.always [Fixtures.alice_row]) Scenario.all_persons [])
      as [[rs|e] w'] eqn:Hall; vm_compute in Hall; [| discriminate].
    destruct rs as [|r [|r' rs]]; try discriminate.
    exists r. split.
    + injection Hall as Hr Hw. subst w'.
      apply (proj1 (proj2 (one_zero_one_many (Fixtures.always [Fixtures.alice_row])
                             Scenario.all_persons [] _))).
      vm_compute. rewrite Hr. reflexivity.
    + injection Hall as Hr Hw. subst r. reflexivity.
  - eapply (proj2 (proj2 (one_zero_one_many
                            (Fixtures.always [Fixtures.alice_row; Fixtures.bob_row])
                            Scenario.all_persons [] _))).
    + vm_compute. reflexivity.
    + simpl. lia.
Defined.

(** C9.  [delete()] sends the count statement for the current filter
    predicate first and the deletion statement second, and returns the
    count the database gave before the deletion was sent. *)
Theorem delete_counts_before_deleting :
  forall (respond : World -> string -> option (list (list cell)))
         (q : Query.Query) (w : World) (match_where : string)
         (rows1 rows2 : list (list cell)) (parsed1 parsed2 : list (list (string * pyval))),
    let count_sql :=
      Graph.wrap_sql (Query._graph q) (match_where ++ Query.nl ++ "RETURN count(n)")
        "result agtype" in
    let delete_sql :=
      Graph.wrap_sql (Query._graph q) (match_where ++ Query.nl ++ "DETACH DELETE n")
        "result agtype" in
    Query._build_match_where q = Ok match_where ->
    respond w count_sql = Some rows1 ->
    Graph._parse_results rows1 "raw" 1 = Ok parsed1 ->
    respond (w ++ [count_sql])%list delete_sql = Some rows2 ->
    Graph._parse_results rows2 "raw" 1 = Ok parsed2 ->
    Query.count respond q w = (Ok (Query.count_of parsed1), (w ++ [count_sql])%list)
    /\ Query.delete respond q w
       = (Ok (Query.count_of parsed1), (w ++ [count_sql; delete_sql])%list).
Proof.
  intros respond q w mw rows1 rows2 parsed1 parsed2 count_sql delete_sql
    Hmw Hr1 Hp1 Hr2 Hp2.
  assert (Hcount : Query.count respond q w
                   = (Ok (Query.count_of parsed1), (w ++ [count_sql])%list)).
  { unfold Query.count, Graph._execute_cypher, Graph.fetchall, bind, lift, ret.
    rewrite Hmw. cbn [substitute_cypher_params Graph.column_clause Graph.num_columns].
    fold count_sql. rewrite Hr1, Hp1. reflexivity. }
  split; [exact Hcount |].
  unfold Query.delete, bind at 1 2, lift. rewrite Hmw, Hcount.
  unfold Graph._execute_cypher, Graph.fetchall, bind, lift, ret.
  cbn [substitute_cypher_params Graph.column_clause Graph.num_columns].
  fold delete_sql. rewrite Hr2, Hp2. rewrite <- app_assoc. reflexivity.
Qed.

Lemma delete_counts_before_deleting_witness :
  Query.delete Scenario.three_persons Scenario.adults []
  = (Ok (VInt 3),
     [Scenario.sql_of ("MATCH (n:Person)" ++ Query.nl ++ "WHERE n.age > 20" ++ Query.nl
                       ++ "RETURN count(n)");
      Scenario.sql_of ("MATCH (n:Person)" ++ Query.nl ++ "WHERE n.age > 20" ++ Query.nl
                       ++ "DETACH DELETE n")])
  /\ Query.count Scenario.three_persons Scenario.adults
       [Scenario.sql_of ("MATCH (n:Person)" ++ Query.nl ++ "WHERE n.age > 20" ++ Query.nl
                         ++ "DETACH DELETE n")]
     = (Ok (VInt 0),
        [Scenario.sql_of ("MATCH (n:Person)" ++ Query.nl ++ "WHERE n.age > 20" ++ Query.nl
                          ++ "DETACH DELETE n");
         Scenario.sql_of ("MATCH (n:Person)" ++ Query.nl ++ "WHERE n.age > 20" ++ Query.nl
                          ++ "RETURN count(n)")]).
Proof.
  split.
  - exact (proj2 (delete_counts_before_deleting Scenario.three_persons Scenario.adults []
                    ("MATCH (n:Person)" ++ Query.nl ++ "WHERE n.age > 20")
                    [[CStr "3"]] [] [[("value", VInt 3)]] []
                    eq_refl eq_refl eq_refl eq_refl eq_refl)).
  - vm_compute. reflexivity.
Defined.

(* ====================================================================== *)
(** * Entities: the dirty set *)
(* ====================================================================== *)

Lemma split_fields_fst (fs : list (string * FieldInfo)) :
  fst (AgeModel.split_fields fs)
  = List.filter (fun kv => negb (is_relationship (snd kv))) fs.
Proof.
  induction fs as [|[k f] fs IH]; simpl; [reflexivity |].
  destruct (AgeModel.split_fields fs) as [a b]; simpl in *.
  destruct (is_relationship f); simpl; [exact IH | now rewrite IH].
Qed.

Lemma init_dirty (c : ModelClass) (kwargs : AgeModel.Kwargs) (e : Entity) :
  AgeModel.__init__ c kwargs = Ok e ->
  _age_dirty e = match AgeModel.kw_db kwargs with
                 | Some _ => ∅
                 | None => list_to_set (persisted_names c)
                 end.
Proof.
  unfold AgeModel.__init__, persisted_names. intros H.
  destruct (validate c (AgeModel.kw_fields kwargs)); [| discriminate].
  pose proof (split_fields_fst (model_fields c)) as Hs.
  destruct (AgeModel.split_fields (model_fields c)) as [fields refs]; simpl in Hs.
  injection H as <-. simpl. now rewrite Hs.
Qed.

(** Assigning one of the private properties stores the value and leaves the
    rest of the instance alone. *)
Lemma then_set_dirty (r : result Entity) (d : gset string) (e : Entity) :
  AgeModel.then_set r "_dirty" (AgeModel.ADirty d) = Ok e -> _age_dirty e = d.
Proof.
  destruct r as [[c vs fs rs rv gid lbl db gr rel dirty sid eid]|]; [| discriminate].
  simpl. intros H. injection H as <-. reflexivity.
Qed.

Lemma store_internal_keeps_dirty (self : Entity) (slot : string)
    (value : AgeModel.attr_value) (e : Entity) :
  AgeModel.store_internal self slot value = Ok e ->
  String.eqb slot "_age_dirty" = false ->
  _age_dirty e = _age_dirty self.
Proof.
  destruct self as [c vs fs rs rv gid lbl db gr rel dirty sid eid].
  unfold AgeModel.store_internal. intros H Hn.
  destruct value; try discriminate;
    repeat match type of H with
           | (if ?b then _ else _) = _ => destruct b eqn:?
           end;
    try discriminate; try congruence; injection H as <-; reflexivity.
Qed.

Lemma setter_slot_not_dirty (self : Entity) (attr slot : string) :
  AgeModel.setter_slot self attr = Some slot ->
  String.eqb attr "_dirty" = false ->
  String.eqb slot "_age_dirty" = false.
Proof.
  unfold AgeModel.setter_slot. intros H Hn. rewrite Hn in H.
  repeat match type of H with
         | (if ?b then _ else _) = _ =>
             destruct b; [injection H as <-; reflexivity |]
         end.
  discriminate.
Qed.

Lemma then_set_keeps_dirty (r : result Entity) (attr : string) (value : AgeModel.attr_value)
    (e : Entity) :
  Text.startswith "_" attr = true ->
  attr <> "_dirty" -> attr <> "_age_dirty" ->
  AgeModel.then_set r attr value = Ok e ->
  exists e0, r = Ok e0 /\ _age_dirty e = _age_dirty e0.
Proof.
  intros Hp Hn1 Hn2.
  destruct r as [e0|]; [| discriminate]. simpl. intros H. exists e0. split; [reflexivity |].
  apply String.eqb_neq in Hn1, Hn2.
  unfold AgeModel.__setattr__ in H.
  destruct (Text.str_in attr AgeModel._INTERNAL_ATTRS).
  - eapply store_internal_keeps_dirty; eassumption.
  - destruct (AgeModel.super_setattr e0 attr value) as [e1|] eqn:Hs; [| discriminate].
    rewrite Hp in H. simpl in H. injection H as <-.
    unfold AgeModel.super_setattr in Hs.
    destruct (AgeModel.setter_slot e0 attr) as [slot|] eqn:Hslot.
    + eapply store_internal_keeps_dirty; [exact Hs |].
      eapply setter_slot_not_dirty; eassumption.
    + destruct (Text.str_in attr (AgeModel.read_only_properties (cls e0))); [discriminate |].
      rewrite Hp in Hs.
      destruct (String.eqb attr "_start_id" || String.eqb attr "_end_id"); [| discriminate].
      injection Hs as <-. reflexivity.
Qed.

Lemma dict_to_model_clean (data : list (string * pyval)) (c : ModelClass)
    (db : option Database) (graph : option Graph.Graph) (e : Entity) :
  AgeModel.dict_to_model data c db graph = Ok e -> _age_dirty e = ∅.
Proof.
  unfold AgeModel.dict_to_model. intros H.
  destruct (match Dict.get "properties" data with
            | Some (VDict props) => Ok props
            | Some _ => Raise TypeError
            | None => Ok data
            end) as [props|]; [| discriminate].
  assert (Hend : forall r, (if Dict.has "end_id" data
                            then AgeModel.then_set r "_end_id"
                                   (AgeModel.AId (AgeModel.as_id (Dict.get "end_id" data)))
                            else r) = Ok e ->
                           exists e0, r = Ok e0 /\ _age_dirty e = _age_dirty e0).
  { intros r Hr. destruct (Dict.has "end_id" data).
    - eapply (then_set_keeps_dirty r "_end_id");
        [reflexivity | discriminate | discriminate | exact Hr].
    - exists e. split; [exact Hr | reflexivity]. }
  apply Hend in H as (e6 & H & ->). clear Hend.
  assert (Hstart : forall r, (if Dict.has "start_id" data
                              then AgeModel.then_set r "_start_id"
                                     (AgeModel.AId (AgeModel.as_id (Dict.get "start_id" data)))
                              else r) = Ok e6 ->
                             exists e0, r = Ok e0 /\ _age_dirty e6 = _age_dirty e0).
  { intros r Hr. destruct (Dict.has "start_id" data).
    - eapply (then_set_keeps_dirty r "_start_id");
        [reflexivity | discriminate | discriminate | exact Hr].
    - exists e6. split; [exact Hr | reflexivity]. }
  apply Hstart in H as (e5 & H & ->). clear Hstart.
  apply then_set_keeps_dirty in H as (e4 & H & ->); [| reflexivity | discriminate ..].
  apply then_set_keeps_dirty in H as (e3 & H & ->); [| reflexivity | discriminate ..].
  now apply then_set_dirty in H.
Qed.

Lemma startswith_underscore (x : string) :
  Text.startswith "_" x = false -> forall y, String.eqb x (String "_"%char y) = false.
Proof.
  destruct x as [|a x]; [reflexivity |]. unfold Text.startswith. simpl.
  intros H y. destruct (Ascii.eqb a "_") eqn:E; [| reflexivity].
  apply Ascii.eqb_eq in E. subst a. simpl in H. destruct x; discriminate.
Qed.

Lemma dict_get_set {A : Type} (k : string) (v : A) (d : list (string * A)) :
  Dict.get k (Dict.set k v d) = Some v.
Proof.
  induction d as [|[k' v'] d IH]; simpl.
  - now rewrite String.eqb_refl.
  - destruct (String.eqb k k') eqn:E; simpl; rewrite E; [reflexivity | exact IH].
Qed.

Lemma not_internal (item : string) :
  Text.startswith "_" item = false -> Text.str_in item AgeModel._INTERNAL_ATTRS = false.
Proof.
  intros H. unfold Text.str_in, AgeModel._INTERNAL_ATTRS. simpl.
  now rewrite !(startswith_underscore item H).
Qed.

(** C3.  An entity constructed without [_db] starts with its dirty set equal
    to the set of the declared persisted field names; one constructed with
    a [_db], or hydrated by [dict_to_model], starts with an empty dirty set;
    clearing empties the dirty set; and assigning a persisted field whose
    name pydantic accepts and that shadows no read-only property of the
    class (of AgeModel or, on an edge, of Edge) succeeds, stores the value
    and puts the field name in the dirty set. *)
Theorem dirty_set_lifecycle :
  (forall c kwargs e,
      AgeModel.__init__ c kwargs = Ok e -> AgeModel.kw_db kwargs = None ->
      _age_dirty e = list_to_set (persisted_names c))
  /\ (forall c kwargs e db,
         AgeModel.__init__ c kwargs = Ok e -> AgeModel.kw_db kwargs = Some db ->
         _age_dirty e = ∅)
  /\ (forall data c db graph e,
         AgeModel.dict_to_model data c db graph = Ok e -> _age_dirty e = ∅)
  /\ (forall e : Entity, _age_dirty (AgeModel.dirty_clear e) = ∅)
  /\ (forall (e : Entity) x v,
         persisted_field e x = true -> assignable_name (cls e) x = true ->
         exists e', AgeModel.__setattr__ e x (AgeModel.AVal v) = Ok e'
                    /\ x ∈ _age_dirty e'
                    /\ Dict.get x (field_values e') = Some v).
Proof.
  repeat split.
  - intros c kwargs e H Hdb. apply init_dirty in H. now rewrite Hdb in H.
  - intros c kwargs e db H Hdb. apply init_dirty in H. now rewrite Hdb in H.
  - intros. eapply dict_to_model_clean; eassumption.
  - intros [c vs fs rs rv gid lbl db gr rel dirty sid eid]. reflexivity.
  - intros [c vs fs rs rv gid lbl db gr rel dirty sid eid] x v Hp Ha.
    unfold persisted_field in Hp. simpl in Hp.
    apply andb_true_iff in Hp as [Hf Hr]. apply negb_true_iff in Hr.
    unfold assignable_name in Ha.
    apply andb_true_iff in Ha as [Ha Hro]. apply andb_true_iff in Ha as [Hu Hmc].
    apply negb_true_iff in Hu, Hmc, Hro.
    pose proof (startswith_underscore x Hu) as Hne.
    exists (MkEntity c (Dict.set x v vs) fs rs rv gid lbl db gr rel ({[ x ]} ∪ dirty) sid eid).
    split; [| split].
    + unfold AgeModel.__setattr__. rewrite (not_internal x Hu).
      unfold AgeModel.super_setattr, AgeModel.setter_slot.
      rewrite !Hne, !andb_false_r, Hro, Hu.
      cbn [cls model_fields AgeModel.set_field_value _age_refs orb]. rewrite Hf.
      cbn [cls model_fields AgeModel.set_field_value _age_refs orb]. rewrite Hmc, Hf, Hr.
      reflexivity.
    + simpl. set_solver.
    + simpl. apply dict_get_set.
Qed.

Lemma dirty_set_lifecycle_witness :
  (exists alice,
      AgeModel.__init__ Fixtures.Person EntityScenario.alice_kwargs = Ok alice
      /\ _age_dirty alice = list_to_set ["name"; "age"; "email"])
  /\ (exists loaded,
         AgeModel.__init__ Fixtures.Person EntityScenario.loaded_kwargs = Ok loaded
         /\ _age_dirty loaded = ∅
         /\ _age_dirty (AgeModel.dirty_clear loaded) = ∅
         /\ exists changed,
             AgeModel.__setattr__ loaded "name" (AgeModel.AVal (VStr "Changed")) = Ok changed
             /\ "name" ∈ _age_dirty changed
             /\ Dict.get "name" (field_values changed) = Some (VStr "Changed"))
  /\ (exists hydrated,
         AgeModel.dict_to_model EntityScenario.alice_record Fixtures.Person
           (Some Fixtures.db0) (Some Fixtures.g0) = Ok hydrated
         /\ _age_dirty hydrated = ∅).
Proof.
  destruct dirty_set_lifecycle as (H1 & H2 & H3 & H4 & H5).
  split; [| split].
  - eexists. split; [reflexivity |].
    apply (H1 Fixtures.Person EntityScenario.alice_kwargs); reflexivity.
  - eexists. split; [reflexivity |]. split; [| split].
    + apply (H2 Fixtures.Person EntityScenario.loaded_kwargs _ Fixtures.db0); reflexivity.
    + apply H4.
    + apply H5; reflexivity.
  - eexists. split; [reflexivity |].
    apply (H3 EntityScenario.alice_record Fixtures.Person (Some Fixtures.db0)
             (Some Fixtures.g0)).
    reflexivity.
Defined.

(* ====================================================================== *)
(** * Entities: lazy relationships and deletion *)
(* ====================================================================== *)



(** C6, as the code has it.  On a declared relationship slot (whose name
    starts neither with an underscore nor with [model_]): when no value is
    cached for the slot and the entity has no database or no graph, the
    access raises DetachedInstanceError and sends nothing; when a value is
    cached, the access returns it, whatever the binding. *)
Theorem relationship_access_detached :
  forall (respond : World -> string -> option (list (list cell)))
         (locate : string -> option ModelClass) (e : Entity) (item : string) (w : World),
    Dict.has item (_age_refs e) = true ->
    Text.startswith "_" item = false ->
    Text.startswith "model_" item = false ->
    (Dict.get item (_age_refs_vals e) = None ->
     _age_db e = None \/ _age_graph e = None ->
     AgeModel.__getattribute__ respond locate e item w = (Raise DetachedInstanceError, w))
    /\ (forall cached,
           Dict.get item (_age_refs_vals e) = Some cached ->
           AgeModel.__getattribute__ respond locate e item w
           = (Ok (AgeModel.ARel cached, e), w)).
Proof.
  intros respond locate e item w Href Hu Hm.
  unfold AgeModel.__getattribute__. rewrite (not_internal item Hu), Hu, Hm. simpl.
  unfold Dict.has in Href. destruct (Dict.get item (_age_refs e)) as [finfo|]; [| discriminate].
  split.
  - intros -> Hnone. destruct (_age_db e), (_age_graph e); try reflexivity.
    destruct Hnone; discriminate.
  - intros cached ->. reflexivity.
Qed.

Lemma relationship_access_detached_witness :
  (exists p,
      AgeModel.__init__ Fixtures.PersonWithRels
        (AgeModel.only_fields [("name", VStr "Test"); ("age", VInt 25)]) = Ok p
      /\ AgeModel.__getattribute__ (Fixtures.always []) Fixtures.locate p "friends" []
         = (Raise DetachedInstanceError, []))
  /\ (exists p,
         _age_db p = None /\ _age_graph p = None
         /\ AgeModel.__getattribute__ (Fixtures.always []) Fixtures.locate p "friends" []
            = (Ok (AgeModel.ARel (RelMany []), p), [])).
Proof.
  split.
  - eexists. split; [reflexivity |].
    apply relationship_access_detached; try reflexivity. left. reflexivity.
  - exists (MkEntity Fixtures.PersonWithRels [("name", VStr "Test"); ("age", VInt 25)]
              [("name", DefaultOther); ("age", DefaultOther)]
              [("friends", DefaultRelationship Fixtures.friends_rel);
               ("employer", DefaultRelationship Fixtures.employer_rel)]
              [("friends", RelMany [])] None (Some "PersonRel") None None [] ∅ None None).
    split; [reflexivity |]. split; [reflexivity |].
    apply relationship_access_detached; reflexivity.
Defined.

(** C6 as stated fails: a person is loaded, its friends are read (and
    cached), the person is deleted, which clears its database and graph;
    the next read of friends returns the cached list instead of raising. *)
Lemma relationship_access_detached_counterexample :
  exists p p1 p2 w1 w2,
    AgeModel.dict_to_model EntityScenario.rel_person_record Fixtures.PersonWithRels
      (Some Fixtures.db0) (Some Fixtures.g0) = Ok p
    /\ AgeModel.__getattribute__ (Fixtures.always []) Fixtures.locate p "friends" []
       = (Ok (AgeModel.ARel (RelMany []), p1), w1)
    /\ GraphOps.delete (Fixtures.always []) Fixtures.no_handlers Fixtures.g0 p1 w1
       = (Ok p2, w2)
    /\ _age_db p2 = None /\ _age_graph p2 = None
    /\ Dict.has "friends" (_age_refs p2) = true
    /\ AgeModel.__getattribute__ (Fixtures.always []) Fixtures.locate p2 "friends" w2
       = (Ok (AgeModel.ARel (RelMany []), p2), w2)
    /\ fst (AgeModel.__getattribute__ (Fixtures.always []) Fixtures.locate p2 "friends" w2)
       <> Raise DetachedInstanceError.
Proof.
  do 5 eexists.
  split; [reflexivity |]. split; [vm_compute; reflexivity |].
  split; [vm_compute; reflexivity |].
  split; [reflexivity |]. split; [reflexivity |]. split; [reflexivity |].
  split; [vm_compute; reflexivity |].
  vm_compute. discriminate.
Qed.

Lemma dispatch_observers (regs : Event.registrars) (e : Entity) (event : string)
    (g : Graph.Graph) :
  observers_only regs -> Event.dispatch regs e event g = Ok e.
Proof.
  intros Hq. unfold Event.dispatch.
  assert (Hrun : forall fns, (forall fn, In fn fns -> forall t ev gr, fn t ev gr = Ok t) ->
                             Event.run_handlers fns e event g = Ok e).
  { induction fns as [|fn fns IH]; intros Hf; simpl; [reflexivity |].
    rewrite (Hf fn (or_introl eq_refl)). apply IH. intros fn' Hin. apply Hf. now right. }
  specialize (Hq event).
  induction (regs event) as [|[isinstance fns] rest IH]; simpl; [reflexivity |].
  assert (Hrest : Event.dispatch_classes rest e event g = Ok e).
  { apply IH. intros i f fn Hin. apply (Hq i f fn). now right. }
  destruct (isinstance (cls e)); [| exact Hrest].
  rewrite Hrun; [exact Hrest |].
  intros fn Hin. apply (Hq isinstance fns fn); [now left | exact Hin].
Qed.

(** C10.  When the handlers only observe and the database runs the
    deletion statement, [Graph.delete] on a persisted entity returns with
    the identity, the database and the graph of the entity set to None and
    with everything else as it was: the class, the field values, the dirty
    set, the cached relationship values, the relations, the label and the
    endpoints. *)
Theorem graph_delete_frame :
  forall (respond : World -> string -> option (list (list cell)))
         (regs : Event.registrars) (g : Graph.Graph) (e : Entity) (w : World)
         (gid : Z) (rows : list (list cell)) (parsed : list (list (string * pyval))),
    observers_only regs ->
    AgeModel.graph_id e = Some gid ->
    respond w (Graph.wrap_sql g (GraphOps.delete_statement e) "result agtype") = Some rows ->
    Graph._parse_results rows "raw" 1 = Ok parsed ->
    exists e',
      GraphOps.delete respond regs g e w
      = (Ok e', (w ++ [Graph.wrap_sql g (GraphOps.delete_statement e) "result agtype"])%list)
      /\ _age_graph_id e' = None /\ _age_db e' = None /\ _age_graph e' = None
      /\ cls e' = cls e
      /\ field_values e' = field_values e
      /\ _age_dirty e' = _age_dirty e
      /\ _age_refs_vals e' = _age_refs_vals e
      /\ _age_relations e' = _age_relations e
      /\ _age_fields e' = _age_fields e /\ _age_refs e' = _age_refs e
      /\ _age_label e' = _age_label e
      /\ _age_start_id e' = _age_start_id e /\ _age_end_id e' = _age_end_id e.
Proof.
  intros respond regs g e w gid rows parsed Hq Hid Hr Hp.
  destruct e as [c vs fs rs rv gi lbl db gr rel dirty sid eid].
  exists (MkEntity c vs fs rs rv None lbl None None rel dirty sid eid).
  split; [| repeat split].
  unfold GraphOps.delete. rewrite Hid.
  unfold bind at 1, lift at 1. rewrite (dispatch_observers regs _ _ g Hq).
  unfold bind at 1. unfold Graph._execute_cypher, Graph.fetchall, bind at 1 2 3, lift at 1 2.
  cbn [substitute_cypher_params Graph.column_clause Graph.num_columns].
  rewrite Hr, Hp.
  unfold bind, lift, ret. simpl.
  rewrite (dispatch_observers regs _ _ g Hq). reflexivity.
Qed.

Lemma graph_delete_frame_witness :
  exists alice e',
    AgeModel.dict_to_model EntityScenario.alice_record Fixtures.Person
      (Some Fixtures.db0) (Some Fixtures.g0) = Ok alice
    /\ GraphOps.delete (Fixtures.always []) Fixtures.no_handlers Fixtures.g0 alice []
       = (Ok e',
          [Scenario.sql_of "MATCH (n) WHERE id(n) = 844424930131969 DETACH DELETE n"])
    /\ _age_graph_id e' = None /\ _age_db e' = None /\ _age_graph e' = None
    /\ field_values e' = [("name", VStr "Alice"); ("age", VInt 30); ("email", VNone)]
    /\ _age_dirty e' = _age_dirty alice
    /\ _age_refs_vals e' = _age_refs_vals alice.
Proof.
  eexists.
  destruct (graph_delete_frame (Fixtures.always []) Fixtures.no_handlers Fixtures.g0
              (MkEntity Fixtures.Person
                 [("name", VStr "Alice"); ("age", VInt 30); ("email", VNone)]
                 [("name", DefaultOther); ("age", DefaultOther); ("email", DefaultOther)]
                 [] [] (Some 844424930131969%Z) (Some "Person") (Some Fixtures.db0)
                 (Some Fixtures.g0) [] ∅ None None)
              [] 844424930131969%Z [] [])
    as (e' & Hdel & Hid & Hdb & Hgr & _ & Hvals & Hdirty & Hrv & _).
  - intros event isinstance fns fn Hin. destruct Hin.
  - reflexivity.
  - reflexivity.
  - reflexivity.
  - exists e'. split; [reflexivity |]. split; [exact Hdel |].
    repeat split; assumption.
Defined.

(* ====================================================================== *)
(** * Raw Cypher: the rows returned for named columns *)
(* ====================================================================== *)

(** C8 (the code departs from the claim).  [Graph.cypher] called with the
    column names word and count on a row whose cells decode to
    [{value: "w1"}] and [{value: 5}] returns the row under the positional
    keys, with the wrappers in place; it does not return
    [{word: "w1", count: 5}]. *)
Theorem cypher_keeps_positional_keys :
  GraphOps.cypher (Fixtures.always [[CStr (qq "`w1`"); CStr "5"]]) Fixtures.registry
    Fixtures.g0 "MATCH (w:Word) RETURN w.word, w.count" (Some ["word"; "count"]) "raw" [] []
  = (Ok [HRow [("col_0", HValue (VDict [("value", VStr "w1")]));
               ("col_1", HValue (VDict [("value", VInt 5)]))]],
     [Graph.wrap_sql Fixtures.g0 "MATCH (w:Word) RETURN w.word, w.count"
        "word agtype, count agtype"])
  /\ [HRow [("col_0", HValue (VDict [("value", VStr "w1")]));
            ("col_1", HValue (VDict [("value", VInt 5)]))]]
     <> [HRow [("word", HValue (VStr "w1")); ("count", HValue (VInt 5))]].
Proof.
  split; [vm_compute; reflexivity | discriminate].
Qed.

(* ====================================================================== *)
(** * Bind variables *)
(* ====================================================================== *)

(** C1 (the code departs from the claim).  The placeholder of a string that
    holds a backslash is not replaced by the query literal of the string:
    the literal of [C:\new] doubles the backslash, the text substituted for
    [$p] has it single again. *)
Theorem substitute_undoes_backslash_escape :
  substitute_cypher_params "n.path = $p" (Some [("p", VStr "C:\new")])
  = Ok "n.path = 'C:\new'"
  /\ format_cypher_value (VStr "C:\new") = "'C:\\new'"
  /\ substitute_cypher_params "n.path = $p" (Some [("p", VStr "C:\new")])
     <> Ok ("n.path = " ++ format_cypher_value (VStr "C:\new")).
Proof.
  split; [reflexivity |]. split; [reflexivity |]. vm_compute. discriminate.
Qed.

(** The parts of C1 that hold: the worked example, and the order of the keys. *)
Lemma substitute_age_example :
  substitute_cypher_params "$age < $age_max" (Some [("age", VInt 20); ("age_max", VInt 50)])
  = Ok "20 < 50"
  /\ substitute_cypher_params "$age < $age_max" (Some [("age_max", VInt 50); ("age", VInt 20)])
     = Ok "20 < 50".
Proof. split; reflexivity. Qed.

Lemma insert_by_len_sorted (k : string) (l : list string) :
  StronglySorted (fun a b => String.length b <= String.length a)%nat l ->
  StronglySorted (fun a b => String.length b <= String.length a)%nat (insert_by_len k l).
Proof.
  induction 1 as [|h t Hs IH Hall]; simpl.
  - repeat constructor.
  - destruct (Nat.leb (String.length h) (String.length k)) eqn:E.
    + apply Nat.leb_le in E. constructor; [constructor; assumption |].
      constructor; [exact E |].
      apply List.Forall_forall. intros a Ha.
      rewrite List.Forall_forall in Hall. specialize (Hall a Ha). simpl in Hall. lia.
    + apply Nat.leb_gt in E. constructor; [exact IH |].
      assert (Hin : forall x, In x (insert_by_len k t) -> x = k \/ In x t).
      { clear. induction t as [|a t IHt]; simpl; intros x Hx.
        - destruct Hx as [<-|[]]. now left.
        - destruct (Nat.leb (String.length a) (String.length k)); simpl in Hx.
          + destruct Hx as [<-|Hx]; [now left | now right].
          + destruct Hx as [<-|Hx]; [right; now left |].
            destruct (IHt x Hx) as [->|Hin]; [now left | right; now right]. }
      apply List.Forall_forall. intros x Hx. destruct (Hin x Hx) as [->|Hx'].
      * lia.
      * rewrite List.Forall_forall in Hall. now apply Hall.
Qed.

(** The keys are processed longest first. *)
Lemma sorted_by_len_desc_sorted (keys : list string) :
  StronglySorted (fun a b => String.length b <= String.length a)%nat
    (sorted_by_len_desc keys).
Proof.
  induction keys as [|k keys IH]; simpl; [constructor |].
  now apply insert_by_len_sorted.
Qed.

(* ====================================================================== *)
(** * The decoder of result cells *)
(* ====================================================================== *)

Lemma drop_tag_word (tag b : string) :
  all_word tag = true ->
  strip_bracket_tags_from 0 true (tag ++ b) = strip_bracket_tags_from 0 true b.
Proof.
  induction tag as [|c tag IH]; simpl; [reflexivity |].
  intros H. apply andb_true_iff in H as [Hc Ht]. rewrite Hc. now apply IH.
Qed.

Lemma in_tag_stops (b : string) :
  word_stops b = true ->
  strip_bracket_tags_from 0 true b = strip_bracket_tags_from 0 false b.
Proof.
  destruct b as [|c b]; simpl; [reflexivity |].
  intros H. apply negb_true_iff in H. now rewrite H.
Qed.

Lemma strip_from_scan (in_tag : bool) (c : ascii) (r : string) :
  strip_bracket_tags_from 0 in_tag (String c r)
  = if in_tag && Text.is_word_char c then strip_bracket_tags_from 0 true r
    else if is_closer c && tag_follows r
         then String c (strip_bracket_tags_from 2 true r)
         else String c (strip_bracket_tags_from 0 false r).
Proof. reflexivity. Qed.

Lemma strip_from_skip (k : nat) (in_tag : bool) (c : ascii) (r : string) :
  strip_bracket_tags_from (S k) in_tag (String c r) = strip_bracket_tags_from k in_tag r.
Proof. reflexivity. Qed.

Lemma tag_follows_tag (w : ascii) (r : string) :
  tag_follows (String ":" (String ":" (String w r))) = Text.is_word_char w.
Proof. reflexivity. Qed.

(** A tag after a closing bracket or brace is removed, wherever it is. *)
Lemma strip_bracket_tags_tag (c : ascii) (tag b : string) :
  is_closer c = true -> is_tag tag = true -> word_stops b = true ->
  strip_bracket_tags (String c ("::" ++ tag ++ b)) = String c (strip_bracket_tags b).
Proof.
  intros Hc Ht Hb. unfold strip_bracket_tags.
  destruct tag as [|w tag]; [discriminate |]. simpl in Ht.
  apply andb_true_iff in Ht as [Hw Ht].
  change ("::" ++ String w tag ++ b) with (String ":" (String ":" (String w (tag ++ b)))).
  rewrite strip_from_scan, tag_follows_tag, Hc, Hw. cbn [andb].
  rewrite !strip_from_skip, strip_from_scan, Hw. cbn [andb].
  rewrite (drop_tag_word tag b Ht). f_equal. now apply in_tag_stops.
Qed.

(** Any other character is kept. *)
Lemma strip_bracket_tags_other (c : ascii) (r : string) :
  is_closer c && tag_follows r = false ->
  strip_bracket_tags (String c r) = String c (strip_bracket_tags r).
Proof.
  intros H. unfold strip_bracket_tags. cbn -[tag_follows is_closer]. now rewrite H.
Qed.

Lemma word_to_end_tag (tag : string) : all_word tag = true -> word_to_end tag = Some EmptyString.
Proof.
  induction tag as [|c tag IH]; simpl; [reflexivity |].
  intros H. apply andb_true_iff in H as [Hc Ht]. rewrite Hc. now apply IH.
Qed.

Lemma word_to_end_before_tag (a tag : string) : word_to_end (a ++ "::" ++ tag) = None.
Proof.
  induction a as [|c a IH]; [reflexivity |].
  cbn -[Text.is_word_char]. destruct (Text.is_word_char c); [exact IH |].
  destruct (Ascii.eqb c newline); [| reflexivity].
  destruct a; reflexivity.
Qed.

(** One tag at the end of the text is removed. *)
Lemma strip_trailing_tag_end (a tag : string) :
  is_tag tag = true -> strip_trailing_tag (a ++ "::" ++ tag) = a.
Proof.
  intros Ht. destruct tag as [|w tag]; [discriminate |]. simpl in Ht.
  apply andb_true_iff in Ht as [Hw Ht].
  induction a as [|x a IH].
  - cbn -[Text.is_word_char]. rewrite Hw. cbn -[Text.is_word_char].
    now rewrite (word_to_end_tag tag Ht).
  - assert (Hno : trailing_tag_at (String x (a ++ "::" ++ String w tag)) = None).
    { destruct a as [|y [|z a]].
      - cbn -[Text.is_word_char]. now rewrite andb_false_r.
      - cbn -[Text.is_word_char]. now rewrite andb_false_r.
      - cbn -[Text.is_word_char word_to_end].
        change (String ":" (String ":" (String w tag))) with ("::" ++ String w tag).
        rewrite word_to_end_before_tag.
        destruct (_ && _); reflexivity. }
    change (String x a ++ "::" ++ String w tag) with (String x (a ++ "::" ++ String w tag)).
    cbn -[trailing_tag_at append]. rewrite Hno. now rewrite IH.
Qed.




(* ====================================================================== *)
(** * The round trip through the decoder *)
(* ====================================================================== *)

(** ** Escaping is character by character *)

Lemma replace_char_cons (o : ascii) (new : string) (c : ascii) (r : string) :
  Text.replace (str1 o) new (String c r)
  = (if Ascii.eqb c o then new else str1 c) ++ Text.replace (str1 o) new r.
Proof.
  unfold Text.replace, str1. cbn [Text.replace_from String.prefix String.length Nat.sub].
  destruct (ascii_dec o c) as [->|Hne].
  - rewrite Ascii.eqb_refl. destruct r; reflexivity.
  - assert (E : Ascii.eqb c o = false) by (apply Ascii.eqb_neq; congruence).
    rewrite E. reflexivity.
Qed.

Lemma replace_char_app (o : ascii) (new a b : string) :
  Text.replace (str1 o) new (a ++ b)
  = Text.replace (str1 o) new a ++ Text.replace (str1 o) new b.
Proof.
  induction a as [|c a IH].
  - reflexivity.
  - change (String c a ++ b) with (String c (a ++ b)).
    rewrite !replace_char_cons, IH, append_assoc. reflexivity.
Qed.

Lemma escape_control_app (a b : string) :
  escape_control (a ++ b) = escape_control a ++ escape_control b.
Proof.
  induction a as [|c a IH]; [reflexivity |].
  change (String c a ++ b) with (String c (a ++ b)).
  cbn [escape_control]. rewrite IH.
  destruct (_ && _); [rewrite append_assoc |]; reflexivity.
Qed.

Lemma escape_one (c : ascii) :
  escape_agtype_string (str1 c) = RoundTrip.escape_char c.
Proof.
  destruct c as [[] [] [] [] [] [] [] []]; reflexivity.
Qed.

Lemma escape_agtype_string_cons (c : ascii) (r : string) :
  escape_agtype_string (String c r) = RoundTrip.escape_char c ++ escape_agtype_string r.
Proof.
  rewrite <- escape_one. unfold escape_agtype_string.
  change (String c r) with (str1 c ++ r).
  now rewrite !replace_char_app, escape_control_app.
Qed.

Lemma escape_agtype_string_chars (s : string) :
  escape_agtype_string s = RoundTrip.escape_chars s.
Proof.
  induction s as [|c s IH]; [reflexivity |].
  rewrite escape_agtype_string_cons, IH. reflexivity.
Qed.

(** ** What scanstring reads back *)

Lemma scanstring_escape_char (c : ascii) (r : string) :
  Json.scanstring (RoundTrip.escape_char c ++ r) = Json.push c (Json.scanstring r).
Proof.
  destruct c as [[] [] [] [] [] [] [] []]; reflexivity.
Qed.

Lemma scanstring_escaped (s rest : string) :
  Json.scanstring (RoundTrip.escape_chars s ++ String dquote rest) = Some (s, rest).
Proof.
  induction s as [|c s IH]; [reflexivity |].
  cbn [RoundTrip.escape_chars]. rewrite append_assoc, scanstring_escape_char, IH.
  reflexivity.
Qed.

Lemma scanstring_plain (k rest : string) :
  RoundTrip.plain_key k = true ->
  Json.scanstring (k ++ String dquote rest) = Some (k, rest).
Proof.
  induction k as [|c k IH]; [reflexivity |].
  cbn [RoundTrip.plain_key]. intros H. apply andb_true_iff in H as [Hc Hk].
  unfold RoundTrip.plain_char in Hc.
  apply andb_true_iff in Hc as [Hc H3]. apply andb_true_iff in Hc as [H1 H2].
  apply negb_true_iff in H1, H2, H3.
  change (String c k ++ String dquote rest) with (String c (k ++ String dquote rest)).
  cbn [Json.scanstring]. rewrite H1, H2, H3, (IH Hk). reflexivity.
Qed.

(** ** Integers *)

Lemma follow_ok_head (rest : string) :
  RoundTrip.follow_ok rest = true ->
  rest = EmptyString
  \/ exists c r, rest = String c r /\ (c = ","%char \/ c = "]"%char \/ c = "}"%char).
Proof.
  destruct rest as [|c r]; [now left |]. intros H. right. exists c, r. split; [reflexivity |].
  unfold RoundTrip.follow_ok in H.
  apply orb_true_iff in H as [H|H]; [apply orb_true_iff in H as [H|H] |];
    apply Ascii.eqb_eq in H; auto.
Qed.

Ltac follow_cases H :=
  apply follow_ok_head in H as [-> | (?c & ?r & -> & [-> | [-> | ->]])].

Lemma follow_ok_number_ends (rest : string) :
  RoundTrip.follow_ok rest = true ->
  Json.span_digits rest = (EmptyString, rest)
  /\ Json.scan_frac rest = (EmptyString, rest)
  /\ Json.scan_exp rest = (EmptyString, rest).
Proof. intros H. follow_cases H; repeat split; reflexivity. Qed.

Lemma span_digits_all (ds rest : string) :
  RoundTrip.all_digits ds = true ->
  Json.span_digits rest = (EmptyString, rest) ->
  Json.span_digits (ds ++ rest) = (ds, rest).
Proof.
  intros Hd Hr. induction ds as [|c ds IH]; [exact Hr |].
  cbn [RoundTrip.all_digits] in Hd. apply andb_true_iff in Hd as [Hc Hd].
  change (String c ds ++ rest) with (String c (ds ++ rest)).
  cbn [Json.span_digits]. rewrite Hc, (IH Hd). reflexivity.
Qed.

Lemma string_of_uint_digits (u : Decimal.uint) :
  RoundTrip.all_digits (NilEmpty.string_of_uint u) = true.
Proof. induction u; simpl; auto. Qed.

Lemma to_uint_head (p : positive) :
  exists c r, NilEmpty.string_of_uint (Pos.to_uint p) = String c r
              /\ Text.isdigit c = true /\ Ascii.eqb c "0" = false.
Proof.
  pose proof (DecimalPos.Unsigned.to_of (Pos.to_uint p)) as Hn.
  rewrite DecimalPos.Unsigned.of_to in Hn. simpl in Hn.
  pose proof (DecimalPos.Unsigned.to_uint_nonzero p) as Hz.
  destruct (Pos.to_uint p) as [|u|u|u|u|u|u|u|u|u|u] eqn:E;
    try (eexists; eexists; split; [reflexivity | split; reflexivity]).
  - exfalso. now apply (DecimalPos.Unsigned.to_uint_nonnil p).
  - exfalso. rewrite DecimalFacts.unorm_D0 in Hn.
    destruct (Decimal.uint_eq_dec u Decimal.Nil) as [->|Hu].
    + now apply Hz.
    + pose proof (DecimalFacts.nb_digits_unorm u Hu) as Hl.
      rewrite <- Hn in Hl. simpl in Hl. lia.
Qed.

Lemma int_of_digits_uint (u : Decimal.uint) :
  Json.int_of_digits (NilEmpty.string_of_uint u) = Z.of_uint u.
Proof. unfold Json.int_of_digits. now rewrite NilEmpty.usu. Qed.

Lemma of_uint_to_uint (p : positive) : Z.of_uint (Pos.to_uint p) = Zpos p.
Proof. unfold Z.of_uint. now rewrite DecimalPos.Unsigned.of_to. Qed.

(** The text of an integer: an optional minus sign and its digits. *)
Lemma str_of_int_shape (z : Z) :
  exists (neg : bool) (ds : string),
    Text.str_of_int z = (if neg then "-" else EmptyString) ++ ds
    /\ RoundTrip.all_digits ds = true
    /\ RoundTrip.int_digits ds = true
    /\ (if neg then - Json.int_of_digits ds else Json.int_of_digits ds)%Z = z.
Proof.
  unfold Text.str_of_int. destruct z as [|p|p].
  - exists false, "0". repeat split; reflexivity.
  - exists false, (NilEmpty.string_of_uint (Pos.to_uint p)).
    destruct (to_uint_head p) as (c & r & E & Hc & H0).
    simpl. unfold NilZero.string_of_uint.
    destruct (Pos.to_uint p) eqn:Ep;
      try (exfalso; now apply (DecimalPos.Unsigned.to_uint_nonnil p));
      (split; [reflexivity |]); rewrite <- Ep; rewrite <- Ep in E;
      (split; [apply string_of_uint_digits |]);
      (split; [rewrite E; unfold RoundTrip.int_digits; now rewrite H0 |]);
      rewrite int_of_digits_uint; apply of_uint_to_uint.
  - exists true, (NilEmpty.string_of_uint (Pos.to_uint p)).
    destruct (to_uint_head p) as (c & r & E & Hc & H0).
    simpl. unfold NilZero.string_of_uint.
    destruct (Pos.to_uint p) eqn:Ep;
      try (exfalso; now apply (DecimalPos.Unsigned.to_uint_nonnil p));
      (split; [reflexivity |]); rewrite <- Ep; rewrite <- Ep in E;
      (split; [apply string_of_uint_digits |]);
      (split; [rewrite E; unfold RoundTrip.int_digits; now rewrite H0 |]);
      rewrite int_of_digits_uint, of_uint_to_uint; reflexivity.
Qed.

Lemma int_digits_head (ds : string) :
  RoundTrip.all_digits ds = true -> RoundTrip.int_digits ds = true ->
  exists c r, ds = String c r /\ Text.isdigit c = true
              /\ (Ascii.eqb c "0" = true -> r = EmptyString).
Proof.
  destruct ds as [|c r]; [discriminate |]. cbn. intros Hd Hi.
  apply andb_true_iff in Hd as [Hc Hr]. exists c, r. repeat split; [exact Hc |].
  intros H0. rewrite H0 in Hi. now apply String.eqb_eq in Hi.
Qed.

(** The integer part of NUMBER_RE on integer digits. *)
Lemma scan_number_int (neg : bool) (ds rest : string) :
  RoundTrip.all_digits ds = true -> RoundTrip.int_digits ds = true ->
  RoundTrip.follow_ok rest = true ->
  Json.scan_number ((if neg then "-" else EmptyString) ++ ds ++ rest)
  = Some (VInt (if neg then - Json.int_of_digits ds else Json.int_of_digits ds)%Z, rest).
Proof.
  intros Hd Hi Hf.
  destruct (follow_ok_number_ends rest Hf) as (Hs & Hfr & Hex).
  destruct (int_digits_head ds Hd Hi) as (c & r & -> & Hc & H0).
  assert (Hnotminus : Ascii.eqb c "-" = false).
  { destruct (Ascii.eqb c "-") eqn:E; [| reflexivity].
    apply Ascii.eqb_eq in E. subst c. discriminate. }
  assert (Hspan : Json.span_digits (String c (r ++ rest)) = (String c r, rest)).
  { change (String c (r ++ rest)) with (String c r ++ rest). now apply span_digits_all. }
  unfold Json.scan_number. destruct neg.
  - change ("-" ++ String c r ++ rest) with (String "-" (String c (r ++ rest))).
    cbv beta iota. change (Ascii.eqb "-" "-") with true. cbv beta iota.
    destruct (Ascii.eqb c "0") eqn:E0.
    + rewrite (H0 eq_refl). cbn [append]. rewrite Hfr, Hex. reflexivity.
    + rewrite Hc, Hspan, Hfr, Hex. reflexivity.
  - change (EmptyString ++ String c r ++ rest) with (String c (r ++ rest)).
    cbv beta iota. rewrite Hnotminus. cbv beta iota.
    destruct (Ascii.eqb c "0") eqn:E0.
    + rewrite (H0 eq_refl). cbn [append]. rewrite Hfr, Hex. reflexivity.
    + rewrite Hc, Hspan, Hfr, Hex. reflexivity.
Qed.

(** ** Induction on values *)

Lemma pyval_nested_ind (P : pyval -> Prop) :
  P VNone -> (forall b, P (VBool b)) -> (forall z, P (VInt z)) ->
  (forall t, P (VFloat t)) -> (forall s, P (VStr s)) ->
  (forall l, Forall P l -> P (VList l)) ->
  (forall d, Forall (fun kv => P (snd kv)) d -> P (VDict d)) ->
  forall v, P v.
Proof.
  intros HN HB HI HF HS HL HD.
  fix self 1. intros [| b | z | t | s | l | d].
  - exact HN.
  - apply HB.
  - apply HI.
  - apply HF.
  - apply HS.
  - apply HL. induction l as [|x l IHl]; constructor; [apply self | exact IHl].
  - apply HD. induction d as [|[k x] d IHd]; constructor; [apply self | exact IHd].
Qed.

(** ** Heads of encodings *)

Lemma digit_cases (c : ascii) :
  Text.isdigit c = true ->
  c = "0"%char \/ c = "1"%char \/ c = "2"%char \/ c = "3"%char \/ c = "4"%char
  \/ c = "5"%char \/ c = "6"%char \/ c = "7"%char \/ c = "8"%char \/ c = "9"%char.
Proof.
  destruct c as [[] [] [] [] [] [] [] []]; intros H; try discriminate H; tauto.
Qed.

Lemma scan_once_number (c : ascii) (x : string) (f : nat) (y : pyval * string) :
  RoundTrip.number_start c = true -> Json.scan_number (String c x) = Some y ->
  Json.scan_once (S f) (String c x) = Some y.
Proof.
  unfold RoundTrip.number_start. intros Hs Hn.
  apply orb_true_iff in Hs as [Hd | Hm].
  - apply digit_cases in Hd.
    repeat (destruct Hd as [-> | Hd]); try subst c;
      cbn [Json.scan_once]; cbn -[Json.scan_number]; rewrite Hn; reflexivity.
  - apply Ascii.eqb_eq in Hm. subst c.
    cbn [Json.scan_once]; cbn -[Json.scan_number]; rewrite Hn; reflexivity.
Qed.

(** ** Floats *)

Lemma span_digits_spec (s ds r : string) :
  Json.span_digits s = (ds, r) ->
  s = ds ++ r /\ RoundTrip.all_digits ds = true /\ Json.span_digits r = (EmptyString, r).
Proof.
  revert ds r. induction s as [|c s IH]; intros ds r H.
  - injection H as <- <-. repeat split.
  - cbn [Json.span_digits] in H. destruct (Text.isdigit c) eqn:Hc.
    + destruct (Json.span_digits s) as [ds' r'] eqn:E. injection H as <- <-.
      destruct (IH ds' r' eq_refl) as (-> & Hd & Hr).
      repeat split; [cbn [RoundTrip.all_digits]; now rewrite Hc, Hd | exact Hr].
    + injection H as <- <-. repeat split. cbn [Json.span_digits]. now rewrite Hc.
Qed.

Lemma digits1_spec (d : string) :
  RoundTrip.digits1 d = true ->
  RoundTrip.all_digits d = true
  /\ exists c r, d = String c r /\ Text.isdigit c = true.
Proof.
  destruct d as [|c r]; [discriminate |]. cbn. intros H. split; [exact H |].
  apply andb_true_iff in H as [Hc _]. eauto.
Qed.

Lemma digit_not_special (c : ascii) :
  Text.isdigit c = true ->
  Ascii.eqb c "-" = false /\ Ascii.eqb c "+" = false /\ Ascii.eqb c "." = false
  /\ Ascii.eqb c "e" = false /\ Ascii.eqb c "E" = false /\ Ascii.eqb c "_" = false
  /\ Text.isspace c = false /\ RoundTrip.value_start c = true
  /\ RoundTrip.number_start c = true.
Proof.
  intros H. apply digit_cases in H.
  repeat (destruct H as [-> | H]); try subst c; repeat split.
Qed.

Lemma exponent_shape (r : string) :
  RoundTrip.exponent r = true ->
  exists sg ed, r = "e" ++ sg ++ ed
                /\ Text.str_in sg [EmptyString; "-"; "+"] = true
                /\ RoundTrip.digits1 ed = true.
Proof.
  destruct r as [|c r1]; [discriminate |]. cbn [RoundTrip.exponent]. intros H.
  apply andb_true_iff in H as [Hc Hd]. apply Ascii.eqb_eq in Hc. subst c.
  destruct r1 as [|g r2]; [discriminate |].
  destruct (Ascii.eqb g "-") eqn:E1; [apply Ascii.eqb_eq in E1; subst g |].
  - exists "-", r2. repeat split. exact Hd.
  - destruct (Ascii.eqb g "+") eqn:E2; [apply Ascii.eqb_eq in E2; subst g |].
    + exists "+", r2. repeat split. exact Hd.
    + exists EmptyString, (String g r2). repeat split. exact Hd.
Qed.

(** The text of a finite float splits into its parts. *)
Lemma finite_repr_shape (t : string) :
  RoundTrip.finite_repr t = true ->
  exists neg ip fp e,
    t = RoundTrip.float_text neg ip fp e /\ RoundTrip.float_parts_ok ip fp e = true.
Proof.
  unfold RoundTrip.finite_repr. intros H.
  set (body := match t with
               | String c r => if Ascii.eqb c "-" then r else t
               | EmptyString => t
               end) in *.
  destruct (Json.span_digits body) as [ip r] eqn:Es.
  apply andb_true_iff in H as [Hip Hr].
  destruct (span_digits_spec body ip r Es) as (Hbody & Hall & Hstop).
  assert (Ht : exists neg, t = RoundTrip.sign_text neg ++ body).
  { subst body. destruct t as [|c t']; [now exists false |].
    destruct (Ascii.eqb c "-") eqn:E.
    - apply Ascii.eqb_eq in E. subst c. now exists true.
    - now exists false. }
  destruct Ht as [neg Ht].
  assert (Hparts : exists fp e, r = RoundTrip.frac_text fp ++ RoundTrip.exp_text e
                                /\ RoundTrip.float_parts_ok ip fp e = true).
  { unfold RoundTrip.float_parts_ok. rewrite Hall, Hip. cbn [andb].
    destruct r as [|c r1]; [discriminate |].
    destruct (Ascii.eqb c ".") eqn:Ec.
    - apply Ascii.eqb_eq in Ec. subst c.
      destruct (Json.span_digits r1) as [fp r2] eqn:Ef.
      destruct (span_digits_spec r1 fp r2 Ef) as (-> & _ & _).
      apply andb_true_iff in Hr as [Hfp Hr2].
      apply orb_true_iff in Hr2 as [Hr2 | Hr2].
      + apply String.eqb_eq in Hr2. subst r2. exists (Some fp), None.
        split; [cbn; now rewrite !append_nil_r | now rewrite Hfp].
      + destruct (exponent_shape r2 Hr2) as (sg & ed & -> & Hsg & Hed).
        exists (Some fp), (Some (sg, ed)).
        split; [cbn; now rewrite ?append_assoc | now rewrite Hfp, Hsg, Hed].
    - destruct (exponent_shape (String c r1) Hr) as (sg & ed & -> & Hsg & Hed).
      exists None, (Some (sg, ed)). split; [reflexivity | now rewrite Hsg, Hed]. }
  destruct Hparts as (fp & e & -> & Hok).
  exists neg, ip, fp, e. split; [| exact Hok].
  unfold RoundTrip.float_text. now rewrite Ht, Hbody.
Qed.

Lemma scan_frac_digits (d x : string) :
  RoundTrip.digits1 d = true -> Json.span_digits x = (EmptyString, x) ->
  Json.scan_frac ("." ++ d ++ x) = ("." ++ d, x).
Proof.
  intros Hd Hx. destruct (digits1_spec d Hd) as (Hall & c & r & -> & Hc).
  change ("." ++ String c r ++ x) with (String "." (String c r ++ x)).
  unfold Json.scan_frac. change (Ascii.eqb "." ".") with true. cbv beta iota.
  rewrite (span_digits_all (String c r) x Hall Hx). reflexivity.
Qed.

Lemma scan_exp_digits (sg ed x : string) :
  Text.str_in sg [EmptyString; "-"; "+"] = true -> RoundTrip.digits1 ed = true ->
  Json.span_digits x = (EmptyString, x) ->
  Json.scan_exp ("e" ++ sg ++ ed ++ x) = ("e" ++ sg ++ ed, x).
Proof.
  intros Hsg Hd Hx. destruct (digits1_spec ed Hd) as (Hall & c & r & -> & Hc).
  pose proof (span_digits_all (String c r) x Hall Hx) as Hspan.
  destruct (digit_not_special c Hc) as (Hm & Hp & _).
  unfold Text.str_in in Hsg. cbn [existsb] in Hsg.
  apply orb_true_iff in Hsg as [Hsg | Hsg];
    [| apply orb_true_iff in Hsg as [Hsg | Hsg];
       [| apply orb_true_iff in Hsg as [Hsg | Hsg]; [| discriminate]]];
    apply String.eqb_eq in Hsg; subst sg.
  - change ("e" ++ EmptyString ++ String c r ++ x) with (String "e" (String c (r ++ x))).
    unfold Json.scan_exp. change (Ascii.eqb "e" "e") with true. cbv beta iota.
    cbn [orb]. rewrite Hm, Hp. cbn [orb]. cbv beta iota.
    change (String c (r ++ x)) with (String c r ++ x). rewrite Hspan. reflexivity.
  - change ("e" ++ "-" ++ String c r ++ x) with (String "e" (String "-" (String c r ++ x))).
    unfold Json.scan_exp. change (Ascii.eqb "e" "e") with true. cbv beta iota.
    change (Ascii.eqb "-" "-") with true. cbn [orb]. cbv beta iota.
    rewrite Hspan. reflexivity.
  - change ("e" ++ "+" ++ String c r ++ x) with (String "e" (String "+" (String c r ++ x))).
    unfold Json.scan_exp. change (Ascii.eqb "e" "e") with true. cbv beta iota.
    change (Ascii.eqb "+" "-") with false. change (Ascii.eqb "+" "+") with true.
    cbn [orb]. cbv beta iota. rewrite Hspan. reflexivity.
Qed.

Lemma scan_number_parts (neg : bool) (ip x frac exp x1 rest : string) :
  RoundTrip.all_digits ip = true -> RoundTrip.int_digits ip = true ->
  Json.span_digits x = (EmptyString, x) ->
  Json.scan_frac x = (frac, x1) -> Json.scan_exp x1 = (exp, rest) ->
  frac ++ exp <> EmptyString ->
  Json.scan_number (RoundTrip.sign_text neg ++ ip ++ x)
  = Some (VFloat (RoundTrip.sign_text neg ++ ip ++ frac ++ exp), rest).
Proof.
  intros Hd Hi Hx Hfr Hex Hne.
  destruct (int_digits_head ip Hd Hi) as (c & r & -> & Hc & H0).
  destruct (digit_not_special c Hc) as (Hnotminus & _).
  assert (Hspan : Json.span_digits (String c (r ++ x)) = (String c r, x)).
  { change (String c (r ++ x)) with (String c r ++ x). now apply span_digits_all. }
  assert (Hfinal : match frac, exp with
                   | EmptyString, EmptyString =>
                       Some (VInt (if neg then - Json.int_of_digits (String c r)
                                   else Json.int_of_digits (String c r))%Z, rest)
                   | _, _ =>
                       Some (VFloat ((if neg then "-" else EmptyString)
                                     ++ String c r ++ frac ++ exp), rest)
                   end
                   = Some (VFloat (RoundTrip.sign_text neg ++ String c r ++ frac ++ exp), rest)).
  { destruct frac; [destruct exp; [now elim Hne |] |]; reflexivity. }
  unfold Json.scan_number. destruct neg.
  - change (RoundTrip.sign_text true ++ String c r ++ x)
      with (String "-" (String c (r ++ x))).
    cbv beta iota. change (Ascii.eqb "-" "-") with true. cbv beta iota.
    destruct (Ascii.eqb c "0") eqn:E0.
    + rewrite (H0 eq_refl) in *. cbn [append]. rewrite Hfr, Hex. exact Hfinal.
    + rewrite Hc, Hspan, Hfr, Hex. exact Hfinal.
  - change (RoundTrip.sign_text false ++ String c r ++ x) with (String c (r ++ x)).
    cbv beta iota. rewrite Hnotminus. cbv beta iota.
    destruct (Ascii.eqb c "0") eqn:E0.
    + rewrite (H0 eq_refl) in *. cbn [append]. rewrite Hfr, Hex. exact Hfinal.
    + rewrite Hc, Hspan, Hfr, Hex. exact Hfinal.
Qed.

(** NUMBER_RE reads the text of a finite float back as that float. *)
Lemma scan_number_float (neg : bool) (ip : string) (fp : option string)
    (e : option (string * string)) (rest : string) :
  RoundTrip.float_parts_ok ip fp e = true -> RoundTrip.follow_ok rest = true ->
  Json.scan_number (RoundTrip.float_text neg ip fp e ++ rest)
  = Some (VFloat (RoundTrip.float_text neg ip fp e), rest).
Proof.
  unfold RoundTrip.float_parts_ok. intros Hok Hf.
  apply andb_true_iff in Hok as [Hok Hsome]. apply andb_true_iff in Hok as [Hok He].
  apply andb_true_iff in Hok as [Hok Hfp]. apply andb_true_iff in Hok as [Hd Hi].
  destruct (follow_ok_number_ends rest Hf) as (Hs & Hfr & Hex).
  unfold RoundTrip.float_text. rewrite !append_assoc.
  destruct fp as [d|], e as [[sg ed]|]; try discriminate Hsome.
  - apply andb_true_iff in He as [Hsg Hed].
    apply (scan_number_parts neg ip _ ("." ++ d) ("e" ++ sg ++ ed)
             ("e" ++ sg ++ ed ++ rest) rest Hd Hi).
    + reflexivity.
    + cbn [RoundTrip.frac_text RoundTrip.exp_text]. rewrite !append_assoc.
      apply (scan_frac_digits d ("e" ++ sg ++ ed ++ rest) Hfp). reflexivity.
    + now apply scan_exp_digits.
    + discriminate.
  - cbn [RoundTrip.exp_text]. rewrite append_nil_r.
    replace (RoundTrip.frac_text (Some d)) with (RoundTrip.frac_text (Some d) ++ EmptyString)
      at 2 by apply append_nil_r.
    apply (scan_number_parts neg ip _ ("." ++ d) EmptyString rest rest Hd Hi).
    + reflexivity.
    + cbn [RoundTrip.frac_text]. rewrite !append_assoc.
      now apply scan_frac_digits.
    + exact Hex.
    + discriminate.
  - apply andb_true_iff in He as [Hsg Hed].
    cbn [RoundTrip.frac_text RoundTrip.exp_text]. rewrite !append_assoc.
    apply (scan_number_parts neg ip ("e" ++ sg ++ ed ++ rest) EmptyString ("e" ++ sg ++ ed)
             ("e" ++ sg ++ ed ++ rest) rest Hd Hi).
    + reflexivity.
    + reflexivity.
    + now apply scan_exp_digits.
    + discriminate.
Qed.

(** ** The scanner on encoded values *)

Lemma value_start_facts (c : ascii) :
  RoundTrip.value_start c = true ->
  Json.is_ws c = false /\ Text.isspace c = false
  /\ Ascii.eqb c "]" = false /\ Ascii.eqb c "}" = false /\ Ascii.eqb c ":" = false
  /\ Ascii.eqb c "," = false.
Proof.
  destruct c as [[] [] [] [] [] [] [] []]; intros H; try discriminate H; repeat split.
Qed.

Lemma skip_ws_value (c : ascii) (x : string) :
  RoundTrip.value_start c = true -> Json.skip_ws (String c x) = String c x.
Proof.
  intros H. destruct (value_start_facts c H) as (Hw & _).
  cbn [Json.skip_ws]. now rewrite Hw.
Qed.

Lemma float_text_head (neg : bool) (ip : string) (fp : option string)
    (e : option (string * string)) :
  RoundTrip.float_parts_ok ip fp e = true ->
  exists c r, RoundTrip.float_text neg ip fp e = String c r
              /\ RoundTrip.number_start c = true /\ RoundTrip.value_start c = true.
Proof.
  unfold RoundTrip.float_parts_ok. intros Hok.
  apply andb_true_iff in Hok as [Hok _]. apply andb_true_iff in Hok as [Hok _].
  apply andb_true_iff in Hok as [Hok _]. apply andb_true_iff in Hok as [Hd Hi].
  destruct (int_digits_head ip Hd Hi) as (c & r & -> & Hc & _).
  destruct (digit_not_special c Hc) as (_ & _ & _ & _ & _ & _ & _ & Hv & Hn).
  unfold RoundTrip.float_text. destruct neg.
  - eexists; eexists; split; [reflexivity | split; reflexivity].
  - eexists; eexists; split; [reflexivity | split; assumption].
Qed.

Lemma str_of_int_head (z : Z) :
  exists c r, Text.str_of_int z = String c r
              /\ RoundTrip.number_start c = true /\ RoundTrip.value_start c = true.
Proof.
  destruct (str_of_int_shape z) as (neg & ds & -> & Hd & Hi & _).
  destruct (int_digits_head ds Hd Hi) as (c & r & -> & Hc & _).
  destruct (digit_not_special c Hc) as (_ & _ & _ & _ & _ & _ & _ & Hv & Hn).
  destruct neg.
  - eexists; eexists; split; [reflexivity | split; reflexivity].
  - eexists; eexists; split; [reflexivity | split; assumption].
Qed.

(** An encoding starts with a character a value can start with. *)
Lemma encoded_head (v : pyval) :
  RoundTrip.json_safe v = true ->
  exists c r, to_agtype_value v = String c r /\ RoundTrip.value_start c = true.
Proof.
  destruct v as [| b | z | t | s | l | d]; intros Hs.
  - eexists; eexists; split; reflexivity.
  - destruct b; eexists; eexists; split; reflexivity.
  - destruct (str_of_int_head z) as (c & r & E & _ & Hv). eauto.
  - cbn in Hs. destruct (finite_repr_shape t Hs) as (neg & ip & fp & e & -> & Hok).
    destruct (float_text_head neg ip fp e Hok) as (c & r & E & _ & Hv). eauto.
  - eexists; eexists; split; reflexivity.
  - eexists; eexists; split; reflexivity.
  - eexists; eexists; split; reflexivity.
Qed.

Lemma join_cons2 (sep a b : string) (l : list string) :
  Text.join sep (a :: b :: l) = a ++ sep ++ Text.join sep (b :: l).
Proof. reflexivity. Qed.

Lemma array_loop_step (f : nat) (s : string) :
  Json.array_loop (S f) s
  = match Json.scan_once f s with
    | None => None
    | Some (value, s1) =>
        match Json.skip_ws s1 with
        | String c r =>
            if Ascii.eqb c "]" then Some ([value], r)
            else if Ascii.eqb c "," then
              match Json.array_loop f (Json.skip_ws r) with
              | Some (values, rest) => Some (value :: values, rest)
              | None => None
              end
            else None
        | EmptyString => None
        end
    end.
Proof. reflexivity. Qed.

Lemma object_loop_step (f : nat) (s : string) :
  Json.object_loop (S f) s
  = match Json.scanstring s with
    | None => None
    | Some (key, s1) =>
        match Json.skip_ws s1 with
        | String c r =>
            if Ascii.eqb c ":" then
              match Json.scan_once f (Json.skip_ws r) with
              | None => None
              | Some (value, s2) =>
                  match Json.skip_ws s2 with
                  | String c2 r2 =>
                      if Ascii.eqb c2 "}" then Some ([(key, value)], r2)
                      else if Ascii.eqb c2 "," then
                        match Json.skip_ws r2 with
                        | String c3 r3 =>
                            if Ascii.eqb c3 dquote then
                              match Json.object_loop f r3 with
                              | Some (pairs, rest) => Some ((key, value) :: pairs, rest)
                              | None => None
                              end
                            else None
                        | EmptyString => None
                        end
                      else None
                  | EmptyString => None
                  end
              end
            else None
        | EmptyString => None
        end
    end.
Proof. reflexivity. Qed.

Lemma scan_once_array (f : nat) (r : string) :
  Json.scan_once (S f) (String "[" r)
  = match Json.skip_ws r with
    | String c1 r1 =>
        if Ascii.eqb c1 "]" then Some (VList [], r1)
        else
          match Json.array_loop f (String c1 r1) with
          | Some (values, rest) => Some (VList values, rest)
          | None => None
          end
    | EmptyString => None
    end.
Proof. reflexivity. Qed.

Lemma scan_once_object (f : nat) (r : string) :
  Json.scan_once (S f) (String "{" r)
  = match Json.skip_ws r with
    | String c1 r1 =>
        if Ascii.eqb c1 "}" then Some (VDict [], r1)
        else if Ascii.eqb c1 dquote then
          match Json.object_loop f r1 with
          | Some (pairs, rest) => Some (VDict (Dict.of_pairs pairs), rest)
          | None => None
          end
        else None
    | EmptyString => None
    end.
Proof. reflexivity. Qed.

Lemma scan_once_string (f : nat) (r : string) :
  Json.scan_once (S f) (String dquote r)
  = match Json.scanstring r with
    | Some (body, rest) => Some (VStr body, rest)
    | None => None
    end.
Proof. reflexivity. Qed.

Lemma join_map_cons2 {A : Type} (g : A -> string) (sep : string) (a b : A) (l : list A) :
  Text.join sep (map g (a :: b :: l)) = g a ++ sep ++ Text.join sep (map g (b :: l)).
Proof. reflexivity. Qed.

Lemma join_map_one {A : Type} (g : A -> string) (sep : string) (a : A) :
  Text.join sep (map g [a]) = g a.
Proof. reflexivity. Qed.

(** After a comma and a blank the scanner stands at the next element. *)
Lemma skip_blank_items (l : list pyval) (y : string) :
  forallb RoundTrip.json_safe l = true -> l <> [] ->
  Json.skip_ws (String " " (Text.join ", " (map to_agtype_value l) ++ y))
  = Text.join ", " (map to_agtype_value l) ++ y
  /\ exists c r, Text.join ", " (map to_agtype_value l) ++ y = String c r
                 /\ RoundTrip.value_start c = true.
Proof.
  intros Hs Hne. destruct l as [|v l]; [congruence |].
  cbn [forallb] in Hs. apply andb_true_iff in Hs as [Hsv _].
  destruct (encoded_head v Hsv) as (c & r & E & Hc).
  assert (Hhead : exists r', Text.join ", " (map to_agtype_value (v :: l)) ++ y = String c r').
  { destruct l as [|v2 l].
    - rewrite join_map_one, E. eexists. reflexivity.
    - rewrite join_map_cons2, E. eexists. reflexivity. }
  destruct Hhead as [r' Hhead]. rewrite Hhead. split; [| eauto].
  cbn [Json.skip_ws]. change (Json.is_ws " ") with true. cbv beta iota.
  apply (skip_ws_value c _ Hc).
Qed.

Lemma array_loop_encoded (l : list pyval) :
  Forall RoundTrip.scans_back l -> forallb RoundTrip.json_safe l = true -> l <> [] ->
  forall rest f,
    fold_right (fun x acc => S (RoundTrip.need x) + acc) 0 l <= f ->
    Json.array_loop f (Text.join ", " (map to_agtype_value l) ++ "]" ++ rest)
    = Some (l, rest).
Proof.
  induction 1 as [|v l Hv Hl IH]; intros Hs Hne rest f Hfuel; [congruence |].
  cbn [forallb] in Hs. apply andb_true_iff in Hs as [Hsv Hsl].
  cbn [fold_right] in Hfuel.
  destruct f as [|f]; [lia |].
  rewrite array_loop_step.
  destruct l as [|v2 l].
  - rewrite join_map_one.
    rewrite (Hv Hsv ("]" ++ rest) f eq_refl ltac:(lia)).
    reflexivity.
  - rewrite join_map_cons2, !append_assoc.
    rewrite (Hv Hsv (", " ++ Text.join ", " (map to_agtype_value (v2 :: l)) ++ "]" ++ rest)
               f eq_refl ltac:(lia)).
    change (", " ++ ?x) with (String "," (String " " x)).
    destruct (skip_blank_items (v2 :: l) ("]" ++ rest) Hsl ltac:(discriminate)) as (Hskip & _).
    cbn [Json.skip_ws]. change (Json.is_ws ",") with false. cbv beta iota.
    change (Ascii.eqb "," "]") with false. change (Ascii.eqb "," ",") with true.
    cbv beta iota. rewrite Hskip.
    rewrite (IH Hsl ltac:(discriminate) rest f ltac:(lia)).
    reflexivity.
Qed.

(** ** Maps *)

Lemma dict_has_app {A : Type} (k : string) (a b : list (string * A)) :
  Dict.has k (a ++ b)%list = Dict.has k a || Dict.has k b.
Proof.
  unfold Dict.has. induction a as [|[k' v'] a IH]; [reflexivity |].
  cbn [app Dict.get]. destruct (String.eqb k k'); [reflexivity | exact IH].
Qed.

Lemma dict_set_fresh {A : Type} (k : string) (v : A) (acc : list (string * A)) :
  Dict.has k acc = false -> Dict.set k v acc = (acc ++ [(k, v)])%list.
Proof.
  unfold Dict.has. induction acc as [|[k' v'] acc IH]; [reflexivity |].
  cbn [Dict.get Dict.set app]. destruct (String.eqb k k'); [discriminate |].
  intros H. now rewrite (IH H).
Qed.

Lemma dict_update_fresh (d acc : list (string * pyval)) :
  RoundTrip.unique_keys d = true -> RoundTrip.fresh_keys acc d = true ->
  Dict.update acc d = (acc ++ d)%list.
Proof.
  unfold Dict.update, RoundTrip.fresh_keys. revert acc.
  induction d as [|[k v] d IH]; intros acc Hu Hf.
  - cbn. now rewrite app_nil_r.
  - cbn [RoundTrip.unique_keys] in Hu. apply andb_true_iff in Hu as [Hk Hu].
    cbn [forallb fst] in Hf. apply andb_true_iff in Hf as [Hka Hf].
    apply negb_true_iff in Hk, Hka.
    cbn [fold_left fst snd]. rewrite (dict_set_fresh k v acc Hka).
    rewrite IH; [now rewrite <- app_assoc | exact Hu |].
    clear IH Hu. induction d as [|[k2 v2] d IHd]; [reflexivity |].
    cbn [forallb fst] in *. apply andb_true_iff in Hf as [H2 Hf].
    unfold Dict.has in Hk. cbn [Dict.get] in Hk.
    destruct (String.eqb k k2) eqn:E; [discriminate |].
    rewrite dict_has_app. apply negb_true_iff in H2. rewrite H2.
    unfold Dict.has at 1. cbn [Dict.get]. rewrite String.eqb_sym, E. cbn.
    apply IHd; assumption.
Qed.

Lemma of_pairs_unique (d : list (string * pyval)) :
  RoundTrip.unique_keys d = true -> Dict.of_pairs d = d.
Proof.
  intros H. unfold Dict.of_pairs. rewrite dict_update_fresh; [reflexivity | exact H |].
  unfold RoundTrip.fresh_keys. induction d as [|[k v] d IH]; [reflexivity |].
  cbn [forallb]. cbn [RoundTrip.unique_keys] in H. apply andb_true_iff in H as [_ H].
  now rewrite IH.
Qed.

Lemma encoded_dict (d : list (string * pyval)) :
  to_agtype_value (VDict d) = "{" ++ Text.join ", " (map RoundTrip.item_text d) ++ "}".
Proof. reflexivity. Qed.

Lemma encoded_list (l : list pyval) :
  to_agtype_value (VList l) = "[" ++ Text.join ", " (map to_agtype_value l) ++ "]".
Proof. reflexivity. Qed.

(** The items of a non-empty map start with the quote of the first key. *)
Lemma items_head (d : list (string * pyval)) (y : string) :
  d <> [] ->
  Text.join ", " (map RoundTrip.item_text d) ++ y
  = String dquote (Text.drop 1 (Text.join ", " (map RoundTrip.item_text d) ++ y)).
Proof.
  destruct d as [|[k v] [|kv2 d]]; [congruence | reflexivity | reflexivity].
Qed.

Lemma object_loop_encoded (d : list (string * pyval)) :
  Forall (fun kv => RoundTrip.scans_back (snd kv)) d ->
  forallb RoundTrip.item_safe d = true -> d <> [] ->
  forall rest f,
    fold_right (fun kv acc => S (RoundTrip.need (snd kv)) + acc) 0 d <= f ->
    Json.object_loop f (Text.drop 1 (Text.join ", " (map RoundTrip.item_text d) ++ "}" ++ rest))
    = Some (d, rest).
Proof.
  induction 1 as [|[k v] d Hv Hd IH]; intros Hs Hne rest f Hfuel; [congruence |].
  cbn [forallb] in Hs. apply andb_true_iff in Hs as [Hkv Hsd].
  unfold RoundTrip.item_safe in Hkv. cbn [fst snd] in Hkv, Hv.
  apply andb_true_iff in Hkv as [Hkv Hsv]. apply andb_true_iff in Hkv as [Hplain _].
  cbn [fold_right snd] in Hfuel.
  destruct f as [|f]; [lia |].
  destruct (encoded_head v Hsv) as (c & r & E & Hc).
  rewrite object_loop_step.
  assert (Hitem : forall tail,
             Text.drop 1 (RoundTrip.item_text (k, v) ++ tail)
             = k ++ String dquote (String ":" (String " " (to_agtype_value v ++ tail)))).
  { intros tail. unfold RoundTrip.item_text, quoted. cbn [fst snd].
    rewrite !append_assoc.
    change (String dquote (k ++ str1 dquote) ++ ?y) with (String dquote ((k ++ str1 dquote) ++ y)).
    change (Text.drop 1 (String dquote ?x)) with x.
    rewrite append_assoc. reflexivity. }
  assert (Hvalue : forall tail,
             Json.skip_ws (String " " (to_agtype_value v ++ tail)) = to_agtype_value v ++ tail).
  { intros tail. rewrite E. change (String c r ++ tail) with (String c (r ++ tail)).
    cbn [Json.skip_ws]. change (Json.is_ws " ") with true. cbv beta iota.
    apply (skip_ws_value c _ Hc). }
  destruct d as [|kv2 d].
  - rewrite join_map_one, Hitem, (scanstring_plain k _ Hplain).
    cbn [Json.skip_ws]. change (Json.is_ws ":") with false. cbv beta iota.
    change (Ascii.eqb ":" ":") with true. cbv beta iota.
    rewrite Hvalue, (Hv Hsv ("}" ++ rest) f eq_refl ltac:(lia)).
    reflexivity.
  - rewrite join_map_cons2, !append_assoc, Hitem, (scanstring_plain k _ Hplain).
    cbn [Json.skip_ws]. change (Json.is_ws ":") with false. cbv beta iota.
    change (Ascii.eqb ":" ":") with true. cbv beta iota.
    rewrite Hvalue.
    rewrite (Hv Hsv (", " ++ Text.join ", " (map RoundTrip.item_text (kv2 :: d)) ++ "}" ++ rest)
               f eq_refl ltac:(lia)).
    change (", " ++ ?x) with (String "," (String " " x)).
    cbn [Json.skip_ws]. change (Json.is_ws ",") with false. cbv beta iota.
    change (Ascii.eqb "," "}") with false. change (Ascii.eqb "," ",") with true.
    cbv beta iota.
    rewrite (items_head (kv2 :: d) ("}" ++ rest) ltac:(discriminate)).
    cbn [Json.skip_ws]. change (Json.is_ws " ") with true. cbv beta iota.
    change (Json.is_ws dquote) with false. cbv beta iota.
    change (Ascii.eqb dquote dquote) with true. cbv beta iota.
    rewrite (IH Hsd ltac:(discriminate) rest f ltac:(lia)).
    reflexivity.
Qed.

(** ** Every safe value scans back *)

Lemma scan_once_encoded (v : pyval) : RoundTrip.scans_back v.
Proof.
  induction v as [| b | z | t | s | l IHl | d IHd] using pyval_nested_ind;
    intros Hs rest f Hf Hn; (destruct f as [|f]; [cbn in Hn; lia |]).
  - follow_cases Hf; reflexivity.
  - destruct b; follow_cases Hf; reflexivity.
  - destruct (str_of_int_head z) as (c & r & E & Hc & _).
    destruct (str_of_int_shape z) as (neg & ds & Ez & Hd & Hi & Hz).
    cbn [to_agtype_value]. rewrite E. change (String c r ++ rest) with (String c (r ++ rest)).
    apply (scan_once_number c _ f _ Hc).
    change (String c (r ++ rest)) with (String c r ++ rest).
    rewrite <- E, Ez, append_assoc, (scan_number_int neg ds rest Hd Hi Hf), Hz.
    reflexivity.
  - cbn [RoundTrip.json_safe] in Hs.
    destruct (finite_repr_shape t Hs) as (neg & ip & fp & e & -> & Hok).
    destruct (float_text_head neg ip fp e Hok) as (c & r & E & Hc & _).
    cbn [to_agtype_value]. rewrite E. change (String c r ++ rest) with (String c (r ++ rest)).
    apply (scan_once_number c _ f _ Hc).
    change (String c (r ++ rest)) with (String c r ++ rest).
    rewrite <- E. now apply scan_number_float.
  - cbn [to_agtype_value]. unfold quoted.
    change (String dquote ?x ++ rest) with (String dquote (x ++ rest)).
    rewrite scan_once_string, append_assoc, escape_agtype_string_chars.
    change (str1 dquote ++ rest) with (String dquote rest).
    now rewrite scanstring_escaped.
  - cbn [RoundTrip.json_safe] in Hs. cbn [RoundTrip.need] in Hn.
    rewrite encoded_list.
    change ("[" ++ ?x) with (String "[" x).
    change (String "[" ?x ++ rest) with (String "[" (x ++ rest)).
    rewrite scan_once_array, append_assoc.
    destruct l as [|v l].
    + follow_cases Hf; reflexivity.
    + 
      destruct (skip_blank_items (v :: l) ("]" ++ rest) Hs ltac:(discriminate))
        as (_ & c & r & E & Hc).
      destruct (value_start_facts c Hc) as (_ & _ & Hnb & _).
      rewrite E, (skip_ws_value c r Hc), Hnb, <- E.
      rewrite (array_loop_encoded (v :: l) IHl Hs ltac:(discriminate) rest f ltac:(lia)).
      reflexivity.
  - cbn [RoundTrip.json_safe] in Hs. apply andb_true_iff in Hs as [Hitems Huniq].
    cbn [RoundTrip.need] in Hn.
    rewrite encoded_dict.
    change ("{" ++ ?x) with (String "{" x).
    change (String "{" ?x ++ rest) with (String "{" (x ++ rest)).
    rewrite scan_once_object, append_assoc.
    destruct d as [|kv d].
    + follow_cases Hf; reflexivity.
    + 
      rewrite (items_head (kv :: d) ("}" ++ rest) ltac:(discriminate)).
      cbn [Json.skip_ws]. change (Json.is_ws dquote) with false. cbv beta iota.
      change (Ascii.eqb dquote "}") with false.
      change (Ascii.eqb dquote dquote) with true. cbv beta iota.
      rewrite (object_loop_encoded (kv :: d) IHd Hitems ltac:(discriminate) rest f ltac:(lia)).
      now rewrite (of_pairs_unique (kv :: d) Huniq).
Qed.

(** ** Fuel: the length of the text is enough *)

Lemma need_items_bound (l : list pyval) :
  Forall (fun x => RoundTrip.need x <= S (String.length (to_agtype_value x))) l ->
  fold_right (fun x acc => S (RoundTrip.need x) + acc) 0 l
  <= String.length (Text.join ", " (map to_agtype_value l)) + 2.
Proof.
  induction 1 as [|a l Ha Hl IH]; [cbn; lia |].
  destruct l as [|b l].
  - rewrite join_map_one. cbn [fold_right]. lia.
  - rewrite join_map_cons2, !length_append.
    change (String.length ", ") with 2.
    cbn [fold_right] in *. lia.
Qed.

Lemma need_pairs_bound (d : list (string * pyval)) :
  Forall (fun kv => RoundTrip.need (snd kv) <= S (String.length (to_agtype_value (snd kv)))) d ->
  fold_right (fun kv acc => S (RoundTrip.need (snd kv)) + acc) 0 d
  <= String.length (Text.join ", " (map RoundTrip.item_text d)) + 2.
Proof.
  assert (Hitem : forall kv,
             String.length (to_agtype_value (snd kv)) + 2 <= String.length (RoundTrip.item_text kv)).
  { intros [k v]. unfold RoundTrip.item_text, quoted. cbn [fst snd].
    rewrite !length_append. cbn [String.length]. lia. }
  induction 1 as [|a d Ha Hd IH]; [cbn; lia |].
  specialize (Hitem a).
  destruct d as [|b d].
  - rewrite join_map_one. cbn [fold_right]. lia.
  - rewrite join_map_cons2, !length_append.
    change (String.length ", ") with 2.
    cbn [fold_right] in *. lia.
Qed.

Lemma need_le_length (v : pyval) :
  RoundTrip.need v <= S (String.length (to_agtype_value v)).
Proof.
  induction v as [| b | z | t | s | l IHl | d IHd] using pyval_nested_ind;
    try (cbn [RoundTrip.need]; lia).
  - cbn [RoundTrip.need]. rewrite encoded_list, !length_append.
    pose proof (need_items_bound l IHl). cbn [String.length]. lia.
  - cbn [RoundTrip.need]. rewrite encoded_dict, !length_append.
    pose proof (need_pairs_bound d IHd). cbn [String.length]. lia.
Qed.

(** [json.loads] reads the encoding of a safe value back. *)
Lemma loads_encoded (v : pyval) :
  RoundTrip.json_safe v = true -> Json.loads (to_agtype_value v) = Some v.
Proof.
  intros Hs. unfold Json.loads.
  destruct (encoded_head v Hs) as (c & r & E & Hc).
  assert (Hws : Json.skip_ws (to_agtype_value v) = to_agtype_value v).
  { rewrite E. apply (skip_ws_value c r Hc). }
  rewrite Hws.
  pose proof (scan_once_encoded v Hs EmptyString (Json.fuel_for (to_agtype_value v)) eq_refl) as H.
  rewrite append_nil_r in H. rewrite H; [reflexivity |].
  unfold Json.fuel_for. pose proof (need_le_length v). lia.
Qed.

(** ** The suffix stripping leaves an encoding as it is *)

Lemma lstrip_solid (s : string) : RoundTrip.starts_solid s = true -> Text.lstrip s = s.
Proof.
  destruct s as [|c r]; [reflexivity |]. cbn [RoundTrip.starts_solid Text.lstrip].
  intros H. apply negb_true_iff in H. now rewrite H.
Qed.

Lemma rstrip_solid (s : string) : RoundTrip.ends_solid s = true -> Text.rstrip s = s.
Proof.
  induction s as [|c r IH]; [reflexivity |].
  intros H. cbn [Text.rstrip]. destruct r as [|c2 r].
  - cbn [RoundTrip.ends_solid] in H. apply negb_true_iff in H.
    cbn [Text.rstrip]. now rewrite H.
  - change (RoundTrip.ends_solid (String c (String c2 r)))
      with (RoundTrip.ends_solid (String c2 r)) in H.
    now rewrite (IH H).
Qed.

Lemma strip_solid (s : string) :
  RoundTrip.starts_solid s = true -> RoundTrip.ends_solid s = true -> Text.strip s = s.
Proof. intros H1 H2. unfold Text.strip. now rewrite (lstrip_solid s H1), (rstrip_solid s H2). Qed.

Lemma strip_bracket_tags_free (s : string) :
  RoundTrip.tag_free s = true -> strip_bracket_tags s = s.
Proof.
  unfold strip_bracket_tags. induction s as [|c r IH]; [reflexivity |].
  cbn [RoundTrip.tag_free]. intros H. apply andb_true_iff in H as [Hc Hr].
  apply negb_true_iff in Hc.
  rewrite strip_from_scan, Hc, (IH Hr). reflexivity.
Qed.

Lemma trailing_tag_at_head (c : ascii) (r : string) :
  Ascii.eqb c ":" = false -> trailing_tag_at (String c r) = None.
Proof.
  intros H. destruct r as [|c2 [|w r]]; cbn [trailing_tag_at]; try reflexivity.
  now rewrite H.
Qed.

Lemma strip_trailing_tag_colon_free (s : string) :
  RoundTrip.colon_free s = true -> strip_trailing_tag s = s.
Proof.
  induction s as [|c r IH]; [reflexivity |].
  cbn [RoundTrip.colon_free]. intros H. apply andb_true_iff in H as [Hc Hr].
  apply negb_true_iff in Hc.
  cbn [strip_trailing_tag]. rewrite (trailing_tag_at_head c r Hc), (IH Hr). reflexivity.
Qed.

Lemma ends_hard_cons (c c2 : ascii) (r : string) :
  RoundTrip.ends_hard (String c (String c2 r)) = RoundTrip.ends_hard (String c2 r).
Proof. reflexivity. Qed.

Lemma word_to_end_hard (s : string) : RoundTrip.ends_hard s = true -> word_to_end s = None.
Proof.
  induction s as [|c r IH]; [discriminate |]. intros H.
  cbn [word_to_end]. destruct r as [|c2 r].
  - cbn [RoundTrip.ends_hard] in H. apply andb_true_iff in H as [Hw Hn].
    apply negb_true_iff in Hw, Hn. now rewrite Hw, Hn.
  - rewrite ends_hard_cons in H. rewrite (IH H).
    destruct (Text.is_word_char c); [reflexivity |].
    destruct (Ascii.eqb c newline); reflexivity.
Qed.

Lemma trailing_tag_at_hard (s : string) :
  RoundTrip.ends_hard s = true -> trailing_tag_at s = None.
Proof.
  intros H. destruct s as [|c1 [|c2 [|w r]]]; try reflexivity.
  cbn [trailing_tag_at].
  destruct (Ascii.eqb c1 ":" && Ascii.eqb c2 ":" && Text.is_word_char w) eqn:E;
    [| reflexivity].
  apply andb_true_iff in E as [_ Hw].
  rewrite !ends_hard_cons in H.
  destruct r as [|c3 r].
  - cbn [RoundTrip.ends_hard] in H. rewrite Hw in H. discriminate.
  - rewrite ends_hard_cons in H. now apply word_to_end_hard.
Qed.

Lemma strip_trailing_tag_hard (s : string) :
  RoundTrip.ends_hard s = true -> strip_trailing_tag s = s.
Proof.
  induction s as [|c r IH]; [reflexivity |]. intros H.
  cbn [strip_trailing_tag]. rewrite (trailing_tag_at_hard _ H).
  destruct r as [|c2 r]; [reflexivity |].
  rewrite ends_hard_cons in H. now rewrite (IH H).
Qed.

(** The last character decides. *)
Lemma ends_solid_last (a : string) (c : ascii) :
  RoundTrip.ends_solid (a ++ str1 c) = negb (Text.isspace c).
Proof.
  induction a as [|x a IH]; [reflexivity |].
  change (String x a ++ str1 c) with (String x (a ++ str1 c)).
  destruct (a ++ str1 c) as [|y t] eqn:E; [destruct a; discriminate |].
  exact IH.
Qed.

Lemma ends_hard_last (a : string) (c : ascii) :
  RoundTrip.ends_hard (a ++ str1 c)
  = negb (Text.is_word_char c) && negb (Ascii.eqb c newline).
Proof.
  induction a as [|x a IH]; [reflexivity |].
  change (String x a ++ str1 c) with (String x (a ++ str1 c)).
  destruct (a ++ str1 c) as [|y t] eqn:E; [destruct a; discriminate |].
  exact IH.
Qed.

(** *** Number texts *)

Lemma number_char_facts (c : ascii) :
  RoundTrip.number_char c = true ->
  Text.isspace c = false /\ Ascii.eqb c ":" = false /\ is_closer c = false.
Proof.
  destruct c as [[] [] [] [] [] [] [] []]; intros H; try discriminate H; repeat split.
Qed.

Lemma number_text_app (a b : string) :
  RoundTrip.number_text (a ++ b) = RoundTrip.number_text a && RoundTrip.number_text b.
Proof.
  induction a as [|c a IH]; [reflexivity |].
  change (String c a ++ b) with (String c (a ++ b)).
  cbn [RoundTrip.number_text]. now rewrite IH, andb_assoc.
Qed.

Lemma digits_number_text (ds : string) :
  RoundTrip.all_digits ds = true -> RoundTrip.number_text ds = true.
Proof.
  induction ds as [|c ds IH]; [reflexivity |].
  cbn [RoundTrip.all_digits RoundTrip.number_text]. intros H.
  apply andb_true_iff in H as [Hc Hd]. rewrite (IH Hd), andb_true_r.
  unfold RoundTrip.number_char. now rewrite Hc.
Qed.

Lemma number_text_solid (s : string) :
  RoundTrip.number_text s = true ->
  RoundTrip.starts_solid s = true /\ RoundTrip.ends_solid s = true
  /\ RoundTrip.colon_free s = true /\ RoundTrip.closer_free s = true.
Proof.
  induction s as [|c r IH]; [repeat split |].
  cbn [RoundTrip.number_text]. intros H. apply andb_true_iff in H as [Hc Hr].
  destruct (number_char_facts c Hc) as (Hsp & Hco & Hcl).
  destruct (IH Hr) as (_ & He & Hcf & Hclf).
  repeat split.
  - cbn [RoundTrip.starts_solid]. now rewrite Hsp.
  - destruct r as [|c2 r]; [cbn [RoundTrip.ends_solid]; now rewrite Hsp | exact He].
  - cbn [RoundTrip.colon_free]. now rewrite Hco, Hcf.
  - cbn [RoundTrip.closer_free]. now rewrite Hcl, Hclf.
Qed.

Lemma str_of_int_number_text (z : Z) : RoundTrip.number_text (Text.str_of_int z) = true.
Proof.
  destruct (str_of_int_shape z) as (neg & ds & -> & Hd & _).
  rewrite number_text_app, (digits_number_text ds Hd). now destruct neg.
Qed.

Lemma float_text_number_text (neg : bool) (ip : string) (fp : option string)
    (e : option (string * string)) :
  RoundTrip.float_parts_ok ip fp e = true ->
  RoundTrip.number_text (RoundTrip.float_text neg ip fp e) = true.
Proof.
  unfold RoundTrip.float_parts_ok, RoundTrip.float_text. intros H.
  apply andb_true_iff in H as [H _]. apply andb_true_iff in H as [H He].
  apply andb_true_iff in H as [H Hf]. apply andb_true_iff in H as [Hi _].
  rewrite !number_text_app, (digits_number_text ip Hi).
  assert (H1 : RoundTrip.number_text (RoundTrip.sign_text neg) = true) by now destruct neg.
  assert (H2 : RoundTrip.number_text (RoundTrip.frac_text fp) = true).
  { destruct fp as [d|]; [| reflexivity].
    destruct (digits1_spec d Hf) as (Hd & _).
    unfold RoundTrip.frac_text. now rewrite number_text_app, (digits_number_text d Hd). }
  assert (H3 : RoundTrip.number_text (RoundTrip.exp_text e) = true).
  { destruct e as [[sg ed]|]; [| reflexivity].
    apply andb_true_iff in He as [Hsg Hed].
    destruct (digits1_spec ed Hed) as (Hd & _).
    unfold RoundTrip.exp_text.
    rewrite !number_text_app, (digits_number_text ed Hd).
    unfold Text.str_in in Hsg. cbn [existsb] in Hsg.
    repeat (apply orb_true_iff in Hsg as [Hsg | Hsg]);
      try discriminate Hsg; apply String.eqb_eq in Hsg; subst sg; reflexivity. }
  now rewrite H1, H2, H3.
Qed.

(** *** Bracket tags in an encoding *)

Lemma tag_free_closer_free (a x : string) :
  RoundTrip.closer_free a = true -> RoundTrip.tag_free (a ++ x) = RoundTrip.tag_free x.
Proof.
  induction a as [|c a IH]; [reflexivity |].
  cbn [RoundTrip.closer_free]. intros H. apply andb_true_iff in H as [Hc Ha].
  apply negb_true_iff in Hc.
  change (String c a ++ x) with (String c (a ++ x)).
  cbn [RoundTrip.tag_free]. now rewrite Hc, (IH Ha).
Qed.

Lemma tag_free_cons (c : ascii) (x : string) :
  RoundTrip.tag_free (String c x)
  = negb (is_closer c && tag_follows x) && RoundTrip.tag_free x.
Proof. reflexivity. Qed.

Lemma tag_follows_head (c : ascii) (x : string) :
  Ascii.eqb c ":" = false -> tag_follows (String c x) = false.
Proof.
  intros H. destruct x as [|c2 [|w x]]; cbn [tag_follows]; try reflexivity.
  now rewrite H.
Qed.

Lemma tag_follows_second (c c2 : ascii) (x : string) :
  Ascii.eqb c2 ":" = false -> tag_follows (String c (String c2 x)) = false.
Proof.
  intros H. destruct x as [|w x]; cbn [tag_follows]; try reflexivity.
  now rewrite H, andb_false_r.
Qed.

Lemma tag_follows_third (c c2 w : ascii) (x : string) :
  Text.is_word_char w = false -> tag_follows (String c (String c2 (String w x))) = false.
Proof. intros H. cbn [tag_follows]. now rewrite H, andb_false_r. Qed.

(** A character is written as it is, or as an escape that starts with a
    backslash and has no closing bracket or brace. *)
Lemma escape_char_cases (c : ascii) :
  RoundTrip.escape_char c = str1 c
  \/ exists t, RoundTrip.escape_char c = String backslash t
               /\ RoundTrip.closer_free t = true
               /\ Ascii.eqb c ":" = false /\ Text.is_word_char c = false
               /\ is_closer c = false.
Proof.
  destruct c as [[] [] [] [] [] [] [] []];
    first [ left; reflexivity
          | right; eexists; split; [reflexivity | repeat split] ].
Qed.

Lemma escaped_head (c : ascii) (x : string) :
  exists h t, RoundTrip.escape_char c ++ x = String h t
              /\ (h = c \/ h = backslash).
Proof.
  destruct (escape_char_cases c) as [E | (t & E & _)]; rewrite E.
  - exists c, x. split; [reflexivity | now left].
  - exists backslash, (t ++ x). split; [reflexivity | now right].
Qed.

(** Inside a string literal a tag follows in the escaped text exactly when
    it follows in the text. *)
Lemma tag_follows_escaped (r rest : string) :
  tag_follows (RoundTrip.escape_chars r ++ String dquote rest) = tag_follows r.
Proof.
  destruct r as [|c1 r]; [exact (tag_follows_head dquote rest eq_refl) |].
  cbn [RoundTrip.escape_chars]. rewrite append_assoc.
  destruct (escape_char_cases c1) as [E | (t & E & _ & H1 & _)]; rewrite E.
  2:{ change (String backslash t ++ ?x) with (String backslash (t ++ x)).
      rewrite (tag_follows_head backslash _ eq_refl).
      symmetry. now apply tag_follows_head. }
  change (str1 c1 ++ ?x) with (String c1 x).
  destruct r as [|c2 r]; [exact (tag_follows_second c1 dquote rest eq_refl) |].
  cbn [RoundTrip.escape_chars]. rewrite append_assoc.
  destruct (escape_char_cases c2) as [E2 | (t & E2 & _ & H2 & _)]; rewrite E2.
  2:{ change (String backslash t ++ ?x) with (String backslash (t ++ x)).
      rewrite (tag_follows_second c1 backslash _ eq_refl).
      symmetry. now apply tag_follows_second. }
  change (str1 c2 ++ ?x) with (String c2 x).
  destruct r as [|w r]; [exact (tag_follows_third c1 c2 dquote rest eq_refl) |].
  cbn [RoundTrip.escape_chars]. rewrite append_assoc.
  destruct (escape_char_cases w) as [E3 | (t & E3 & _ & _ & H3 & _)]; rewrite E3.
  2:{ change (String backslash t ++ ?x) with (String backslash (t ++ x)).
      rewrite (tag_follows_third c1 c2 backslash _ eq_refl).
      symmetry. now apply tag_follows_third. }
  reflexivity.
Qed.

Lemma tag_free_escaped (s rest : string) :
  RoundTrip.tag_free s = true -> RoundTrip.tag_free rest = true ->
  RoundTrip.tag_free (RoundTrip.escape_chars s ++ String dquote rest) = true.
Proof.
  intros Hs Hr. induction s as [|c r IH].
  - change (RoundTrip.escape_chars EmptyString ++ ?x) with x.
    rewrite tag_free_cons. exact Hr.
  - rewrite tag_free_cons in Hs. apply andb_true_iff in Hs as [Hc Hs].
    cbn [RoundTrip.escape_chars]. rewrite append_assoc.
    destruct (escape_char_cases c) as [E | (t & E & Ht & _)]; rewrite E.
    + change (str1 c ++ ?x) with (String c x).
      rewrite tag_free_cons, tag_follows_escaped, Hc. exact (IH Hs).
    + change (String backslash t ++ ?x) with (String backslash (t ++ x)).
      rewrite tag_free_cons, (tag_free_closer_free t _ Ht). exact (IH Hs).
Qed.

Lemma plain_char_escape (c : ascii) :
  RoundTrip.plain_char c = true -> RoundTrip.escape_char c = str1 c.
Proof.
  destruct c as [[] [] [] [] [] [] [] []]; intros H; try discriminate H; reflexivity.
Qed.

Lemma plain_key_escape (k : string) :
  RoundTrip.plain_key k = true -> RoundTrip.escape_chars k = k.
Proof.
  induction k as [|c k IH]; [reflexivity |].
  cbn [RoundTrip.plain_key RoundTrip.escape_chars]. intros H.
  apply andb_true_iff in H as [Hc Hk].
  now rewrite (plain_char_escape c Hc), (IH Hk).
Qed.

(** The text of a string literal has no bracket tag. *)
Lemma tag_free_quoted (s rest : string) :
  RoundTrip.tag_free s = true -> RoundTrip.tag_free rest = true ->
  RoundTrip.tag_free (quoted (escape_agtype_string s) ++ rest) = true.
Proof.
  intros Hs Hr. unfold quoted. rewrite escape_agtype_string_chars.
  change (String dquote ?x ++ rest) with (String dquote (x ++ rest)).
  rewrite append_assoc. change (str1 dquote ++ rest) with (String dquote rest).
  rewrite tag_free_cons. now apply tag_free_escaped.
Qed.

Lemma tag_free_key (k rest : string) :
  RoundTrip.plain_key k = true -> RoundTrip.tag_free k = true ->
  RoundTrip.tag_free rest = true ->
  RoundTrip.tag_free (quoted k ++ rest) = true.
Proof.
  intros Hp Hk Hr. unfold quoted.
  change (String dquote ?x ++ rest) with (String dquote (x ++ rest)).
  rewrite append_assoc. change (str1 dquote ++ rest) with (String dquote rest).
  rewrite tag_free_cons, <- (plain_key_escape k Hp). now apply tag_free_escaped.
Qed.

Lemma tag_free_after_closer (c : ascii) (rest : string) :
  tag_follows rest = false -> RoundTrip.tag_free rest = true ->
  RoundTrip.tag_free (String c rest) = true.
Proof. intros H1 H2. now rewrite tag_free_cons, H1, H2, andb_false_r. Qed.

Lemma tag_free_items (l : list pyval) (rest : string) :
  Forall RoundTrip.tags_ok l -> forallb RoundTrip.json_safe l = true ->
  tag_follows rest = false -> RoundTrip.tag_free rest = true ->
  RoundTrip.tag_free (Text.join ", " (map to_agtype_value l) ++ "]" ++ rest) = true.
Proof.
  intros Hl Hs H1 H2.
  assert (Hend : RoundTrip.tag_free ("]" ++ rest) = true)
    by now apply tag_free_after_closer.
  induction Hl as [|a l Ha Hl IH]; [exact Hend |].
  cbn [forallb] in Hs. apply andb_true_iff in Hs as [Hsa Hsl].
  destruct l as [|b l].
  - rewrite join_map_one.
    apply (Ha Hsa); [exact (tag_follows_head "]" rest eq_refl) | exact Hend].
  - rewrite join_map_cons2, !append_assoc.
    change (", " ++ ?x) with (String "," (String " " x)).
    apply (Ha Hsa); [exact (tag_follows_head "," _ eq_refl) |].
    rewrite !tag_free_cons. exact (IH Hsl).
Qed.

Lemma tag_free_pairs (d : list (string * pyval)) (rest : string) :
  Forall (fun kv => RoundTrip.tags_ok (snd kv)) d ->
  forallb RoundTrip.item_safe d = true ->
  tag_follows rest = false -> RoundTrip.tag_free rest = true ->
  RoundTrip.tag_free (Text.join ", " (map RoundTrip.item_text d) ++ "}" ++ rest) = true.
Proof.
  intros Hd Hs H1 H2.
  assert (Hend : RoundTrip.tag_free ("}" ++ rest) = true)
    by now apply tag_free_after_closer.
  assert (Hitem : forall k v tail,
             RoundTrip.tags_ok v -> RoundTrip.item_safe (k, v) = true ->
             tag_follows tail = false -> RoundTrip.tag_free tail = true ->
             RoundTrip.tag_free (RoundTrip.item_text (k, v) ++ tail) = true).
  { intros k v tail Hv Hkv Ht1 Ht2. unfold RoundTrip.item_safe in Hkv. cbn [fst snd] in Hkv.
    apply andb_true_iff in Hkv as [Hkv Hsv]. apply andb_true_iff in Hkv as [Hp Hk].
    unfold RoundTrip.item_text. cbn [fst snd]. rewrite !append_assoc.
    apply (tag_free_key k _ Hp Hk).
    change (": " ++ ?x) with (String ":" (String " " x)).
    rewrite !tag_free_cons. now apply Hv. }
  induction Hd as [|[k v] d Ha Hd IH]; [exact Hend |].
  cbn [forallb] in Hs. apply andb_true_iff in Hs as [Hsa Hsd].
  cbn [snd] in Ha.
  destruct d as [|b d].
  - rewrite join_map_one.
    apply (Hitem k v _ Ha Hsa); [exact (tag_follows_head "}" rest eq_refl) | exact Hend].
  - rewrite join_map_cons2, !append_assoc.
    change (", " ++ ?x) with (String "," (String " " x)).
    apply (Hitem k v _ Ha Hsa); [exact (tag_follows_head "," _ eq_refl) |].
    rewrite !tag_free_cons. exact (IH Hsd).
Qed.

Lemma encoded_tags_ok (v : pyval) : RoundTrip.tags_ok v.
Proof.
  induction v as [| b | z | t | s | l IHl | d IHd] using pyval_nested_ind;
    intros Hs rest H1 H2.
  - change (to_agtype_value VNone) with "null".
    now rewrite (tag_free_closer_free "null" rest eq_refl).
  - destruct b.
    + change (to_agtype_value (VBool true)) with "true".
      now rewrite (tag_free_closer_free "true" rest eq_refl).
    + change (to_agtype_value (VBool false)) with "false".
      now rewrite (tag_free_closer_free "false" rest eq_refl).
  - cbn [to_agtype_value].
    destruct (number_text_solid _ (str_of_int_number_text z)) as (_ & _ & _ & Hc).
    now rewrite (tag_free_closer_free _ rest Hc).
  - cbn [RoundTrip.json_safe] in Hs. cbn [to_agtype_value].
    destruct (finite_repr_shape t Hs) as (neg & ip & fp & e & -> & Hok).
    destruct (number_text_solid _ (float_text_number_text neg ip fp e Hok)) as (_ & _ & _ & Hc).
    now rewrite (tag_free_closer_free _ rest Hc).
  - cbn [RoundTrip.json_safe] in Hs. cbn [to_agtype_value]. now apply tag_free_quoted.
  - cbn [RoundTrip.json_safe] in Hs. rewrite encoded_list.
    change ("[" ++ ?x) with (String "[" x).
    change (String "[" ?x ++ rest) with (String "[" (x ++ rest)).
    rewrite tag_free_cons, append_assoc. now apply tag_free_items.
  - cbn [RoundTrip.json_safe] in Hs. apply andb_true_iff in Hs as [Hitems _].
    rewrite encoded_dict.
    change ("{" ++ ?x) with (String "{" x).
    change (String "{" ?x ++ rest) with (String "{" (x ++ rest)).
    rewrite tag_free_cons, append_assoc. now apply tag_free_pairs.
Qed.

Lemma encoded_tag_free (v : pyval) :
  RoundTrip.json_safe v = true -> RoundTrip.tag_free (to_agtype_value v) = true.
Proof.
  intros Hs. rewrite <- (append_nil_r (to_agtype_value v)).
  now apply encoded_tags_ok.
Qed.

(** *** The ends of an encoding *)

Lemma encoded_ends (v : pyval) :
  RoundTrip.json_safe v = true ->
  RoundTrip.ends_solid (to_agtype_value v) = true
  /\ (RoundTrip.colon_free (to_agtype_value v) = true
      \/ RoundTrip.ends_hard (to_agtype_value v) = true).
Proof.
  destruct v as [| b | z | t | s | l | d]; intros Hs.
  - split; [reflexivity | left; reflexivity].
  - destruct b; (split; [reflexivity | left; reflexivity]).
  - destruct (number_text_solid _ (str_of_int_number_text z)) as (_ & He & Hc & _).
    split; [exact He | left; exact Hc].
  - cbn [RoundTrip.json_safe] in Hs.
    destruct (finite_repr_shape t Hs) as (neg & ip & fp & e & -> & Hok).
    destruct (number_text_solid _ (float_text_number_text neg ip fp e Hok))
      as (_ & He & Hc & _).
    split; [exact He | left; exact Hc].
  - cbn [to_agtype_value]. unfold quoted.
    change (String dquote (?x ++ str1 dquote)) with (String dquote x ++ str1 dquote).
    rewrite ends_solid_last, ends_hard_last. split; [reflexivity | right; reflexivity].
  - rewrite encoded_list, <- append_assoc.
    change "]" with (str1 "]").
    rewrite ends_solid_last, ends_hard_last. split; [reflexivity | right; reflexivity].
  - rewrite encoded_dict, <- append_assoc.
    change "}" with (str1 "}").
    rewrite ends_solid_last, ends_hard_last. split; [reflexivity | right; reflexivity].
Qed.

Lemma strip_encoded (v : pyval) :
  RoundTrip.json_safe v = true -> Text.strip (to_agtype_value v) = to_agtype_value v.
Proof.
  intros Hs. destruct (encoded_ends v Hs) as (He & _).
  destruct (encoded_head v Hs) as (c & r & E & Hc).
  destruct (value_start_facts c Hc) as (_ & Hsp & _).
  apply strip_solid; [| exact He].
  rewrite E. cbn [RoundTrip.starts_solid]. now rewrite Hsp.
Qed.

(** The decoder strips nothing from the encoding of a safe value. *)
Lemma stripped_text_encoded (v : pyval) :
  RoundTrip.json_safe v = true -> stripped_text (to_agtype_value v) = to_agtype_value v.
Proof.
  intros Hs. unfold stripped_text.
  rewrite (strip_encoded v Hs), (strip_bracket_tags_free _ (encoded_tag_free v Hs)).
  destruct (encoded_ends v Hs) as (_ & [Hc | Hh]).
  - rewrite (strip_trailing_tag_colon_free _ Hc). apply (strip_encoded v Hs).
  - rewrite (strip_trailing_tag_hard _ Hh). apply (strip_encoded v Hs).
Qed.

(** *** Which parser takes the text *)

Lemma json_candidate_number (c : ascii) (r : string) :
  RoundTrip.number_start c = true -> json_candidate (String c r) = false.
Proof.
  unfold RoundTrip.number_start. intros H. apply orb_true_iff in H as [H | H].
  - apply digit_cases in H. repeat (destruct H as [-> | H]); try subst c; reflexivity.
  - apply Ascii.eqb_eq in H. subst c. reflexivity.
Qed.

Lemma json_candidate_quoted (x : string) : json_candidate (String dquote x) = true.
Proof. destruct x; reflexivity. Qed.

Lemma json_candidate_list (x : string) : json_candidate (String "[" x) = true.
Proof. destruct x; reflexivity. Qed.

Lemma json_candidate_dict (x : string) : json_candidate (String "{" x) = true.
Proof. destruct x; reflexivity. Qed.

(** *** [int] and [float] on the text of a number *)

Lemma digit_part_digits (ds : string) :
  RoundTrip.all_digits ds = true ->
  Num.digit_part true ds = Some ds
  /\ (ds <> EmptyString -> Num.digit_part false ds = Some ds).
Proof.
  induction ds as [|c ds IH]; [split; [reflexivity | congruence] |].
  cbn [RoundTrip.all_digits]. intros H. apply andb_true_iff in H as [Hc Hd].
  destruct (IH Hd) as (IH1 & _).
  cbn [Num.digit_part]. rewrite Hc, IH1. split; reflexivity.
Qed.

Lemma digit_part_stopped (ds : string) (c : ascii) (x : string) (b : bool) :
  RoundTrip.all_digits ds = true ->
  Text.isdigit c = false -> Ascii.eqb c "_" = false ->
  Num.digit_part b (ds ++ String c x) = None.
Proof.
  intros Hd Hc Hu. revert b. induction ds as [|d ds IH]; intros b.
  - change (EmptyString ++ String c x) with (String c x).
    cbn [Num.digit_part]. now rewrite Hc, Hu.
  - cbn [RoundTrip.all_digits] in Hd. apply andb_true_iff in Hd as [Hd1 Hd2].
    change (String d ds ++ String c x) with (String d (ds ++ String c x)).
    cbn [Num.digit_part]. now rewrite Hd1, (IH Hd2 true).
Qed.

Lemma split_sign_digits (ds : string) :
  RoundTrip.digits1 ds = true -> Num.split_sign ds = (false, ds).
Proof.
  intros H. destruct (digits1_spec ds H) as (_ & c & r & -> & Hc).
  destruct (digit_not_special c Hc) as (H1 & H2 & _).
  cbn [Num.split_sign]. now rewrite H1, H2.
Qed.

Lemma int_digits_digits1 (ds : string) :
  RoundTrip.all_digits ds = true -> RoundTrip.int_digits ds = true ->
  RoundTrip.digits1 ds = true.
Proof. destruct ds; [discriminate |]. intros H _. exact H. Qed.

(** [int(str(z))] is [z]. *)
Lemma py_int_str_of_int (z : Z) : Num.py_int (Text.str_of_int z) = Some z.
Proof.
  unfold Num.py_int.
  destruct (number_text_solid _ (str_of_int_number_text z)) as (H1 & H2 & _).
  rewrite (strip_solid _ H1 H2).
  destruct (str_of_int_shape z) as (neg & ds & -> & Hd & Hi & Hz).
  pose proof (int_digits_digits1 ds Hd Hi) as Hd1.
  destruct (digit_part_digits ds Hd) as (_ & Hp).
  assert (Hne : ds <> EmptyString) by (destruct ds; [discriminate | congruence]).
  destruct neg.
  - change (Num.split_sign ("-" ++ ds)) with (true, ds).
    cbv beta iota. rewrite (Hp Hne). now rewrite <- Hz.
  - change (EmptyString ++ ds) with ds. rewrite (split_sign_digits ds Hd1).
    cbv beta iota. rewrite (Hp Hne). now rewrite <- Hz.
Qed.

Lemma span_digit_part_digits (ds rest : string) (b : bool) :
  RoundTrip.all_digits ds = true ->
  Num.span_digit_part true rest = (true, rest) ->
  Num.span_digit_part false rest = (false, rest) ->
  Num.span_digit_part b (ds ++ rest)
  = ((b || negb (String.eqb ds EmptyString))%bool, rest).
Proof.
  intros Hd Hr1 Hr2. revert b. induction ds as [|d ds IH]; intros b.
  - change (EmptyString ++ rest) with rest. destruct b; assumption.
  - cbn [RoundTrip.all_digits] in Hd. apply andb_true_iff in Hd as [Hd1 Hd2].
    change (String d ds ++ rest) with (String d (ds ++ rest)).
    cbn [Num.span_digit_part]. rewrite Hd1, (IH Hd2 true).
    cbn [snd]. now rewrite orb_true_r.
Qed.

Lemma span_digit_part_stop (c : ascii) (x : string) (b : bool) :
  Text.isdigit c = false -> Ascii.eqb c "_" = false ->
  Num.span_digit_part b (String c x) = (b, String c x).
Proof. intros H1 H2. cbn [Num.span_digit_part]. now rewrite H1, H2. Qed.

Lemma span_digit_part_digits1 (ds rest : string) :
  RoundTrip.digits1 ds = true ->
  rest = EmptyString
  \/ (exists c x, rest = String c x /\ Text.isdigit c = false /\ Ascii.eqb c "_" = false) ->
  Num.span_digit_part false (ds ++ rest) = (true, rest).
Proof.
  intros Hd Hrest. destruct (digits1_spec ds Hd) as (Ha & c & r & E & _).
  rewrite (span_digit_part_digits ds rest false Ha).
  - subst ds. reflexivity.
  - destruct Hrest as [-> | (c0 & x & -> & H1 & H2)];
      [reflexivity | now apply span_digit_part_stop].
  - destruct Hrest as [-> | (c0 & x & -> & H1 & H2)];
      [reflexivity | now apply span_digit_part_stop].
Qed.

Lemma exponent_accepted (sg ed : string) :
  Text.str_in sg [EmptyString; "-"; "+"] = true -> RoundTrip.digits1 ed = true ->
  Num.span_digit_part false (snd (Num.split_sign (sg ++ ed))) = (true, EmptyString).
Proof.
  intros Hsg Hed.
  assert (Hsplit : snd (Num.split_sign (sg ++ ed)) = ed).
  { unfold Text.str_in in Hsg. cbn [existsb] in Hsg.
    repeat (apply orb_true_iff in Hsg as [Hsg | Hsg]);
      try discriminate Hsg; apply String.eqb_eq in Hsg; subst sg.
    - change (EmptyString ++ ed) with ed. now rewrite (split_sign_digits ed Hed).
    - reflexivity.
    - reflexivity. }
  rewrite Hsplit, <- (append_nil_r ed) at 1.
  apply span_digit_part_digits1; [exact Hed | now left].
Qed.

Lemma float_body_parts (ip : string) (fp : option string) (e : option (string * string)) :
  RoundTrip.float_parts_ok ip fp e = true ->
  Num.float_body (ip ++ RoundTrip.frac_text fp ++ RoundTrip.exp_text e) = true
  /\ Num.digit_part false (ip ++ RoundTrip.frac_text fp ++ RoundTrip.exp_text e) = None.
Proof.
  unfold RoundTrip.float_parts_ok. intros H.
  apply andb_true_iff in H as [H Hsome]. apply andb_true_iff in H as [H He].
  apply andb_true_iff in H as [H Hf]. apply andb_true_iff in H as [Hi Hid].
  pose proof (int_digits_digits1 ip Hi Hid) as Hi1.
  unfold Num.float_body.
  destruct fp as [d|]; destruct e as [[sg ed]|]; try discriminate Hsome.
  - apply andb_true_iff in He as [Hsg Hed].
    unfold RoundTrip.frac_text, RoundTrip.exp_text. split.
    + change ("." ++ d) with (String "." d).
      change (String "." d ++ ?x) with (String "." (d ++ x)).
      rewrite (span_digit_part_digits1 ip _ Hi1)
        by (right; eexists; eexists; split; [reflexivity | split; reflexivity]).
      change (Ascii.eqb "." ".") with true. cbv beta iota.
      change ("e" ++ ?x) with (String "e" x).
      rewrite (span_digit_part_digits1 d _ Hf)
        by (right; eexists; eexists; split; [reflexivity | split; reflexivity]).
      cbv beta iota. change (Ascii.eqb "e" "e") with true. cbv beta iota.
      rewrite (exponent_accepted sg ed Hsg Hed). reflexivity.
    + change ("." ++ d) with (String "." d).
      change (String "." d ++ ?x) with (String "." (d ++ x)).
      now apply digit_part_stopped.
  - unfold RoundTrip.frac_text, RoundTrip.exp_text. rewrite append_nil_r. split.
    + change ("." ++ d) with (String "." d).
      rewrite (span_digit_part_digits1 ip _ Hi1)
        by (right; eexists; eexists; split; [reflexivity | split; reflexivity]).
      change (Ascii.eqb "." ".") with true. cbv beta iota.
      rewrite <- (append_nil_r d) at 1.
      rewrite (span_digit_part_digits1 d _ Hf) by now left.
      reflexivity.
    + change ("." ++ d) with (String "." d). now apply digit_part_stopped.
  - apply andb_true_iff in He as [Hsg Hed].
    unfold RoundTrip.frac_text, RoundTrip.exp_text.
    change (EmptyString ++ ?x) with x. change ("e" ++ ?x) with (String "e" x). split.
    + rewrite (span_digit_part_digits1 ip _ Hi1)
        by (right; eexists; eexists; split; [reflexivity | split; reflexivity]).
      change (Ascii.eqb "e" ".") with false. cbv beta iota.
      change (Ascii.eqb "e" "e") with true. cbv beta iota.
      rewrite (exponent_accepted sg ed Hsg Hed). reflexivity.
    + now apply digit_part_stopped.
Qed.

Lemma split_sign_float (neg : bool) (ip : string) (fp : option string)
    (e : option (string * string)) :
  RoundTrip.float_parts_ok ip fp e = true ->
  Num.split_sign (RoundTrip.float_text neg ip fp e)
  = (neg, ip ++ RoundTrip.frac_text fp ++ RoundTrip.exp_text e).
Proof.
  intros H. unfold RoundTrip.float_parts_ok in H.
  apply andb_true_iff in H as [H _]. apply andb_true_iff in H as [H _].
  apply andb_true_iff in H as [H _]. apply andb_true_iff in H as [Hi Hid].
  destruct (int_digits_head ip Hi Hid) as (c & r & -> & Hc & _).
  destruct (digit_not_special c Hc) as (H1 & H2 & _).
  unfold RoundTrip.float_text. destruct neg; [reflexivity |].
  change (RoundTrip.sign_text false ++ ?x) with x.
  change (String c r ++ ?x) with (String c (r ++ x)).
  cbn [Num.split_sign]. now rewrite H1, H2.
Qed.

(** [float] accepts the text of a finite float, [int] does not. *)
Lemma py_float_finite (t : string) :
  RoundTrip.finite_repr t = true ->
  Num.py_int t = None /\ Num.py_float t = Some t.
Proof.
  intros H. destruct (finite_repr_shape t H) as (neg & ip & fp & e & -> & Hok).
  destruct (number_text_solid _ (float_text_number_text neg ip fp e Hok)) as (H1 & H2 & _).
  destruct (float_body_parts ip fp e Hok) as (Hbody & Hint).
  unfold Num.py_int, Num.py_float.
  rewrite (strip_solid _ H1 H2), (split_sign_float neg ip fp e Hok).
  cbv beta iota. cbn [snd]. rewrite Hint, Hbody, orb_true_r. split; reflexivity.
Qed.

(** *** Records of the graph *)

Lemma normalize_record_other (d : list (string * pyval)) :
  RoundTrip.graph_record d = false -> normalize_record d = d.
Proof. unfold RoundTrip.graph_record, normalize_record. now intros ->. Qed.

Lemma normalize_items_other (l : list pyval) :
  forallb RoundTrip.no_graph_record l = true -> map normalize_item l = l.
Proof.
  induction l as [|x l IH]; [reflexivity |].
  cbn [forallb map]. intros H. apply andb_true_iff in H as [Hx Hl].
  rewrite (IH Hl). f_equal.
  destruct x as [| | | | | |d]; try reflexivity.
  cbn [RoundTrip.no_graph_record] in Hx. apply negb_true_iff in Hx.
  cbn [normalize_item]. now rewrite (normalize_record_other d Hx).
Qed.

(** *** The round trip *)

(** The decoder on the encoding of a safe value. *)
Lemma decode_encoded (v : pyval) (return_type : string) :
  RoundTrip.roundtrip_safe v = true ->
  _parse_agtype_result (CStr (to_agtype_value v)) return_type = RoundTrip.expected v.
Proof.
  intros Hsafe. destruct v as [| b | z | t | s | l | d].
  - reflexivity.
  - destruct b; reflexivity.
  - cbn [_parse_agtype_result].
    rewrite (stripped_text_encoded (VInt z) eq_refl).
    cbn [to_agtype_value].
    destruct (str_of_int_head z) as (c & r & E & Hc & _).
    rewrite E, (json_candidate_number c r Hc), <- E, (py_int_str_of_int z).
    reflexivity.
  - cbn [RoundTrip.roundtrip_safe] in Hsafe.
    destruct (RoundTrip.finite_repr t) eqn:Hfin.
    + cbn [_parse_agtype_result].
      rewrite (stripped_text_encoded (VFloat t) Hfin).
      cbn [to_agtype_value].
      destruct (py_float_finite t Hfin) as (Hi & Hf).
      destruct (finite_repr_shape t Hfin) as (neg & ip & fp & e & E & Hok).
      destruct (float_text_head neg ip fp e Hok) as (c & r & E2 & Hc & _).
      rewrite <- E in E2.
      rewrite E2, (json_candidate_number c r Hc), <- E2, Hi, Hf.
      reflexivity.
    + cbn [orb] in Hsafe. unfold Text.str_in in Hsafe. cbn [existsb] in Hsafe.
      repeat (apply orb_true_iff in Hsafe as [Hsafe | Hsafe]);
        try discriminate Hsafe; apply String.eqb_eq in Hsafe; subst t; reflexivity.
  - cbn [RoundTrip.roundtrip_safe] in Hsafe.
    cbn [_parse_agtype_result].
    rewrite (stripped_text_encoded (VStr s) Hsafe), (loads_encoded (VStr s) Hsafe).
    cbn [to_agtype_value]. unfold quoted. rewrite json_candidate_quoted. reflexivity.
  - cbn [RoundTrip.roundtrip_safe] in Hsafe. apply andb_true_iff in Hsafe as [Hs Hrec].
    cbn [_parse_agtype_result].
    rewrite (stripped_text_encoded (VList l) Hs), (loads_encoded (VList l) Hs).
    rewrite encoded_list. change ("[" ++ ?x) with (String "[" x).
    rewrite json_candidate_list, (normalize_items_other l Hrec). reflexivity.
  - cbn [RoundTrip.roundtrip_safe] in Hsafe. apply andb_true_iff in Hsafe as [Hs Hrec].
    apply negb_true_iff in Hrec.
    cbn [_parse_agtype_result].
    rewrite (stripped_text_encoded (VDict d) Hs), (loads_encoded (VDict d) Hs).
    rewrite encoded_dict. change ("{" ++ ?x) with (String "{" x).
    rewrite json_candidate_dict, (normalize_record_other d Hrec). reflexivity.
Qed.


Lemma expected_equivalent (v : pyval) : RoundTrip.equivalent v (RoundTrip.expected v).
Proof. destruct v; try reflexivity. apply Permutation.Permutation_refl. Qed.

(** C2 (amended): for every value [v] that is safe to round-trip (None, a
    boolean, an integer of at most 4300 digits, a float, a string, a list
    or a map of such values with distinct keys, where a nested float is
    finite, no string or key
    has a closing bracket or brace directly followed by [::] and a word
    character, no key has a double quote, a backslash or a control
    character, and neither [v] nor an element of a list [v] is a map
    with both the keys id and properties), the decoder applied to
    [to_agtype_value v] returns [v] itself when [v] is a map and [v] under
    the single key value otherwise, which is a structured value equivalent
    to [v]. *)
Theorem agtype_round_trip (v : pyval) (return_type : string) :
  RoundTrip.roundtrip_safe v = true ->
  RoundTrip.ints_within v = true ->
  _parse_agtype_result (CStr (to_agtype_value v)) return_type = RoundTrip.expected v
  /\ RoundTrip.equivalent v (_parse_agtype_result (CStr (to_agtype_value v)) return_type).
Proof.
  intros Hsafe _. rewrite (decode_encoded v return_type Hsafe).
  split; [reflexivity | apply expected_equivalent].
Qed.

Lemma agtype_round_trip_witness :
  RoundTrip.roundtrip_safe ValueScenario.sample = true
  /\ RoundTrip.ints_within ValueScenario.sample = true
  /\ to_agtype_value ValueScenario.sample
     = qq "{`name`: `Ann \`A\` }:: ]`, `age`: -30, `score`: 1.5e-07, `tags`: [`x`, null, true, [], {`id`: 7}], `address`: {}}"
  /\ _parse_agtype_result (CStr (to_agtype_value ValueScenario.sample)) "raw"
     = RoundTrip.expected ValueScenario.sample
  /\ RoundTrip.equivalent ValueScenario.sample
       (_parse_agtype_result (CStr (to_agtype_value ValueScenario.sample)) "raw").
Proof.
  split; [reflexivity |]. split; [vm_compute; reflexivity |]. split; [reflexivity |].
  apply (agtype_round_trip ValueScenario.sample "raw"); vm_compute; reflexivity.
Defined.

(** C2 as stated fails: a map with the keys id and properties is a
    supported value, yet the decoder takes its encoding for a vertex and
    renames id to graph_id, so that the decoded map has no key id. *)
Lemma agtype_round_trip_counterexample :
  RoundTrip.json_safe ValueScenario.record_like = true
  /\ to_agtype_value ValueScenario.record_like = qq "{`id`: 1, `properties`: {}}"
  /\ _parse_agtype_result (CStr (to_agtype_value ValueScenario.record_like)) "raw"
     = [("properties", VDict []); ("graph_id", VInt 1)]
  /\ ~ RoundTrip.equivalent ValueScenario.record_like
         (_parse_agtype_result (CStr (to_agtype_value ValueScenario.record_like)) "raw").
Proof.
  split; [reflexivity |]. split; [reflexivity |].
  assert (E : _parse_agtype_result (CStr (to_agtype_value ValueScenario.record_like)) "raw"
              = [("properties", VDict []); ("graph_id", VInt 1)])
    by (vm_compute; reflexivity).
  split; [exact E |]. rewrite E. cbn [RoundTrip.equivalent ValueScenario.record_like].
  intros HP.
  assert (Hin : In ("id", VInt 1) [("properties", VDict []); ("graph_id", VInt 1)]).
  { apply (Permutation.Permutation_in _ HP). now left. }
  destruct Hin as [H | [H | []]]; discriminate H.
Qed.

(* ====================================================================== *)
(** * The scanner's fuel *)
(* ====================================================================== *)

(** What the scanner returns does not depend on the fuel once the fuel is
    past twice the length of the text, which is what [Json.loads] gives:
    a [None] of [Json.loads] is a decoding error, never a lack of fuel. *)

Lemma skip_ws_length (s : string) : String.length (Json.skip_ws s) <= String.length s.
Proof.
  induction s as [|c r IH]; [reflexivity |].
  cbn [Json.skip_ws]. destruct (Json.is_ws c); cbn [String.length]; lia.
Qed.

Lemma skip_ws_cons_length (s : string) (c : ascii) (r : string) :
  Json.skip_ws s = String c r -> String.length r < String.length s.
Proof.
  intros H. pose proof (skip_ws_length s) as L. rewrite H in L.
  cbn [String.length] in L. lia.
Qed.

Lemma push_length (c : ascii) (k : option (string * string)) (body rest : string) :
  Json.push c k = Some (body, rest) -> exists b, k = Some (b, rest).
Proof. destruct k as [[b r]|]; [| discriminate]. intros H. injection H as _ <-. eauto. Qed.

Lemma scanstring_length (s body rest : string) :
  Json.scanstring s = Some (body, rest) -> String.length rest < String.length s.
Proof.
  remember (String.length s) as n eqn:En.
  revert s body rest En. induction n as [n IH] using lt_wf_ind.
  intros s body rest En H. destruct s as [|c r]; [discriminate |].
  cbn [String.length] in En. cbn [Json.scanstring] in H.
  destruct (Ascii.eqb c dquote).
  { injection H as _ <-. lia. }
  destruct (Ascii.eqb c backslash).
  - destruct r as [|e r1]; [discriminate |]. cbn [String.length] in En.
    destruct (Ascii.eqb e "u").
    + destruct r1 as [|h1 [|h2 [|h3 [|h4 r2]]]]; try discriminate.
      cbn [String.length] in En.
      destruct (Json.hex4_value h1 h2 h3 h4) as [code|]; [| discriminate].
      destruct (Nat.leb code 255); [| discriminate].
      apply push_length in H as (b & H).
      pose proof (IH (String.length r2) ltac:(lia) r2 b rest eq_refl H). lia.
    + destruct (Json.unescape e) as [ch|]; [| discriminate].
      apply push_length in H as (b & H).
      pose proof (IH (String.length r1) ltac:(lia) r1 b rest eq_refl H). lia.
  - destruct (Nat.ltb (Text.ord c) 32); [discriminate |].
    apply push_length in H as (b & H).
    pose proof (IH (String.length r) ltac:(lia) r b rest eq_refl H). lia.
Qed.

Lemma span_digits_length (s ds r : string) :
  Json.span_digits s = (ds, r) ->
  String.length s = String.length ds + String.length r.
Proof.
  intros H. destruct (span_digits_spec s ds r H) as (-> & _). apply length_append.
Qed.

Lemma scan_frac_length (s x r : string) :
  Json.scan_frac s = (x, r) -> String.length r <= String.length s.
Proof.
  destruct s as [|c s]; cbn [Json.scan_frac].
  { intros H. injection H as _ <-. lia. }
  destruct (Ascii.eqb c ".").
  - destruct (Json.span_digits s) as [ds rest] eqn:E.
    pose proof (span_digits_length s ds rest E) as L.
    destruct ds; intros H; injection H as _ <-; cbn [String.length] in *; lia.
  - intros H. injection H as _ <-. lia.
Qed.

Lemma scan_exp_length (s x r : string) :
  Json.scan_exp s = (x, r) -> String.length r <= String.length s.
Proof.
  destruct s as [|c s]; cbn [Json.scan_exp].
  { intros H. injection H as _ <-. lia. }
  destruct (Ascii.eqb c "e" || Ascii.eqb c "E").
  2:{ intros H. injection H as _ <-. lia. }
  assert (Hsign : forall sign r1,
             match s with
             | String g r' =>
                 if Ascii.eqb g "-" || Ascii.eqb g "+" then (str1 g, r') else (EmptyString, s)
             | EmptyString => (EmptyString, s)
             end = (sign, r1) -> String.length r1 <= String.length s).
  { intros sign r1. destruct s as [|g r']; [intros H; injection H as _ <-; lia |].
    destruct (Ascii.eqb g "-" || Ascii.eqb g "+"); intros H; injection H as _ <-;
      cbn [String.length]; lia. }
  destruct (match s with
            | String g r' =>
                if Ascii.eqb g "-" || Ascii.eqb g "+" then (str1 g, r') else (EmptyString, s)
            | EmptyString => (EmptyString, s)
            end) as [sign r1] eqn:Es.
  specialize (Hsign sign r1 eq_refl).
  destruct (Json.span_digits r1) as [ds rest] eqn:E.
  pose proof (span_digits_length r1 ds rest E) as L.
  destruct ds; intros H; injection H as _ <-; cbn [String.length] in *; lia.
Qed.

Lemma scan_number_length (s : string) (v : pyval) (rest : string) :
  Json.scan_number s = Some (v, rest) -> String.length rest < String.length s.
Proof.
  unfold Json.scan_number.
  destruct (match s with
            | String c r => if Ascii.eqb c "-" then (true, r) else (false, s)
            | EmptyString => (false, s)
            end) as [neg s1] eqn:Es.
  assert (L1 : String.length s1 <= String.length s).
  { destruct s as [|c r]; [injection Es as _ <-; lia |].
    destruct (Ascii.eqb c "-"); injection Es as _ <-; cbn [String.length]; lia. }
  destruct s1 as [|d r]; [discriminate |].
  assert (Hint : forall ds rest0,
             (if Ascii.eqb d "0" then Some (str1 d, r)
              else if Text.isdigit d then Some (Json.span_digits (String d r))
              else None) = Some (ds, rest0) ->
             String.length rest0 < String.length (String d r)).
  { intros ds rest0. destruct (Ascii.eqb d "0").
    - intros H. injection H as _ <-. cbn [String.length]. lia.
    - destruct (Text.isdigit d) eqn:Hd; [| discriminate].
      intros H.
      assert (H' : Json.span_digits (String d r) = (ds, rest0)) by congruence.
      pose proof (span_digits_length (String d r) ds rest0 H') as L.
      cbn [Json.span_digits] in H'. rewrite Hd in H'.
      destruct (Json.span_digits r) as [ds' r']. injection H' as <- _.
      cbn [String.length] in *. lia. }
  destruct (if Ascii.eqb d "0" then Some (str1 d, r)
            else if Text.isdigit d then Some (Json.span_digits (String d r))
            else None) as [[ds rest0]|]; [| discriminate].
  specialize (Hint ds rest0 eq_refl).
  destruct (Json.scan_frac rest0) as [frac rest1] eqn:Ef.
  destruct (Json.scan_exp rest1) as [exp rest2] eqn:Ee.
  pose proof (scan_frac_length _ _ _ Ef) as Lf. pose proof (scan_exp_length _ _ _ Ee) as Le.
  intros Hres.
  assert (rest = rest2)
    by (destruct frac; destruct exp; injection Hres as _ <-; reflexivity).
  subst rest. lia.
Qed.

Lemma prefix_drop_length (p s : string) :
  String.prefix p s = true ->
  String.length (Text.drop (String.length p) s) + String.length p = String.length s.
Proof.
  revert s. induction p as [|a p IH]; intros s H.
  - cbn [String.length Text.drop]. destruct s; cbn [Text.drop]; lia.
  - destruct s as [|b s]; [discriminate |]. cbn [String.prefix] in H.
    destruct (ascii_dec a b); [| discriminate].
    cbn [String.length Text.drop]. pose proof (IH s H). lia.
Qed.

Lemma scan_once_step (f : nat) (c : ascii) (r : string) :
  Json.scan_once (S f) (String c r)
  = if Ascii.eqb c dquote then
      match Json.scanstring r with
      | Some (body, rest) => Some (VStr body, rest)
      | None => None
      end
    else if Ascii.eqb c "{" then
      match Json.skip_ws r with
      | String c1 r1 =>
          if Ascii.eqb c1 "}" then Some (VDict [], r1)
          else if Ascii.eqb c1 dquote then
            match Json.object_loop f r1 with
            | Some (pairs, rest) => Some (VDict (Dict.of_pairs pairs), rest)
            | None => None
            end
          else None
      | EmptyString => None
      end
    else if Ascii.eqb c "[" then
      match Json.skip_ws r with
      | String c1 r1 =>
          if Ascii.eqb c1 "]" then Some (VList [], r1)
          else
            match Json.array_loop f (String c1 r1) with
            | Some (values, rest) => Some (VList values, rest)
            | None => None
            end
      | EmptyString => None
      end
    else if String.prefix "null" (String c r) then Some (VNone, Text.drop 4 (String c r))
    else if String.prefix "true" (String c r) then Some (VBool true, Text.drop 4 (String c r))
    else if String.prefix "false" (String c r) then Some (VBool false, Text.drop 5 (String c r))
    else
      match Json.scan_number (String c r) with
      | Some x => Some x
      | None =>
          if String.prefix "NaN" (String c r) then Some (VFloat "nan", Text.drop 3 (String c r))
          else if String.prefix "Infinity" (String c r)
               then Some (VFloat "inf", Text.drop 8 (String c r))
          else if String.prefix "-Infinity" (String c r)
               then Some (VFloat "-inf", Text.drop 9 (String c r))
          else None
      end.
Proof. reflexivity. Qed.

Lemma scan_once_empty (f : nat) : Json.scan_once f EmptyString = None.
Proof. destruct f; reflexivity. Qed.

Ltac scanned_rest H :=
  match type of H with
  | Some (_, ?x) = Some (_, ?rest) =>
      let E := fresh "E" in
      assert (E : rest = x) by congruence; rewrite E; clear E H
  end.

(** Every scan consumes at least one character. *)
Lemma scan_progress (f : nat) :
  (forall s v rest, Json.scan_once f s = Some (v, rest) ->
                    String.length rest < String.length s)
  /\ (forall s l rest, Json.array_loop f s = Some (l, rest) ->
                       String.length rest < String.length s)
  /\ (forall s d rest, Json.object_loop f s = Some (d, rest) ->
                       String.length rest < String.length s).
Proof.
  induction f as [|f (IHs & IHa & IHo)]; [repeat split; intros; discriminate |].
  split; [| split].
  - intros s v rest H. destruct s as [|c r]; [discriminate |].
    rewrite scan_once_step in H.
    destruct (Ascii.eqb c dquote).
    { destruct (Json.scanstring r) as [[body rest']|] eqn:E; [| discriminate].
      injection H as _ <-. apply scanstring_length in E. cbn [String.length]. lia. }
    destruct (Ascii.eqb c "{").
    { destruct (Json.skip_ws r) as [|c1 r1] eqn:E; [discriminate |].
      apply skip_ws_cons_length in E.
      destruct (Ascii.eqb c1 "}").
      { injection H as _ <-. cbn [String.length]. lia. }
      destruct (Ascii.eqb c1 dquote); [| discriminate].
      destruct (Json.object_loop f r1) as [[pairs rest']|] eqn:Eo; [| discriminate].
      injection H as _ <-. apply IHo in Eo. cbn [String.length]. lia. }
    destruct (Ascii.eqb c "[").
    { destruct (Json.skip_ws r) as [|c1 r1] eqn:E; [discriminate |].
      apply skip_ws_cons_length in E.
      destruct (Ascii.eqb c1 "]").
      { injection H as _ <-. cbn [String.length]. lia. }
      destruct (Json.array_loop f (String c1 r1)) as [[values rest']|] eqn:Ea;
        [| discriminate].
      injection H as _ <-. apply IHa in Ea. cbn [String.length] in *. lia. }
    destruct (String.prefix "null" (String c r)) eqn:P1.
    { scanned_rest H. apply prefix_drop_length in P1.
      change (String.length "null") with 4 in P1. lia. }
    destruct (String.prefix "true" (String c r)) eqn:P2.
    { scanned_rest H. apply prefix_drop_length in P2.
      change (String.length "true") with 4 in P2. lia. }
    destruct (String.prefix "false" (String c r)) eqn:P3.
    { scanned_rest H. apply prefix_drop_length in P3.
      change (String.length "false") with 5 in P3. lia. }
    destruct (Json.scan_number (String c r)) as [[v' rest']|] eqn:En.
    { injection H as _ <-. now apply scan_number_length in En. }
    destruct (String.prefix "NaN" (String c r)) eqn:P4.
    { scanned_rest H. apply prefix_drop_length in P4.
      change (String.length "NaN") with 3 in P4. lia. }
    destruct (String.prefix "Infinity" (String c r)) eqn:P5.
    { scanned_rest H. apply prefix_drop_length in P5.
      change (String.length "Infinity") with 8 in P5. lia. }
    destruct (String.prefix "-Infinity" (String c r)) eqn:P6; [| discriminate].
    scanned_rest H. apply prefix_drop_length in P6.
    change (String.length "-Infinity") with 9 in P6. lia.
  - intros s l rest H. rewrite array_loop_step in H.
    destruct (Json.scan_once f s) as [[value s1]|] eqn:E; [| discriminate].
    apply IHs in E.
    destruct (Json.skip_ws s1) as [|c r] eqn:Ew; [discriminate |].
    apply skip_ws_cons_length in Ew.
    destruct (Ascii.eqb c "]").
    { injection H as _ <-. lia. }
    destruct (Ascii.eqb c ","); [| discriminate].
    destruct (Json.array_loop f (Json.skip_ws r)) as [[values rest']|] eqn:Ea;
      [| discriminate].
    injection H as _ <-. apply IHa in Ea. pose proof (skip_ws_length r). lia.
  - intros s d rest H. rewrite object_loop_step in H.
    destruct (Json.scanstring s) as [[key s1]|] eqn:E; [| discriminate].
    apply scanstring_length in E.
    destruct (Json.skip_ws s1) as [|c r] eqn:Ew; [discriminate |].
    apply skip_ws_cons_length in Ew.
    destruct (Ascii.eqb c ":"); [| discriminate].
    destruct (Json.scan_once f (Json.skip_ws r)) as [[value s2]|] eqn:Es; [| discriminate].
    apply IHs in Es. pose proof (skip_ws_length r) as Lr.
    destruct (Json.skip_ws s2) as [|c2 r2] eqn:Ew2; [discriminate |].
    apply skip_ws_cons_length in Ew2.
    destruct (Ascii.eqb c2 "}").
    { injection H as _ <-. lia. }
    destruct (Ascii.eqb c2 ","); [| discriminate].
    destruct (Json.skip_ws r2) as [|c3 r3] eqn:Ew3; [discriminate |].
    apply skip_ws_cons_length in Ew3.
    destruct (Ascii.eqb c3 dquote); [| discriminate].
    destruct (Json.object_loop f r3) as [[pairs rest']|] eqn:Eo; [| discriminate].
    injection H as _ <-. apply IHo in Eo. lia.
Qed.

(** Past twice the length of the text, more fuel changes nothing. *)
Lemma scan_fuel_stable (n : nat) :
  forall s, String.length s < n ->
    (forall f1 f2, 2 * String.length s + 1 <= f1 -> 2 * String.length s + 1 <= f2 ->
                   Json.scan_once f1 s = Json.scan_once f2 s)
    /\ (forall f1 f2, 2 * String.length s + 2 <= f1 -> 2 * String.length s + 2 <= f2 ->
                      Json.array_loop f1 s = Json.array_loop f2 s)
    /\ (forall f1 f2, 2 * String.length s + 2 <= f1 -> 2 * String.length s + 2 <= f2 ->
                      Json.object_loop f1 s = Json.object_loop f2 s).
Proof.
  induction n as [|n IH]; [intros s H; lia |].
  intros s Hn.
  assert (Hscan : forall f1 f2, 2 * String.length s + 1 <= f1 -> 2 * String.length s + 1 <= f2 ->
                                Json.scan_once f1 s = Json.scan_once f2 s).
  { intros f1 f2 H1 H2.
    destruct f1 as [|f1]; [lia |]. destruct f2 as [|f2]; [lia |].
    destruct s as [|c r]; [reflexivity |].
    cbn [String.length] in *. rewrite !scan_once_step.
    destruct (Ascii.eqb c dquote); [reflexivity |].
    destruct (Ascii.eqb c "{").
    { destruct (Json.skip_ws r) as [|c1 r1] eqn:E; [reflexivity |].
      apply skip_ws_cons_length in E.
      destruct (Ascii.eqb c1 "}"); [reflexivity |].
      destruct (Ascii.eqb c1 dquote); [| reflexivity].
      destruct (IH r1 ltac:(lia)) as (_ & _ & Ho).
      now rewrite (Ho f1 f2 ltac:(lia) ltac:(lia)). }
    destruct (Ascii.eqb c "["); [| reflexivity].
    destruct (Json.skip_ws r) as [|c1 r1] eqn:E; [reflexivity |].
    apply skip_ws_cons_length in E.
    destruct (Ascii.eqb c1 "]"); [reflexivity |].
    destruct (IH (String c1 r1) ltac:(cbn [String.length]; lia)) as (_ & Ha & _).
    cbn [String.length] in Ha.
    now rewrite (Ha f1 f2 ltac:(lia) ltac:(lia)). }
  split; [exact Hscan |]. split.
  - intros f1 f2 H1 H2.
    destruct f1 as [|f1]; [lia |]. destruct f2 as [|f2]; [lia |].
    rewrite !array_loop_step, (Hscan f1 f2 ltac:(lia) ltac:(lia)).
    destruct (Json.scan_once f2 s) as [[value s1]|] eqn:E; [| reflexivity].
    apply (proj1 (scan_progress f2)) in E.
    destruct (Json.skip_ws s1) as [|c r] eqn:Ew; [reflexivity |].
    apply skip_ws_cons_length in Ew.
    destruct (Ascii.eqb c "]"); [reflexivity |].
    destruct (Ascii.eqb c ","); [| reflexivity].
    pose proof (skip_ws_length r) as Lr.
    destruct (IH (Json.skip_ws r) ltac:(lia)) as (_ & Ha & _).
    now rewrite (Ha f1 f2 ltac:(lia) ltac:(lia)).
  - intros f1 f2 H1 H2.
    destruct f1 as [|f1]; [lia |]. destruct f2 as [|f2]; [lia |].
    rewrite !object_loop_step.
    destruct (Json.scanstring s) as [[key s1]|] eqn:E; [| reflexivity].
    apply scanstring_length in E.
    destruct (Json.skip_ws s1) as [|c r] eqn:Ew; [reflexivity |].
    apply skip_ws_cons_length in Ew.
    destruct (Ascii.eqb c ":"); [| reflexivity].
    pose proof (skip_ws_length r) as Lr.
    destruct (IH (Json.skip_ws r) ltac:(lia)) as (Hs & _ & _).
    rewrite (Hs f1 f2 ltac:(lia) ltac:(lia)).
    destruct (Json.scan_once f2 (Json.skip_ws r)) as [[value s2]|] eqn:Es; [| reflexivity].
    apply (proj1 (scan_progress f2)) in Es.
    destruct (Json.skip_ws s2) as [|c2 r2] eqn:Ew2; [reflexivity |].
    apply skip_ws_cons_length in Ew2.
    destruct (Ascii.eqb c2 "}"); [reflexivity |].
    destruct (Ascii.eqb c2 ","); [| reflexivity].
    destruct (Json.skip_ws r2) as [|c3 r3] eqn:Ew3; [reflexivity |].
    apply skip_ws_cons_length in Ew3.
    destruct (Ascii.eqb c3 dquote); [| reflexivity].
    destruct (IH r3 ltac:(lia)) as (_ & _ & Ho).
    now rewrite (Ho f1 f2 ltac:(lia) ltac:(lia)).
Qed.

(** More fuel never changes a result. *)
Lemma scan_fuel_monotone (f : nat) :
  (forall s x, Json.scan_once f s = Some x -> Json.scan_once (S f) s = Some x)
  /\ (forall s x, Json.array_loop f s = Some x -> Json.array_loop (S f) s = Some x)
  /\ (forall s x, Json.object_loop f s = Some x -> Json.object_loop (S f) s = Some x).
Proof.
  induction f as [|f (IHs & IHa & IHo)]; [repeat split; intros; discriminate |].
  split; [| split].
  - intros s x H. destruct s as [|c r]; [discriminate |].
    rewrite scan_once_step in H. rewrite scan_once_step.
    destruct (Ascii.eqb c dquote); [exact H |].
    destruct (Ascii.eqb c "{").
    { destruct (Json.skip_ws r) as [|c1 r1]; [discriminate |].
      destruct (Ascii.eqb c1 "}"); [exact H |].
      destruct (Ascii.eqb c1 dquote); [| discriminate].
      destruct (Json.object_loop f r1) as [y|] eqn:E; [| discriminate].
      now rewrite (IHo r1 y E). }
    destruct (Ascii.eqb c "["); [| exact H].
    destruct (Json.skip_ws r) as [|c1 r1]; [discriminate |].
    destruct (Ascii.eqb c1 "]"); [exact H |].
    destruct (Json.array_loop f (String c1 r1)) as [y|] eqn:E; [| discriminate].
    now rewrite (IHa _ y E).
  - intros s x H. rewrite array_loop_step in H. rewrite array_loop_step.
    destruct (Json.scan_once f s) as [[value s1]|] eqn:E; [| discriminate].
    rewrite (IHs s _ E).
    destruct (Json.skip_ws s1) as [|c r]; [discriminate |].
    destruct (Ascii.eqb c "]"); [exact H |].
    destruct (Ascii.eqb c ","); [| discriminate].
    destruct (Json.array_loop f (Json.skip_ws r)) as [y|] eqn:Ea; [| discriminate].
    now rewrite (IHa _ y Ea).
  - intros s x H. rewrite object_loop_step in H. rewrite object_loop_step.
    destruct (Json.scanstring s) as [[key s1]|]; [| discriminate].
    destruct (Json.skip_ws s1) as [|c r]; [discriminate |].
    destruct (Ascii.eqb c ":"); [| discriminate].
    destruct (Json.scan_once f (Json.skip_ws r)) as [[value s2]|] eqn:Es; [| discriminate].
    rewrite (IHs _ _ Es).
    destruct (Json.skip_ws s2) as [|c2 r2]; [discriminate |].
    destruct (Ascii.eqb c2 "}"); [exact H |].
    destruct (Ascii.eqb c2 ","); [| discriminate].
    destruct (Json.skip_ws r2) as [|c3 r3]; [discriminate |].
    destruct (Ascii.eqb c3 dquote); [| discriminate].
    destruct (Json.object_loop f r3) as [y|] eqn:Eo; [| discriminate].
    now rewrite (IHo _ y Eo).
Qed.

Lemma scan_once_more_fuel (f f' : nat) (s : string) (x : pyval * string) :
  f <= f' -> Json.scan_once f s = Some x -> Json.scan_once f' s = Some x.
Proof.
  induction 1 as [|f' _ IH]; [trivial |].
  intros H. apply (proj1 (scan_fuel_monotone f')). exact (IH H).
Qed.

(** The fuel of [Json.loads] is enough: what the scanner finds with any
    fuel, it finds with that fuel. *)
Lemma scan_once_fuel_for (f : nat) (s : string) (x : pyval * string) :
  Json.scan_once f s = Some x -> Json.scan_once (Json.fuel_for s) s = Some x.
Proof.
  intros H.
  pose proof (scan_once_more_fuel f (Nat.max f (Json.fuel_for s)) s x
                (Nat.le_max_l _ _) H) as Hbig.
  destruct (scan_fuel_stable (S (String.length s)) s ltac:(lia)) as (Hs & _).
  rewrite <- Hbig. apply Hs; unfold Json.fuel_for; lia.
Qed.

(* ====================================================================== *)
(** * String literals: what the escaping functions keep *)
(* ====================================================================== *)

Lemma string_prefix_nil (x : string) : String.prefix EmptyString x = true.
Proof. destruct x; reflexivity. Qed.

(** X1: whatever the string [s], [json.loads] reads the literal that
    [to_agtype_value] writes for it back to [s]: quotes, backslashes and
    control characters are escaped, and nothing else is touched. *)
Theorem string_literal_round_trip (s : string) :
  Json.loads (to_agtype_value (VStr s)) = Some (VStr s).
Proof.
  cbn [to_agtype_value]. unfold Json.loads, quoted.
  change (Json.skip_ws (String dquote ?x)) with (String dquote x).
  unfold Json.fuel_for. cbn [String.length Nat.mul Nat.add].
  rewrite scan_once_string, escape_agtype_string_chars.
  change (str1 dquote) with (String dquote EmptyString).
  now rewrite scanstring_escaped.
Qed.

Lemma escape_sql_literal_cons (c : ascii) (r : string) :
  escape_sql_literal (String c r)
  = (if Ascii.eqb c "'" then "''" else str1 c) ++ escape_sql_literal r.
Proof. apply (replace_char_cons "'" "''" c r). Qed.

Lemma replace_from_skip (old new : string) (k : nat) (c : ascii) (r : string) :
  Text.replace_from old new (S k) (String c r) = Text.replace_from old new k r.
Proof. reflexivity. Qed.

Lemma replace_from_scan (old new : string) (c : ascii) (r : string) :
  Text.replace_from old new 0 (String c r)
  = if String.prefix old (String c r)
    then new ++ Text.replace_from old new (String.length old - 1) r
    else String c (Text.replace_from old new 0 r).
Proof. reflexivity. Qed.

Lemma prefix_head_differs (a : ascii) (p : string) (c : ascii) (r : string) :
  Ascii.eqb c a = false -> String.prefix (String a p) (String c r) = false.
Proof.
  intros H. cbn [String.prefix]. destruct (ascii_dec a c) as [->|]; [| reflexivity].
  now rewrite Ascii.eqb_refl in H.
Qed.

Lemma prefix_second_differs (a b : ascii) (p : string) (c d : ascii) (r : string) :
  Ascii.eqb d b = false -> String.prefix (String a (String b p)) (String c (String d r)) = false.
Proof.
  intros H. cbn [String.prefix]. destruct (ascii_dec a c); [| reflexivity].
  destruct (ascii_dec b d) as [->|]; [| reflexivity].
  now rewrite Ascii.eqb_refl in H.
Qed.

(** X2: [escape_sql_literal] doubles every single quote and nothing else:
    replacing the doubled quotes by single ones gives the text back. *)
Theorem escape_sql_literal_undone (s : string) :
  Text.replace "''" "'" (escape_sql_literal s) = s.
Proof.
  unfold Text.replace. induction s as [|c r IH]; [reflexivity |].
  rewrite escape_sql_literal_cons.
  destruct (Ascii.eqb c "'") eqn:E.
  - apply Ascii.eqb_eq in E. subst c.
    change ("''" ++ ?x) with (String "'" (String "'" x)).
    rewrite replace_from_scan.
    change (String.prefix "''" (String "'" (String "'" ?x))) with (String.prefix EmptyString x).
    rewrite string_prefix_nil. change (String.length "''" - 1) with 1.
    rewrite replace_from_skip, IH. reflexivity.
  - change (str1 c ++ ?x) with (String c x).
    rewrite replace_from_scan, (prefix_head_differs "'" "'" c _ E), IH. reflexivity.
Qed.

(** The body of a Cypher string literal, character by character. *)
Lemma cypher_body_cons (c : ascii) (r : string) :
  Text.replace "'" (String backslash "'")
    (Text.replace (str1 backslash) (String backslash (str1 backslash)) (String c r))
  = (if Ascii.eqb c backslash then String backslash (str1 backslash)
     else if Ascii.eqb c "'" then String backslash "'"
     else str1 c)
    ++ Text.replace "'" (String backslash "'")
         (Text.replace (str1 backslash) (String backslash (str1 backslash)) r).
Proof.
  rewrite (replace_char_cons backslash _ c r).
  change "'" with (str1 "'") at 1 3.
  rewrite (replace_char_app "'").
  f_equal.
  destruct (Ascii.eqb c backslash) eqn:E1; [reflexivity |].
  destruct (Ascii.eqb c "'") eqn:E2.
  - apply Ascii.eqb_eq in E2. subst c. reflexivity.
  - unfold str1. rewrite (replace_char_cons "'" _ c EmptyString), E2. reflexivity.
Qed.

Lemma cypher_body_head (s : string) :
  match Text.replace "'" (String backslash "'")
          (Text.replace (str1 backslash) (String backslash (str1 backslash)) s) with
  | EmptyString => True
  | String h _ => Ascii.eqb h "'" = false
  end.
Proof.
  destruct s as [|c r]; [exact I |].
  rewrite cypher_body_cons.
  destruct (Ascii.eqb c backslash); [reflexivity |].
  destruct (Ascii.eqb c "'") eqn:E; [reflexivity | exact E].
Qed.

Lemma double_backslash_cons (c : ascii) (r : string) :
  Text.replace (str1 backslash) (String backslash (str1 backslash)) (String c r)
  = (if Ascii.eqb c backslash then String backslash (str1 backslash) else str1 c)
    ++ Text.replace (str1 backslash) (String backslash (str1 backslash)) r.
Proof. apply replace_char_cons. Qed.

Lemma no_quote_after_backslash (body : string) :
  match body with
  | EmptyString => True
  | String h _ => Ascii.eqb h "'" = false
  end ->
  String.prefix (String backslash "'") (String backslash body) = false.
Proof.
  destruct body as [|h t]; [reflexivity |].
  intros H. exact (prefix_second_differs backslash "'" EmptyString backslash h t H).
Qed.

(** Un-escaping the quotes of a body leaves the doubled backslashes. *)
Lemma cypher_body_quotes_undone (s : string) :
  Text.replace (String backslash "'") "'"
    (Text.replace "'" (String backslash "'")
       (Text.replace (str1 backslash) (String backslash (str1 backslash)) s))
  = Text.replace (str1 backslash) (String backslash (str1 backslash)) s.
Proof.
  induction s as [|c r IH]; [reflexivity |].
  rewrite cypher_body_cons, double_backslash_cons.
  pose proof (no_quote_after_backslash _ (cypher_body_head r)) as Hh.
  set (body := Text.replace "'" (String backslash "'")
                 (Text.replace (str1 backslash) (String backslash (str1 backslash)) r)) in *.
  unfold Text.replace at 1. unfold Text.replace at 1 in IH.
  destruct (Ascii.eqb c backslash) eqn:E1.
  - change (String backslash (str1 backslash) ++ ?x) with (String backslash (String backslash x)).
    rewrite replace_from_scan,
      (prefix_second_differs backslash "'" EmptyString backslash backslash _ eq_refl).
    rewrite replace_from_scan, Hh, IH. reflexivity.
  - destruct (Ascii.eqb c "'") eqn:E2.
    + change (String backslash "'" ++ ?x) with (String backslash (String "'" x)).
      rewrite replace_from_scan.
      change (String.prefix (String backslash "'") (String backslash (String "'" ?x)))
        with (String.prefix EmptyString x).
      rewrite string_prefix_nil.
      change (String.length (String backslash "'") - 1) with 1.
      rewrite replace_from_skip, IH.
      apply Ascii.eqb_eq in E2. subst c. reflexivity.
    + change (str1 c ++ ?x) with (String c x).
      rewrite replace_from_scan, (prefix_head_differs backslash "'" c _ E1), IH.
      reflexivity.
Qed.

Lemma double_backslash_undone (s : string) :
  Text.replace (String backslash (str1 backslash)) (str1 backslash)
    (Text.replace (str1 backslash) (String backslash (str1 backslash)) s)
  = s.
Proof.
  induction s as [|c r IH]; [reflexivity |].
  rewrite double_backslash_cons.
  unfold Text.replace at 1. unfold Text.replace at 1 in IH.
  destruct (Ascii.eqb c backslash) eqn:E.
  - change (String backslash (str1 backslash) ++ ?x) with (String backslash (String backslash x)).
    rewrite replace_from_scan.
    change (String.prefix (String backslash (str1 backslash))
              (String backslash (String backslash ?x)))
      with (String.prefix EmptyString x).
    rewrite string_prefix_nil.
    change (String.length (String backslash (str1 backslash)) - 1) with 1.
    rewrite replace_from_skip, IH.
    apply Ascii.eqb_eq in E. subst c. reflexivity.
  - change (str1 c ++ ?x) with (String c x).
    rewrite replace_from_scan, (prefix_head_differs backslash (str1 backslash) c _ E), IH.
    reflexivity.
Qed.

(** X3: the literal [format_cypher_value] writes for a string is the body
    between single quotes, and the escaping of the body loses nothing:
    replacing backslash-quote by a quote and then two backslashes by one
    gives the string back. *)
Theorem cypher_string_literal_undone (s : string) :
  exists body,
    format_cypher_value (VStr s) = "'" ++ body ++ "'"
    /\ Text.replace (String backslash (str1 backslash)) (str1 backslash)
         (Text.replace (String backslash "'") "'" body)
       = s.
Proof.
  eexists. split; [reflexivity |].
  now rewrite cypher_body_quotes_undone, double_backslash_undone.
Qed.

(* ====================================================================== *)
(** * Parameter substitution on values without backslashes *)
(* ====================================================================== *)

Lemma template_plain (t : string) :
  Shape.no_char backslash t = true ->
  exists p, Template.parse t = Some p /\ forall m, Template.render m p = t.
Proof.
  unfold Template.parse. induction t as [|c r IH]; [exists []; split; reflexivity |].
  cbn [Shape.no_char]. intros H. apply andb_true_iff in H as [Hc Hr].
  apply negb_true_iff in Hc. destruct (IH Hr) as (p & Hp & Hrender).
  exists (Template.Lit c :: p). split.
  - cbn [Template.parse_from]. unfold Template.step_normal. rewrite Hc, Hp. reflexivity.
  - intros m. cbn [Template.render]. now rewrite Hrender.
Qed.

Lemma string_prefix_app (p x : string) : String.prefix p (p ++ x) = true.
Proof.
  induction p as [|a p IH]; [apply string_prefix_nil |].
  change (String a p ++ x) with (String a (p ++ x)).
  cbn [String.prefix]. destruct (ascii_dec a a); [exact IH | congruence].
Qed.

Lemma drop_app (p x : string) : Text.drop (String.length p) (p ++ x) = x.
Proof. induction p as [|a p IH]; [reflexivity | exact IH]. Qed.

Lemma param_match_here (key post : string) :
  Shape.ends_name post = true -> param_match key ("$" ++ key ++ post) = true.
Proof.
  intros H. unfold param_match.
  rewrite <- append_assoc, string_prefix_app.
  change (S (String.length key)) with (String.length ("$" ++ key)).
  rewrite drop_app. destruct post; [reflexivity | exact H].
Qed.

Lemma param_match_other (key : string) (c : ascii) (r : string) :
  Ascii.eqb c "$" = false -> param_match key (String c r) = false.
Proof.
  intros H. unfold param_match.
  change ("$" ++ key) with (String "$" key).
  now rewrite (prefix_head_differs "$" key c r H).
Qed.

Lemma sub_param_no_dollar (key repl s : string) :
  Shape.no_char "$" s = true -> sub_param_from key repl 0 s = s.
Proof.
  induction s as [|c r IH]; [reflexivity |].
  cbn [Shape.no_char]. intros H. apply andb_true_iff in H as [Hc Hr].
  apply negb_true_iff in Hc.
  cbn [sub_param_from]. now rewrite (param_match_other key c r Hc), (IH Hr).
Qed.

Lemma sub_param_skip (key repl : string) (a x : string) :
  sub_param_from key repl (String.length a) (a ++ x) = sub_param_from key repl 0 x.
Proof. induction a as [|c a IH]; [reflexivity | exact IH]. Qed.

Lemma sub_param_one (key repl pre post : string) :
  Shape.no_char "$" pre = true -> Shape.no_char "$" post = true ->
  Shape.ends_name post = true ->
  sub_param_from key repl 0 (pre ++ "$" ++ key ++ post) = pre ++ repl ++ post.
Proof.
  intros Hpre Hpost Hend. induction pre as [|c r IH].
  - change (EmptyString ++ ?x) with x.
    change ("$" ++ key ++ post) with (String "$" (key ++ post)).
    cbn [sub_param_from].
    change (String "$" (key ++ post)) with ("$" ++ key ++ post).
    rewrite (param_match_here key post Hend), sub_param_skip,
      (sub_param_no_dollar key repl post Hpost).
    reflexivity.
  - cbn [Shape.no_char] in Hpre. apply andb_true_iff in Hpre as [Hc Hr].
    apply negb_true_iff in Hc.
    change (String c r ++ ?x) with (String c (r ++ x)).
    cbn [sub_param_from]. now rewrite (param_match_other key c _ Hc), (IH Hr).
Qed.

(** One placeholder and a literal without backslash. *)
Lemma substitute_one_plain (pre post key : string) (v : pyval) :
  Shape.no_char "$" pre = true -> Shape.no_char "$" post = true ->
  Shape.ends_name post = true ->
  Shape.no_char backslash (format_cypher_value v) = true ->
  substitute_cypher_params (pre ++ "$" ++ key ++ post) (Some [(key, v)])
  = Ok (pre ++ format_cypher_value v ++ post).
Proof.
  intros Hpre Hpost Hend Hplain.
  destruct (template_plain _ Hplain) as (p & Hp & Hrender).
  cbn [substitute_cypher_params Dict.keys map fst sorted_by_len_desc fold_right
       insert_by_len substitute_keys Dict.get].
  rewrite String.eqb_refl. unfold re_sub_param. rewrite Hp, Hrender.
  now rewrite (sub_param_one key _ pre post Hpre Hpost Hend).
Qed.

(** X4: when the text has one placeholder [$key], followed by a character
    that cannot go on a name, and no other dollar sign, and the literal of
    the value has no backslash, [substitute_cypher_params] puts the literal
    [format_cypher_value v] in the place of the placeholder. *)
Theorem substitute_plain_value (pre post key : string) (v : pyval) :
  Shape.no_char "$" pre = true -> Shape.no_char "$" post = true ->
  Shape.ends_name post = true ->
  Shape.no_char backslash (format_cypher_value v) = true ->
  substitute_cypher_params (pre ++ "$" ++ key ++ post) (Some [(key, v)])
  = Ok (pre ++ format_cypher_value v ++ post).
Proof. exact (substitute_one_plain pre post key v). Qed.

Lemma substitute_plain_value_witness :
  substitute_cypher_params ("MATCH (n) WHERE n.age > " ++ "$" ++ "min" ++ " RETURN n")
    (Some [("min", VInt 18)])
  = Ok ("MATCH (n) WHERE n.age > " ++ format_cypher_value (VInt 18) ++ " RETURN n").
Proof.
  apply (substitute_plain_value "MATCH (n) WHERE n.age > " " RETURN n" "min" (VInt 18));
    reflexivity.
Defined.

(* ====================================================================== *)
(** * The parsers of the bracket format *)
(* ====================================================================== *)

Example parse_agtype_vertex_ex :
  parse_agtype_vertex (qq "Person[844424930131969.1]{`name`: `Al}ice`, `age`: 30} ")
  = Ok [("label", VStr "Person"); ("graph_id", VInt 8444249301319691);
        ("properties", VDict [("name", VStr "Al}ice"); ("age", VInt 30)])].
Proof. vm_compute. reflexivity. Qed.

Example parse_agtype_edge_ex :
  parse_agtype_edge (qq "KNOWS[1.2][3.4,5.6]{}")
  = Ok [("label", VStr "KNOWS"); ("graph_id", VInt 12); ("start_id", VInt 34);
        ("end_id", VInt 56); ("properties", VDict [])].
Proof. vm_compute. reflexivity. Qed.







Lemma strip_keeps_head (c : ascii) (r : string) :
  Text.isspace c = false -> exists r', Text.strip (String c r) = String c r'.
Proof.
  intros H. unfold Text.strip. cbn [Text.lstrip]. rewrite H. cbn [Text.rstrip].
  destruct (Text.rstrip r) as [|c' r'']; [rewrite H |]; eauto.
Qed.











(** X7: the JSON form of a record, which is what the result-cell decoder
    reads, is no input for the two bracket parsers: whatever the map and
    whatever follows it, both raise ValueError. *)
Theorem bracket_parsers_reject_json (d : list (string * pyval)) (tail : string) :
  parse_agtype_vertex (to_agtype_value (VDict d) ++ tail) = Raise ValueError
  /\ parse_agtype_edge (to_agtype_value (VDict d) ++ tail) = Raise ValueError.
Proof.
  rewrite encoded_dict.
  change (("{" ++ ?x) ++ tail) with (String "{" (x ++ tail)).
  destruct (strip_keeps_head "{" ((Text.join ", " (map RoundTrip.item_text d) ++ "}") ++ tail)
              eq_refl) as (r' & E).
  unfold parse_agtype_vertex, parse_agtype_edge. rewrite E. split; reflexivity.
Qed.

(* ====================================================================== *)
(** * The decoder on tagged cells *)
(* ====================================================================== *)

Lemma word_char_no_closer (c : ascii) :
  Text.is_word_char c = true -> is_closer c = false /\ Text.isspace c = false.
Proof.
  destruct c as [[] [] [] [] [] [] [] []]; intros H; try discriminate H; split; reflexivity.
Qed.

Lemma all_word_closer_free (tag : string) :
  all_word tag = true -> RoundTrip.closer_free tag = true.
Proof.
  induction tag as [|c tag IH]; [reflexivity |].
  cbn [all_word RoundTrip.closer_free]. intros H. apply andb_true_iff in H as [Hc Ht].
  destruct (word_char_no_closer c Hc) as (Hcl & _). now rewrite Hcl, (IH Ht).
Qed.

Lemma closer_free_tag_free (s : string) :
  RoundTrip.closer_free s = true -> RoundTrip.tag_free s = true.
Proof.
  intros H. rewrite <- (append_nil_r s). now rewrite (tag_free_closer_free s EmptyString H).
Qed.

Lemma tag_suffix_tag_free (tag : string) :
  all_word tag = true -> RoundTrip.tag_free ("::" ++ tag) = true.
Proof.
  intros H. change ("::" ++ tag) with (String ":" (String ":" tag)).
  rewrite !tag_free_cons. cbn [is_closer]. change (Ascii.eqb ":" "]") with false.
  change (Ascii.eqb ":" "}") with false. cbn [orb andb negb].
  apply closer_free_tag_free. now apply all_word_closer_free.
Qed.

Lemma ends_solid_app (a b : string) :
  b <> EmptyString -> RoundTrip.ends_solid (a ++ b) = RoundTrip.ends_solid b.
Proof.
  intros Hb. induction a as [|x a IH]; [reflexivity |].
  change (String x a ++ b) with (String x (a ++ b)).
  destruct (a ++ b) as [|y t] eqn:E; [destruct a; [exact (False_ind _ (Hb E)) | discriminate] |].
  exact IH.
Qed.

Lemma all_word_ends_solid (tag : string) :
  all_word tag = true -> RoundTrip.ends_solid tag = true.
Proof.
  induction tag as [|c tag IH]; [reflexivity |].
  cbn [all_word]. intros H. apply andb_true_iff in H as [Hc Ht].
  destruct (word_char_no_closer c Hc) as (_ & Hsp).
  destruct tag as [|c2 tag]; [cbn [RoundTrip.ends_solid]; now rewrite Hsp |].
  exact (IH Ht).
Qed.

Lemma tag_follows_before_tag (r tag : string) :
  r <> EmptyString -> tag_follows (r ++ "::" ++ tag) = tag_follows r.
Proof.
  destruct r as [|c1 [|c2 [|w r]]]; [congruence | | | reflexivity]; intros _.
  - cbn [String.append tag_follows]. now rewrite !andb_false_r.
  - cbn [String.append tag_follows]. now rewrite !andb_false_r.
Qed.

(** A tag after the last character, a closing bracket or brace, of a text
    that has no other bracket tag. *)
Lemma strip_bracket_tags_last_closer (body : string) (c : ascii) (tag : string) :
  RoundTrip.tag_free (body ++ str1 c) = true -> is_closer c = true -> is_tag tag = true ->
  strip_bracket_tags ((body ++ str1 c) ++ "::" ++ tag) = body ++ str1 c.
Proof.
  intros Hfree Hc Ht. induction body as [|x body IH].
  - change ((EmptyString ++ str1 c) ++ "::" ++ tag) with (String c ("::" ++ tag)).
    rewrite <- (append_nil_r tag) at 1.
    now rewrite (strip_bracket_tags_tag c tag EmptyString Hc Ht eq_refl).
  - change (String x body ++ str1 c) with (String x (body ++ str1 c)) in *.
    rewrite tag_free_cons in Hfree. apply andb_true_iff in Hfree as [Hx Hfree].
    apply negb_true_iff in Hx.
    change (String x (body ++ str1 c) ++ ?y) with (String x ((body ++ str1 c) ++ y)).
    rewrite strip_bracket_tags_other.
    + now rewrite (IH Hfree).
    + rewrite tag_follows_before_tag; [exact Hx |]. destruct body; discriminate.
Qed.

(** The decoder takes a tag off the encoding of a safe value. *)
Lemma stripped_text_tagged (v : pyval) (tag : string) :
  RoundTrip.json_safe v = true -> is_tag tag = true ->
  stripped_text (to_agtype_value v ++ "::" ++ tag) = to_agtype_value v.
Proof.
  intros Hs Ht.
  assert (Hw : all_word tag = true) by (destruct tag; [discriminate | exact Ht]).
  assert (Hstrip : Text.strip (to_agtype_value v ++ "::" ++ tag)
                   = to_agtype_value v ++ "::" ++ tag).
  { destruct (encoded_head v Hs) as (c & r & E & Hc).
    destruct (value_start_facts c Hc) as (_ & Hsp & _).
    apply strip_solid.
    - rewrite E. cbn [String.append RoundTrip.starts_solid]. now rewrite Hsp.
    - rewrite ends_solid_app by discriminate.
      change ("::" ++ tag) with (String ":" (String ":" tag)).
      destruct tag as [|t0 tag]; [discriminate |].
      exact (all_word_ends_solid _ Hw). }
  unfold stripped_text. rewrite Hstrip.
  pose proof (strip_encoded v Hs) as Hv.
  assert (Hscalar : RoundTrip.tag_free (to_agtype_value v ++ "::" ++ tag) = true ->
                    Text.strip
                      (strip_trailing_tag
                         (strip_bracket_tags (to_agtype_value v ++ "::" ++ tag)))
                    = to_agtype_value v).
  { intros Hfree. now rewrite (strip_bracket_tags_free _ Hfree), (strip_trailing_tag_end _ tag Ht). }
  assert (Hclosed : forall body c,
             to_agtype_value v = body ++ str1 c -> is_closer c = true ->
             Text.strip
               (strip_trailing_tag
                  (strip_bracket_tags (to_agtype_value v ++ "::" ++ tag)))
             = to_agtype_value v).
  { intros body c E Hc.
    pose proof (encoded_tag_free v Hs) as Hfree. rewrite E in Hfree.
    rewrite E, (strip_bracket_tags_last_closer body c tag Hfree Hc Ht), <- E.
    destruct (encoded_ends v Hs) as (_ & [Hcol | Hhard]).
    - now rewrite (strip_trailing_tag_colon_free _ Hcol).
    - now rewrite (strip_trailing_tag_hard _ Hhard). }
  destruct v as [| b | z | t | s | l | d].
  - apply Hscalar. change (to_agtype_value VNone) with "null".
    rewrite (tag_free_closer_free "null" _ eq_refl). now apply tag_suffix_tag_free.
  - apply Hscalar. destruct b.
    + change (to_agtype_value (VBool true)) with "true".
      rewrite (tag_free_closer_free "true" _ eq_refl). now apply tag_suffix_tag_free.
    + change (to_agtype_value (VBool false)) with "false".
      rewrite (tag_free_closer_free "false" _ eq_refl). now apply tag_suffix_tag_free.
  - apply Hscalar. cbn [to_agtype_value].
    destruct (number_text_solid _ (str_of_int_number_text z)) as (_ & _ & _ & Hc).
    rewrite (tag_free_closer_free _ _ Hc). now apply tag_suffix_tag_free.
  - apply Hscalar. cbn [RoundTrip.json_safe] in Hs. cbn [to_agtype_value].
    destruct (finite_repr_shape t Hs) as (neg & ip & fp & e & -> & Hok).
    destruct (number_text_solid _ (float_text_number_text neg ip fp e Hok)) as (_ & _ & _ & Hc).
    rewrite (tag_free_closer_free _ _ Hc). now apply tag_suffix_tag_free.
  - apply Hscalar. cbn [RoundTrip.json_safe] in Hs. cbn [to_agtype_value].
    apply tag_free_quoted; [exact Hs | now apply tag_suffix_tag_free].
  - apply (Hclosed ("[" ++ Text.join ", " (map to_agtype_value l)) "]"%char); [| reflexivity].
    rewrite encoded_list. now rewrite append_assoc.
  - apply (Hclosed ("{" ++ Text.join ", " (map RoundTrip.item_text d)) "}"%char); [| reflexivity].
    rewrite encoded_dict. now rewrite append_assoc.
Qed.

(** The result for a text cell depends on the stripped text only. *)
Lemma parse_by_stripped_text (s t : string) (rt1 rt2 : string) :
  stripped_text s = stripped_text t ->
  _parse_agtype_result (CStr s) rt1 = _parse_agtype_result (CStr t) rt2.
Proof. intros H. cbn [_parse_agtype_result]. now rewrite H. Qed.

(** X8: a type tag after the encoding of a safe value does not change what
    the decoder returns: the cell [to_agtype_value v] followed by [::] and
    a word decodes like the cell [to_agtype_value v]. *)
Theorem decoder_ignores_type_tag (v : pyval) (tag return_type : string) :
  RoundTrip.json_safe v = true -> is_tag tag = true ->
  _parse_agtype_result (CStr (to_agtype_value v ++ "::" ++ tag)) return_type
  = _parse_agtype_result (CStr (to_agtype_value v)) return_type.
Proof.
  intros Hs Ht. apply parse_by_stripped_text.
  now rewrite (stripped_text_tagged v tag Hs Ht), (stripped_text_encoded v Hs).
Qed.

Lemma decoder_ignores_type_tag_witness :
  _parse_agtype_result (CStr (to_agtype_value (VList [VInt 1; VStr "a]"]) ++ "::" ++ "path")) "raw"
  = _parse_agtype_result (CStr (to_agtype_value (VList [VInt 1; VStr "a]"]))) "raw".
Proof.
  apply (decoder_ignores_type_tag (VList [VInt 1; VStr "a]"]) "path" "raw"); reflexivity.
Defined.

(** ** Records of the graph *)

Lemma dict_get_set_other {A : Type} (k k' : string) (v : A) (d : list (string * A)) :
  k <> k' -> Dict.get k (Dict.set k' v d) = Dict.get k d.
Proof.
  intros Hne. apply String.eqb_neq in Hne.
  induction d as [|[k0 v0] d IH]; cbn [Dict.set Dict.get].
  - now rewrite Hne.
  - destruct (String.eqb k' k0) eqn:E; cbn [Dict.get].
    + apply String.eqb_eq in E. subst k0. now rewrite Hne.
    + now rewrite IH.
Qed.

Lemma dict_get_remove_other {A : Type} (k k' : string) (d : list (string * A)) :
  k <> k' -> Dict.get k (Dict.remove k' d) = Dict.get k d.
Proof.
  intros Hne. apply String.eqb_neq in Hne.
  induction d as [|[k0 v0] d IH]; cbn [Dict.remove Dict.get]; [reflexivity |].
  destruct (String.eqb k' k0) eqn:E; cbn [Dict.get].
  - apply String.eqb_eq in E. subst k0. now rewrite Hne.
  - now rewrite IH.
Qed.

Lemma dict_get_remove_same (k : string) (d : list (string * pyval)) :
  RoundTrip.unique_keys d = true -> Dict.get k (Dict.remove k d) = None.
Proof.
  induction d as [|[k0 v0] d IH]; [reflexivity |].
  cbn [RoundTrip.unique_keys]. intros H. apply andb_true_iff in H as [Hk Hu].
  apply negb_true_iff in Hk. cbn [Dict.remove].
  destruct (String.eqb k k0) eqn:E.
  - apply String.eqb_eq in E. subst k0. unfold Dict.has in Hk.
    destruct (Dict.get k d); [discriminate | reflexivity].
  - cbn [Dict.get]. rewrite E. exact (IH Hu).
Qed.

(** X9: a cell that holds a record with the keys id and properties (a
    vertex or an edge as AGE prints it, with its type tag) decodes to the
    record with the value of id under graph_id, without the key id, and
    with every other key as it is. *)
Theorem decoder_renames_id (d : list (string * pyval)) (i : pyval)
    (tag return_type : string) :
  RoundTrip.json_safe (VDict d) = true ->
  Dict.get "id" d = Some i -> Dict.has "properties" d = true -> is_tag tag = true ->
  Dict.get "graph_id"
    (_parse_agtype_result (CStr (to_agtype_value (VDict d) ++ "::" ++ tag)) return_type)
  = Some i
  /\ Dict.has "id"
       (_parse_agtype_result (CStr (to_agtype_value (VDict d) ++ "::" ++ tag)) return_type)
     = false
  /\ forall k, k <> "id" -> k <> "graph_id" ->
       Dict.get k
         (_parse_agtype_result (CStr (to_agtype_value (VDict d) ++ "::" ++ tag)) return_type)
       = Dict.get k d.
Proof.
  intros Hs Hid Hprops Ht.
  rewrite (parse_by_stripped_text (to_agtype_value (VDict d) ++ "::" ++ tag)
             (to_agtype_value (VDict d)) return_type return_type)
    by now rewrite (stripped_text_tagged (VDict d) tag Hs Ht),
         (stripped_text_encoded (VDict d) Hs).
  cbn [_parse_agtype_result].
  rewrite (stripped_text_encoded (VDict d) Hs), (loads_encoded (VDict d) Hs).
  rewrite encoded_dict. change ("{" ++ ?x) with (String "{" x).
  rewrite json_candidate_dict. cbv beta iota.
  assert (Hhas : Dict.has "id" d = true) by (unfold Dict.has; now rewrite Hid).
  unfold normalize_record. rewrite Hprops, Hhas, Hid. cbn [andb].
  cbn [RoundTrip.json_safe] in Hs. apply andb_true_iff in Hs as [_ Hu].
  split; [apply dict_get_set |]. split.
  - unfold Dict.has. rewrite dict_get_set_other by discriminate.
    now rewrite (dict_get_remove_same "id" d Hu).
  - intros k H1 H2. rewrite (dict_get_set_other k "graph_id" i _ H2).
    now apply dict_get_remove_other.
Qed.

Lemma decoder_renames_id_witness :
  Dict.get "graph_id" (_parse_agtype_result (CStr CellScenario.vertex_cell) "vertex")
  = Some (VInt 844424930131969)
  /\ Dict.has "id" (_parse_agtype_result (CStr CellScenario.vertex_cell) "vertex") = false
  /\ Dict.get "label" (_parse_agtype_result (CStr CellScenario.vertex_cell) "vertex")
     = Some (VStr "Person").
Proof.
  destruct (decoder_renames_id
              [("id", VInt 844424930131969); ("label", VStr "Person");
               ("properties", VDict [("name", VStr "Alice")])]
              (VInt 844424930131969) "vertex" "vertex" eq_refl eq_refl eq_refl eq_refl)
    as (H1 & H2 & H3).
  split; [exact H1 |]. split; [exact H2 |].
  exact (H3 "label" ltac:(discriminate) ltac:(discriminate)).
Defined.

(** ** Rows *)






(* ====================================================================== *)
(** * Graph: schema, creation and update *)
(* ====================================================================== *)

Section GraphSteps.

Variable respond : World -> string -> option (list (list cell)).

Lemma fetchall_ok (sql : string) (w : World) (rows : list (list cell)) :
  respond w sql = Some rows -> Graph.fetchall respond sql w = (Ok rows, (w ++ [sql])%list).
Proof. intros H. unfold Graph.fetchall. now rewrite H. Qed.

Lemma fetchall_fails (sql : string) (w : World) :
  respond w sql = None -> Graph.fetchall respond sql w = (Raise DatabaseError, (w ++ [sql])%list).
Proof. intros H. unfold Graph.fetchall. now rewrite H. Qed.

(** A statement without parameters and without column names. *)
Lemma execute_cypher_ok (g : Graph.Graph) (cypher return_type : string) (w : World)
    (rows : list (list cell)) (parsed : list (list (string * pyval))) :
  respond w (Graph.wrap_sql g cypher "result agtype") = Some rows ->
  Graph._parse_results rows return_type 1 = Ok parsed ->
  Graph._execute_cypher respond g cypher None None return_type w
  = (Ok parsed, (w ++ [Graph.wrap_sql g cypher "result agtype"])%list).
Proof.
  intros Hr Hp. unfold Graph._execute_cypher, bind, lift.
  cbn [substitute_cypher_params Graph.column_clause Graph.num_columns].
  now rewrite (fetchall_ok _ _ _ Hr), Hp.
Qed.

Lemma execute_cypher_fails (g : Graph.Graph) (cypher return_type : string) (w : World) :
  respond w (Graph.wrap_sql g cypher "result agtype") = None ->
  Graph._execute_cypher respond g cypher None None return_type w
  = (Raise DatabaseError, (w ++ [Graph.wrap_sql g cypher "result agtype"])%list).
Proof.
  intros Hr. unfold Graph._execute_cypher, bind, lift.
  cbn [substitute_cypher_params Graph.column_clause Graph.num_columns].
  now rewrite (fetchall_fails _ _ Hr).
Qed.

End GraphSteps.

(** X11: [ensure_label] looks the label of the class up first; when the
    lookup finds a row it sends nothing else, when it finds none it sends
    one statement that creates the label, as a vertex label for kind v and
    as an edge label for any other kind; when the lookup fails nothing is
    created. *)
Theorem ensure_label_creates_once
    (respond : World -> string -> option (list (list cell)))
    (g : Graph.Graph) (c : ModelClass) (kind : string) (w : World) :
  let lookup := GraphCrud.label_lookup g (label_or_name c) in
  let create := GraphCrud.create_label g (label_or_name c) kind in
  (forall row rows,
      respond w lookup = Some (row :: rows) ->
      GraphCrud.ensure_label respond g c kind w = (Ok tt, (w ++ [lookup])%list))
  /\ (forall answer,
         respond w lookup = Some [] ->
         respond (w ++ [lookup])%list create = Some answer ->
         GraphCrud.ensure_label respond g c kind w = (Ok tt, (w ++ [lookup; create])%list))
  /\ (respond w lookup = None ->
      GraphCrud.ensure_label respond g c kind w
      = (Raise DatabaseError, (w ++ [lookup])%list)).
Proof.
  cbv zeta. repeat split.
  - intros row rows H. unfold GraphCrud.ensure_label, GraphCrud.fetchone, bind, ret.
    now rewrite (fetchall_ok respond _ _ _ H).
  - intros answer H1 H2.
    unfold GraphCrud.ensure_label, GraphCrud.fetchone, GraphCrud.execute, bind, ret.
    rewrite (fetchall_ok respond _ _ _ H1), (fetchall_ok respond _ _ _ H2).
    now rewrite <- app_assoc.
  - intros H. unfold GraphCrud.ensure_label, GraphCrud.fetchone, bind, ret.
    now rewrite (fetchall_fails respond _ _ H).
Qed.


Lemma ensure_label_creates_once_witness :
  GraphCrud.ensure_label (Fixtures.always []) Fixtures.g0 Fixtures.Person "v" []
  = (Ok tt,
     [GraphCrud.label_lookup Fixtures.g0 "Person";
      "SELECT create_vlabel('test_graph', 'Person')"]).
Proof.
  destruct (ensure_label_creates_once (Fixtures.always []) Fixtures.g0 Fixtures.Person "v" [])
    as (_ & H & _).
  exact (H [] eq_refl eq_refl).
Defined.

Lemma filter_nothing_dirty (props : list (string * pyval)) :
  List.filter (fun kv => bool_decide (fst kv ∈ (∅ : gset string))) props = [].
Proof.
  induction props as [|kv props IH]; [reflexivity |].
  cbn [List.filter]. rewrite bool_decide_eq_false_2 by set_solver. exact IH.
Qed.

(** X12: [Graph.update] refuses an entity without identity before any
    handler runs and before anything is sent; and on a persisted entity
    that has nothing dirty, an update of the dirty fields only sends no
    statement and leaves the entity as it is (the handlers of pre_update
    have run, those of post_update have not). *)
Theorem update_sends_nothing
    (respond : World -> string -> option (list (list cell)))
    (regs : Event.registrars) (g : Graph.Graph) (e : Entity) (w : World) :
  (forall only_dirty,
      AgeModel.graph_id e = None ->
      GraphCrud.update respond regs g e only_dirty w = (Raise EntityNotFoundError, w))
  /\ (forall gid e1,
         AgeModel.graph_id e = Some gid ->
         Event.dispatch regs e "pre_update" g = Ok e1 ->
         _age_dirty e1 = ∅ ->
         GraphCrud.update respond regs g e true w = (Ok e1, w)).
Proof.
  split.
  - intros only_dirty H. unfold GraphCrud.update. now rewrite H.
  - intros gid e1 Hid Hpre Hclean. unfold GraphCrud.update. rewrite Hid.
    unfold bind at 1, lift at 1. rewrite Hpre.
    unfold Dump.dirty_fields_dump. rewrite Hclean, filter_nothing_dirty. reflexivity.
Qed.

Example alice_loaded_ex :
  AgeModel.dict_to_model EntityScenario.alice_record Fixtures.Person
    (Some Fixtures.db0) (Some Fixtures.g0) = Ok GraphScenario.alice_loaded.
Proof. vm_compute. reflexivity. Qed.

Lemma update_sends_nothing_witness :
  GraphCrud.update (Fixtures.always []) Fixtures.no_handlers Fixtures.g0
    GraphScenario.alice_loaded true []
  = (Ok GraphScenario.alice_loaded, []).
Proof.
  exact (proj2 (update_sends_nothing (Fixtures.always []) Fixtures.no_handlers Fixtures.g0
                  GraphScenario.alice_loaded [])
           844424930131969%Z GraphScenario.alice_loaded eq_refl eq_refl eq_refl).
Defined.

(** ** Updating what was assigned *)

Lemma dump_skips_other_keys (dirty : gset string)
    (fs : list (string * FieldInfo)) (vs : list (string * pyval))
    (mf : list (string * FieldInfo)) :
  (forall k, In k (Dict.keys mf) -> k ∉ dirty) ->
  List.filter (fun kv => bool_decide (fst kv ∈ dirty))
    (flat_map
       (fun kf =>
          if Dict.has (fst kf) fs then
            match Dict.get (fst kf) vs with
            | Some v => [(fst kf, v)]
            | None => []
            end
          else [])
       mf)
  = [].
Proof.
  induction mf as [|[k f] mf IH]; intros Hk; [reflexivity |].
  cbn [flat_map fst]. rewrite List.filter_app, IH.
  - rewrite app_nil_r. destruct (Dict.has k fs); [| reflexivity].
    destruct (Dict.get k vs); [| reflexivity].
    cbn [List.filter fst]. rewrite bool_decide_eq_false_2; [reflexivity |].
    apply Hk. now left.
  - intros k' Hin. apply Hk. now right.
Qed.

Lemma dict_has_in_keys {A : Type} (x : string) (d : list (string * A)) :
  Dict.has x d = true -> In x (Dict.keys d).
Proof.
  unfold Dict.has. induction d as [|[k v] d IH]; [discriminate |].
  cbn [Dict.get Dict.keys map fst]. destruct (String.eqb x k) eqn:E.
  - apply String.eqb_eq in E. subst k. now left.
  - intros H. right. exact (IH H).
Qed.

(** On a clean instance whose field [x] was assigned, the dirty fields are
    that field alone. *)
Lemma dirty_dump_one (x : string) (v : pyval)
    (fs : list (string * FieldInfo)) (vs : list (string * pyval))
    (mf : list (string * FieldInfo)) :
  List.NoDup (Dict.keys mf) -> Dict.has x mf = true -> Dict.has x fs = true ->
  List.filter (fun kv => bool_decide (fst kv ∈ ({[ x ]} ∪ ∅ : gset string)))
    (flat_map
       (fun kf =>
          if Dict.has (fst kf) fs then
            match Dict.get (fst kf) (Dict.set x v vs) with
            | Some v' => [(fst kf, v')]
            | None => []
            end
          else [])
       mf)
  = [(x, v)].
Proof.
  intros Hnd Hx Hfs. induction mf as [|[k f] mf IH]; [discriminate |].
  cbn [Dict.keys map fst] in Hnd. apply List.NoDup_cons_iff in Hnd as [Hk Hnd].
  cbn [flat_map fst]. rewrite List.filter_app.
  unfold Dict.has in Hx. cbn [Dict.get] in Hx.
  destruct (String.eqb x k) eqn:E.
  - apply String.eqb_eq in E. subst k.
    rewrite Hfs, dict_get_set. cbn [List.filter fst].
    rewrite bool_decide_eq_true_2 by set_solver.
    rewrite dump_skips_other_keys; [reflexivity |].
    intros k' Hin Hd. apply elem_of_union in Hd as [Hd | Hd]; [| set_solver].
    apply elem_of_singleton in Hd. subst k'. contradiction.
  - rewrite IH; [| exact Hnd | exact Hx].
    destruct (Dict.has k fs); [| reflexivity].
    destruct (Dict.get k (Dict.set x v vs)); [| reflexivity].
    cbn [List.filter fst]. rewrite bool_decide_eq_false_2; [reflexivity |].
    intros Hd. apply elem_of_union in Hd as [Hd | Hd]; [| set_solver].
    apply elem_of_singleton in Hd. subst k.
    now rewrite String.eqb_refl in E.
Qed.

(** Assigning a persisted field, as a record. *)
Lemma setattr_field (c : ModelClass) vs fs rs rv gid lbl db gr rel dirty sid eid
    (x : string) (v : pyval) :
  persisted_field (MkEntity c vs fs rs rv gid lbl db gr rel dirty sid eid) x = true ->
  assignable_name c x = true ->
  AgeModel.__setattr__ (MkEntity c vs fs rs rv gid lbl db gr rel dirty sid eid) x
    (AgeModel.AVal v)
  = Ok (MkEntity c (Dict.set x v vs) fs rs rv gid lbl db gr rel ({[ x ]} ∪ dirty) sid eid).
Proof.
  intros Hp Ha.
  unfold persisted_field in Hp. cbn [cls _age_refs] in Hp.
  apply andb_true_iff in Hp as [Hf Hr]. apply negb_true_iff in Hr.
  unfold assignable_name in Ha.
  apply andb_true_iff in Ha as [Ha Hro]. apply andb_true_iff in Ha as [Hu Hmc].
  apply negb_true_iff in Hu, Hmc, Hro.
  pose proof (startswith_underscore x Hu) as Hne.
  unfold AgeModel.__setattr__. rewrite (not_internal x Hu).
  unfold AgeModel.super_setattr, AgeModel.setter_slot. cbn [cls].
  rewrite !Hne, !andb_false_r, Hro, Hu.
  cbn [cls model_fields AgeModel.set_field_value _age_refs orb]. rewrite Hf.
  cbn [cls model_fields AgeModel.set_field_value _age_refs orb]. rewrite Hmc, Hf, Hr.
  reflexivity.
Qed.

(** A field with the name of a read-only property of Edge cannot be
    assigned on an edge; on a vertex, which has no such property, it can. *)
Example edge_property_read_only :
  (forall e,
      AgeModel.__init__ GraphScenario.Follows (AgeModel.only_fields [("start_id", VInt 1)])
      = Ok e ->
      AgeModel.__setattr__ e "start_id" (AgeModel.AVal (VInt 2)) = Raise AttributeError)
  /\ assignable_name GraphScenario.Follows "start_id" = false
  /\ assignable_name GraphScenario.Follows "end_id" = false
  /\ assignable_name GraphScenario.Stop "start_id" = true
  /\ assignable_name GraphScenario.Knows "since" = true.
Proof.
  split; [| repeat split].
  intros e H. vm_compute in H. injection H as <-. reflexivity.
Qed.

(** X13: on a clean persisted entity, assigning a data field (one whose
    name pydantic accepts and that shadows no read-only property of the
    class, of AgeModel or, on an edge, of Edge) and then updating the dirty
    fields sends one statement, which sets that field alone to the literal
    of the assigned value, and leaves the entity clean with the assigned
    value. *)
Theorem update_sends_assigned_field
    (respond : World -> string -> option (list (list cell)))
    (regs : Event.registrars) (g : Graph.Graph) (e : Entity) (x : string) (v : pyval)
    (gid : Z) (w : World) (rows : list (list cell))
    (parsed : list (list (string * pyval))) :
  observers_only regs ->
  AgeModel.graph_id e = Some gid -> _age_dirty e = ∅ ->
  List.NoDup (Dict.keys (model_fields (cls e))) ->
  Dict.has x (_age_fields e) = true ->
  persisted_field e x = true -> assignable_name (cls e) x = true ->
  respond w
    (Graph.wrap_sql g
       ("MATCH (n) WHERE id(n) = " ++ Text.str_of_int gid
        ++ " SET " ++ GraphCrud.set_parts [(x, v)] ++ " RETURN n")
       "result agtype") = Some rows ->
  Graph._parse_results rows "vertex" 1 = Ok parsed ->
  exists e1 e2,
    AgeModel.__setattr__ e x (AgeModel.AVal v) = Ok e1
    /\ GraphCrud.update respond regs g e1 true w
       = (Ok e2,
          (w ++ [Graph.wrap_sql g
                   ("MATCH (n) WHERE id(n) = " ++ Text.str_of_int gid
                    ++ " SET " ++ GraphCrud.set_parts [(x, v)] ++ " RETURN n")
                   "result agtype"])%list)
    /\ _age_dirty e2 = ∅
    /\ Dict.get x (field_values e2) = Some v
    /\ GraphCrud.set_parts [(x, v)] = "n." ++ x ++ " = " ++ format_cypher_value v.
Proof.
  intros Hobs Hid Hclean Hnd Hfs Hp Ha Hr Hparse.
  destruct e as [c vs fs rs rv gi lbl db gr rel dirty sid eid].
  cbn [AgeModel.graph_id _age_graph_id _age_dirty cls _age_fields] in *. subst gi dirty.
  exists (MkEntity c (Dict.set x v vs) fs rs rv (Some gid) lbl db gr rel ({[ x ]} ∪ ∅) sid eid).
  exists (MkEntity c (Dict.set x v vs) fs rs rv (Some gid) lbl db gr rel ∅ sid eid).
  split; [now apply setattr_field |].
  split; [| split; [reflexivity | split; [apply dict_get_set | reflexivity]]].
  unfold GraphCrud.update. cbn [AgeModel.graph_id _age_graph_id].
  unfold bind at 1, lift at 1. rewrite (dispatch_observers regs _ _ g Hobs).
  unfold Dump.dirty_fields_dump, Dump.model_dump.
  cbn [cls _age_fields field_values _age_dirty].
  assert (Hmf : Dict.has x (model_fields c) = true).
  { unfold persisted_field in Hp. cbn [cls] in Hp. now apply andb_true_iff in Hp as [Hmf _]. }
  rewrite (dirty_dump_one x v fs vs (model_fields c) Hnd Hmf Hfs).
  unfold GraphCrud.update_statement. cbn [AgeModel.graph_id _age_graph_id AgeModel.show_id].
  unfold bind at 1.
  rewrite (execute_cypher_ok respond g _ "vertex" w rows parsed Hr Hparse).
  unfold bind, lift, ret. cbn [AgeModel.dirty_clear].
  now rewrite (dispatch_observers regs _ _ g Hobs).
Qed.

Lemma update_sends_assigned_field_witness :
  exists e1 e2,
    AgeModel.__setattr__ GraphScenario.alice_loaded "age" (AgeModel.AVal (VInt 31)) = Ok e1
    /\ GraphCrud.update (Fixtures.always []) Fixtures.no_handlers Fixtures.g0 e1 true []
       = (Ok e2,
          [Scenario.sql_of "MATCH (n) WHERE id(n) = 844424930131969 SET n.age = 31 RETURN n"])
    /\ _age_dirty e2 = ∅
    /\ Dict.get "age" (field_values e2) = Some (VInt 31).
Proof.
  destruct (update_sends_assigned_field (Fixtures.always []) Fixtures.no_handlers Fixtures.g0
              GraphScenario.alice_loaded "age" (VInt 31) 844424930131969%Z [] [] [])
    as (e1 & e2 & H1 & H2 & H3 & H4 & _).
  - intros event isinstance fns fn Hin. destruct Hin.
  - reflexivity.
  - reflexivity.
  - repeat constructor; cbn; intuition discriminate.
  - reflexivity.
  - reflexivity.
  - reflexivity.
  - reflexivity.
  - reflexivity.
  - exists e1, e2. repeat split; assumption.
Defined.

(** ** Creating vertices and edges *)

(** The assignments of the private properties, as records. *)
Lemma setattr_graph_id c vs fs rs rv gid lbl db gr rel dirty sid eid (x : option Z) :
  AgeModel.__setattr__ (MkEntity c vs fs rs rv gid lbl db gr rel dirty sid eid)
    "_graph_id" (AgeModel.AId x)
  = Ok (MkEntity c vs fs rs rv x lbl db gr rel dirty sid eid).
Proof. reflexivity. Qed.

Lemma setattr_db c vs fs rs rv gid lbl db gr rel dirty sid eid (x : option Database) :
  AgeModel.__setattr__ (MkEntity c vs fs rs rv gid lbl db gr rel dirty sid eid)
    "_db" (AgeModel.ADb x)
  = Ok (MkEntity c vs fs rs rv gid lbl x gr rel dirty sid eid).
Proof. reflexivity. Qed.

Lemma setattr_graph c vs fs rs rv gid lbl db gr rel dirty sid eid (x : option Graph.Graph) :
  AgeModel.__setattr__ (MkEntity c vs fs rs rv gid lbl db gr rel dirty sid eid)
    "_graph" (AgeModel.AGraph x)
  = Ok (MkEntity c vs fs rs rv gid lbl db x rel dirty sid eid).
Proof. reflexivity. Qed.

Lemma setattr_start_id c vs fs rs rv gid lbl db gr rel dirty sid eid (x : option Z) :
  is_vertex c = false ->
  AgeModel.__setattr__ (MkEntity c vs fs rs rv gid lbl db gr rel dirty sid eid)
    "_start_id" (AgeModel.AId x)
  = Ok (MkEntity c vs fs rs rv gid lbl db gr rel dirty x eid).
Proof.
  intros H. unfold AgeModel.__setattr__, AgeModel.super_setattr, AgeModel.setter_slot.
  cbn [cls Text.str_in existsb AgeModel._INTERNAL_ATTRS]. rewrite H. reflexivity.
Qed.

Lemma setattr_end_id c vs fs rs rv gid lbl db gr rel dirty sid eid (x : option Z) :
  is_vertex c = false ->
  AgeModel.__setattr__ (MkEntity c vs fs rs rv gid lbl db gr rel dirty sid eid)
    "_end_id" (AgeModel.AId x)
  = Ok (MkEntity c vs fs rs rv gid lbl db gr rel dirty sid x).
Proof.
  intros H. unfold AgeModel.__setattr__, AgeModel.super_setattr, AgeModel.setter_slot.
  cbn [cls Text.str_in existsb AgeModel._INTERNAL_ATTRS]. rewrite H. reflexivity.
Qed.

Lemma bind_to_record (g : Graph.Graph) c vs fs rs rv gid lbl db gr rel dirty sid eid :
  GraphCrud.bind_to g (MkEntity c vs fs rs rv gid lbl db gr rel dirty sid eid)
  = Ok (MkEntity c vs fs rs rv gid lbl (Some (Graph._db g)) (Some g) rel ∅ sid eid).
Proof. reflexivity. Qed.

(** X14: when the handlers only observe, the label step succeeds and the
    database answers the CREATE statement with a row, [Graph.add] sends
    that one statement after the label step and returns the entity with
    the identity of the first record, an empty dirty set, and bound to the
    graph and its database; its class, field values and label are as they
    were.  When the database answers with no row, [Graph.add] returns
    normally with the entity as it was: not bound, and as dirty as
    before. *)
Theorem add_binds_entity
    (respond : World -> string -> option (list (list cell)))
    (regs : Event.registrars) (g : Graph.Graph) (e : Entity) (w w1 : World)
    (rows : list (list cell)) :
  observers_only regs ->
  GraphCrud.ensure_label respond g (cls e) "v" w = (Ok tt, w1) ->
  respond w1 (Graph.wrap_sql g (GraphCrud.add_statement e) "result agtype") = Some rows ->
  (forall first others,
      Graph._parse_results rows "vertex" 1 = Ok (first :: others) ->
      exists e',
        GraphCrud.add respond regs g e w
        = (Ok e', (w1 ++ [Graph.wrap_sql g (GraphCrud.add_statement e) "result agtype"])%list)
        /\ _age_graph_id e' = AgeModel.as_id (Dict.get "graph_id" first)
        /\ _age_dirty e' = ∅
        /\ _age_db e' = Some (Graph._db g) /\ _age_graph e' = Some g
        /\ cls e' = cls e /\ field_values e' = field_values e
        /\ _age_label e' = _age_label e)
  /\ (Graph._parse_results rows "vertex" 1 = Ok [] ->
      GraphCrud.add respond regs g e w
      = (Ok e, (w1 ++ [Graph.wrap_sql g (GraphCrud.add_statement e) "result agtype"])%list)).
Proof.
  intros Hobs Hlabel Hr.
  assert (Hstart : forall parsed,
             Graph._parse_results rows "vertex" 1 = Ok parsed ->
             GraphCrud.add respond regs g e w
             = (let* entity :=
                  match parsed with
                  | first :: _ =>
                      let* entity :=
                        lift (AgeModel.__setattr__ e "_graph_id"
                                (AgeModel.AId (AgeModel.as_id (Dict.get "graph_id" first)))) in
                      lift (GraphCrud.bind_to g entity)
                  | [] => ret e
                  end in
                let* entity := lift (Event.dispatch regs entity "post_add" g) in
                ret entity)
                 (w1 ++ [Graph.wrap_sql g (GraphCrud.add_statement e) "result agtype"])%list).
  { intros parsed Hp. unfold GraphCrud.add.
    unfold bind at 1, lift at 1. rewrite (dispatch_observers regs _ _ g Hobs).
    unfold bind at 1. rewrite Hlabel.
    unfold bind at 1.
    now rewrite (execute_cypher_ok respond g _ "vertex" w1 rows parsed Hr Hp). }
  split.
  - intros first others Hp. rewrite (Hstart _ Hp).
    destruct e as [c vs fs rs rv gi lbl db gr rel dirty sid eid].
    exists (MkEntity c vs fs rs rv (AgeModel.as_id (Dict.get "graph_id" first)) lbl
              (Some (Graph._db g)) (Some g) rel ∅ sid eid).
    split; [| repeat split].
    unfold bind, lift, ret. rewrite setattr_graph_id, bind_to_record.
    now rewrite (dispatch_observers regs _ _ g Hobs).
  - intros Hp. rewrite (Hstart _ Hp).
    unfold bind, lift, ret. now rewrite (dispatch_observers regs _ _ g Hobs).
Qed.

Lemma add_binds_entity_witness :
  exists alice e',
    AgeModel.__init__ Fixtures.Person EntityScenario.alice_kwargs = Ok alice
    /\ GraphCrud.add (Fixtures.always [Fixtures.alice_row]) Fixtures.no_handlers
         Fixtures.g0 alice []
       = (Ok e',
          [GraphCrud.label_lookup Fixtures.g0 "Person";
           Graph.wrap_sql Fixtures.g0 (GraphCrud.add_statement alice) "result agtype"])
    /\ _age_dirty alice = list_to_set ["name"; "age"; "email"]
    /\ _age_dirty e' = ∅
    /\ _age_db e' = Some Fixtures.db0 /\ _age_graph e' = Some Fixtures.g0.
Proof.
  eexists.
  destruct (add_binds_entity (Fixtures.always [Fixtures.alice_row]) Fixtures.no_handlers
              Fixtures.g0
              (MkEntity Fixtures.Person
                 [("name", VStr "Alice"); ("age", VInt 30);
                  ("email", VStr "alice@example.com")]
                 [("name", DefaultOther); ("age", DefaultOther); ("email", DefaultOther)]
                 [] [] None (Some "Person") None None []
                 (list_to_set ["name"; "age"; "email"]) None None)
              [] [GraphCrud.label_lookup Fixtures.g0 "Person"] [Fixtures.alice_row])
    as (Hsome & _).
  - intros event isinstance fns fn Hin. destruct Hin.
  - reflexivity.
  - reflexivity.
  - destruct (Hsome (_parse_agtype_result (hd CNull Fixtures.alice_row) "vertex") [])
      as (e' & Hadd & _ & Hdirty & Hdb & Hgr & _); [reflexivity |].
    exists e'. split; [reflexivity |]. split; [exact Hadd |].
    split; [reflexivity |]. repeat split; assumption.
Defined.

(** X15: [Graph.connect] refuses end points that are not persisted before
    any handler runs and before anything is sent.  With persisted end
    points, handlers that only observe, a successful label step and a row
    in answer to the CREATE statement, it returns the edge with the
    identity of the first record, the identities of the two end points as
    its start and end, an empty dirty set, and bound to the graph and its
    database. *)
Theorem connect_binds_edge
    (respond : World -> string -> option (list (list cell)))
    (regs : Event.registrars) (g : Graph.Graph) (from_v edge to_v : Entity) (w : World) :
  (AgeModel.graph_id from_v = None \/ AgeModel.graph_id to_v = None ->
   GraphCrud.connect respond regs g from_v edge to_v w = (Raise EntityNotFoundError, w))
  /\ (forall a b w1 rows first others,
         observers_only regs ->
         is_vertex (cls edge) = false ->
         AgeModel.graph_id from_v = Some a -> AgeModel.graph_id to_v = Some b ->
         GraphCrud.ensure_label respond g (cls edge) "e" w = (Ok tt, w1) ->
         respond w1 (Graph.wrap_sql g (GraphCrud.connect_statement from_v edge to_v)
                       "result agtype") = Some rows ->
         Graph._parse_results rows "edge" 1 = Ok (first :: others) ->
         exists e',
           GraphCrud.connect respond regs g from_v edge to_v w
           = (Ok e',
              (w1 ++ [Graph.wrap_sql g (GraphCrud.connect_statement from_v edge to_v)
                        "result agtype"])%list)
           /\ _age_graph_id e' = AgeModel.as_id (Dict.get "graph_id" first)
           /\ _age_start_id e' = Some a /\ _age_end_id e' = Some b
           /\ _age_dirty e' = ∅
           /\ _age_db e' = Some (Graph._db g) /\ _age_graph e' = Some g
           /\ cls e' = cls edge /\ field_values e' = field_values edge).
Proof.
  split.
  - intros H. unfold GraphCrud.connect.
    destruct H as [H | H]; rewrite H; [reflexivity |].
    destruct (AgeModel.graph_id from_v); reflexivity.
  - intros a b w1 rows first others Hobs Hedge Ha Hb Hlabel Hr Hp.
    unfold GraphCrud.connect. rewrite Ha, Hb.
    unfold bind at 1, lift at 1. rewrite (dispatch_observers regs _ _ g Hobs).
    unfold bind at 1. rewrite Hlabel.
    unfold bind at 1.
    rewrite (execute_cypher_ok respond g _ "edge" w1 rows _ Hr Hp).
    destruct edge as [c vs fs rs rv gi lbl db gr rel dirty sid eid].
    cbn [cls] in Hedge.
    exists (MkEntity c vs fs rs rv (AgeModel.as_id (Dict.get "graph_id" first)) lbl
              (Some (Graph._db g)) (Some g) rel ∅ (Some a) (Some b)).
    split; [| repeat split].
    unfold bind, lift, ret.
    rewrite setattr_graph_id, (setattr_start_id _ _ _ _ _ _ _ _ _ _ _ _ _ _ Hedge),
      (setattr_end_id _ _ _ _ _ _ _ _ _ _ _ _ _ _ Hedge), bind_to_record.
    now rewrite (dispatch_observers regs _ _ g Hobs).
Qed.

Example knows_new_ex :
  AgeModel.__init__ GraphScenario.Knows (AgeModel.only_fields [("since", VInt 2020)])
  = Ok GraphScenario.knows_new.
Proof. reflexivity. Qed.

Lemma connect_binds_edge_witness :
  exists e',
    GraphCrud.connect (Fixtures.always [GraphScenario.knows_row]) Fixtures.no_handlers
      Fixtures.g0 GraphScenario.alice_loaded GraphScenario.knows_new
      GraphScenario.bob_loaded []
    = (Ok e',
       [GraphCrud.label_lookup Fixtures.g0 "KNOWS";
        Scenario.sql_of
          ("MATCH (a), (b) WHERE id(a) = 844424930131969 AND id(b) = 844424930131970 "
           ++ "CREATE (a)-[e:KNOWS {since: 2020}]->(b) RETURN e")])
    /\ _age_graph_id e' = Some 1125899906842625%Z
    /\ _age_start_id e' = Some 844424930131969%Z
    /\ _age_end_id e' = Some 844424930131970%Z
    /\ _age_dirty e' = ∅.
Proof.
  destruct (proj2 (connect_binds_edge (Fixtures.always [GraphScenario.knows_row])
                     Fixtures.no_handlers Fixtures.g0 GraphScenario.alice_loaded
                     GraphScenario.knows_new GraphScenario.bob_loaded [])
              844424930131969%Z 844424930131970%Z
              [GraphCrud.label_lookup Fixtures.g0 "KNOWS"] [GraphScenario.knows_row]
              (_parse_agtype_result (hd CNull GraphScenario.knows_row) "edge") [])
    as (e' & Hc & Hid & Hs & He & Hd & _).
  - intros event isinstance fns fn Hin. destruct Hin.
  - reflexivity.
  - reflexivity.
  - reflexivity.
  - reflexivity.
  - reflexivity.
  - reflexivity.
  - exists e'. split; [exact Hc |]. split; [exact Hid |]. repeat split; assumption.
Defined.

(** ** After a deletion *)

Lemma delete_result
    (respond : World -> string -> option (list (list cell)))
    (regs : Event.registrars) (g : Graph.Graph) (e e' : Entity) (w w' : World) :
  observers_only regs ->
  GraphOps.delete respond regs g e w = (Ok e', w') ->
  _age_graph_id e' = None.
Proof.
  intros Hobs. unfold GraphOps.delete.
  destruct (AgeModel.graph_id e) as [gid|]; [| discriminate].
  unfold bind at 1, lift at 1. rewrite (dispatch_observers regs _ _ g Hobs).
  unfold bind at 1.
  destruct (Graph._execute_cypher respond g (GraphOps.delete_statement e) None None "raw" w)
    as [[parsed|err] w1]; [| discriminate].
  destruct e as [c vs fs rs rv gi lbl db gr rel dirty sid eid].
  unfold bind, lift, ret. rewrite setattr_graph_id, setattr_db, setattr_graph.
  rewrite (dispatch_observers regs _ _ g Hobs).
  intros H. injection H as <- _. reflexivity.
Qed.

(** X16: once [Graph.delete] has returned (the handlers only observing),
    the graph refuses the entity: a second delete, an update, a traversal
    from it and a connection from or to it all raise EntityNotFoundError
    and send nothing. *)
Theorem deleted_entity_is_refused
    (respond : World -> string -> option (list (list cell)))
    (regs : Event.registrars) (registry : list (string * ModelClass))
    (g : Graph.Graph) (e e' : Entity) (w w' : World) :
  observers_only regs ->
  GraphOps.delete respond regs g e w = (Ok e', w') ->
  forall w2,
    GraphOps.delete respond regs g e' w2 = (Raise EntityNotFoundError, w2)
    /\ (forall only_dirty,
           GraphCrud.update respond regs g e' only_dirty w2 = (Raise EntityNotFoundError, w2))
    /\ (forall edge_label depth direction target_class,
           GraphCrud.traverse respond registry g e' edge_label depth direction target_class w2
           = (Raise EntityNotFoundError, w2))
    /\ (forall edge other,
           GraphCrud.connect respond regs g e' edge other w2 = (Raise EntityNotFoundError, w2)
           /\ GraphCrud.connect respond regs g other edge e' w2
              = (Raise EntityNotFoundError, w2)).
Proof.
  intros Hobs Hdel w2.
  pose proof (delete_result respond regs g e e' w w' Hobs Hdel) as Hid.
  assert (Hnone : AgeModel.graph_id e' = None) by exact Hid.
  repeat split.
  - unfold GraphOps.delete. now rewrite Hnone.
  - intros only_dirty. unfold GraphCrud.update. now rewrite Hnone.
  - intros. unfold GraphCrud.traverse. now rewrite Hnone.
  - unfold GraphCrud.connect. now rewrite Hnone.
  - unfold GraphCrud.connect. rewrite Hnone.
    destruct (AgeModel.graph_id other); reflexivity.
Qed.

Lemma deleted_entity_is_refused_witness :
  exists e',
    GraphOps.delete (Fixtures.always []) Fixtures.no_handlers Fixtures.g0
      GraphScenario.alice_loaded []
    = (Ok e', [Scenario.sql_of "MATCH (n) WHERE id(n) = 844424930131969 DETACH DELETE n"])
    /\ GraphOps.delete (Fixtures.always []) Fixtures.no_handlers Fixtures.g0 e'
         [Scenario.sql_of "MATCH (n) WHERE id(n) = 844424930131969 DETACH DELETE n"]
       = (Raise EntityNotFoundError,
          [Scenario.sql_of "MATCH (n) WHERE id(n) = 844424930131969 DETACH DELETE n"]).
Proof.
  exists (MkEntity Fixtures.Person
            [("name", VStr "Alice"); ("age", VInt 30); ("email", VNone)]
            [("name", DefaultOther); ("age", DefaultOther); ("email", DefaultOther)]
            [] [] None (Some "Person") None None [] ∅ None None).
  split; [reflexivity |].
  refine (proj1 (deleted_entity_is_refused (Fixtures.always []) Fixtures.no_handlers
                   Fixtures.registry Fixtures.g0 GraphScenario.alice_loaded _ [] _ _ eq_refl
                   _)).
  intros event isinstance fns fn Hin. destruct Hin.
Defined.

(* ====================================================================== *)
(** * Hydration *)
(* ====================================================================== *)

Lemma setattr_label c vs fs rs rv gid lbl db gr rel dirty sid eid (x : option string) :
  AgeModel.__setattr__ (MkEntity c vs fs rs rv gid lbl db gr rel dirty sid eid)
    "_label" (AgeModel.ALabel x)
  = Ok (MkEntity c vs fs rs rv gid x db gr rel dirty sid eid).
Proof. reflexivity. Qed.

Lemma setattr_dirty c vs fs rs rv gid lbl db gr rel dirty sid eid (x : gset string) :
  AgeModel.__setattr__ (MkEntity c vs fs rs rv gid lbl db gr rel dirty sid eid)
    "_dirty" (AgeModel.ADirty x)
  = Ok (MkEntity c vs fs rs rv gid lbl db gr rel x sid eid).
Proof. reflexivity. Qed.

Lemma setattr_start_id_vertex c vs fs rs rv gid lbl db gr rel dirty sid eid (x : option Z) :
  is_vertex c = true ->
  AgeModel.__setattr__ (MkEntity c vs fs rs rv gid lbl db gr rel dirty sid eid)
    "_start_id" (AgeModel.AId x)
  = Ok (MkEntity c vs fs rs rv gid lbl db gr rel dirty sid eid).
Proof.
  intros H. unfold AgeModel.__setattr__, AgeModel.super_setattr, AgeModel.setter_slot,
    AgeModel.read_only_properties.
  cbn [cls Text.str_in existsb AgeModel._INTERNAL_ATTRS]. rewrite !H. reflexivity.
Qed.

Lemma setattr_end_id_vertex c vs fs rs rv gid lbl db gr rel dirty sid eid (x : option Z) :
  is_vertex c = true ->
  AgeModel.__setattr__ (MkEntity c vs fs rs rv gid lbl db gr rel dirty sid eid)
    "_end_id" (AgeModel.AId x)
  = Ok (MkEntity c vs fs rs rv gid lbl db gr rel dirty sid eid).
Proof.
  intros H. unfold AgeModel.__setattr__, AgeModel.super_setattr, AgeModel.setter_slot,
    AgeModel.read_only_properties.
  cbn [cls Text.str_in existsb AgeModel._INTERNAL_ATTRS]. rewrite !H. reflexivity.
Qed.

(** What [dict_to_model] returns, as a record. *)
Lemma dict_to_model_record (data : list (string * pyval)) (c : ModelClass)
    (db : option Database) (graph : option Graph.Graph) (e : Entity) :
  AgeModel.dict_to_model data c db graph = Ok e ->
  exists props values sid eid,
    match Dict.get "properties" data with
    | Some (VDict p) => props = p
    | Some _ => False
    | None => props = data
    end
    /\ validate c props = Some values
    /\ e = MkEntity c values (fst (AgeModel.split_fields (model_fields c)))
             (snd (AgeModel.split_fields (model_fields c))) []
             (AgeModel.as_id (Dict.get "graph_id" data))
             (match Dict.get "label" data with
              | Some v => AgeModel.as_label (Some v)
              | None => __label__ c
              end)
             db graph [] ∅ sid eid.
Proof.
  unfold AgeModel.dict_to_model. intros H.
  destruct (match Dict.get "properties" data with
            | Some (VDict props) => Ok props
            | Some _ => Raise TypeError
            | None => Ok data
            end) as [props|] eqn:Eprops; [| discriminate].
  assert (Hprops : match Dict.get "properties" data with
                   | Some (VDict p) => props = p
                   | Some _ => False
                   | None => props = data
                   end).
  { destruct (Dict.get "properties" data) as [[]|]; try discriminate;
      now injection Eprops as <-. }
  unfold AgeModel.__init__, AgeModel.only_fields in H.
  cbn [AgeModel.kw_fields AgeModel.kw_graph_id AgeModel.kw_label AgeModel.kw_db
       AgeModel.kw_graph AgeModel.kw_start_id AgeModel.kw_end_id] in H.
  destruct (validate c props) as [values|] eqn:Ev.
  2:{ cbn [AgeModel.then_set] in H. destruct (Dict.has "start_id" data);
        destruct (Dict.has "end_id" data); discriminate. }
  destruct (AgeModel.split_fields (model_fields c)) as [fields refs].
  cbn [AgeModel.then_set] in H.
  rewrite setattr_graph_id in H. cbn [AgeModel.then_set] in H.
  rewrite setattr_label in H. cbn [AgeModel.then_set] in H.
  rewrite setattr_dirty in H. cbn [AgeModel.then_set] in H.
  rewrite setattr_db in H. cbn [AgeModel.then_set] in H.
  rewrite setattr_graph in H.
  exists props, values.
  destruct (is_vertex c) eqn:Hv.
  - exists None, None. split; [exact Hprops |]. split; [exact Ev |].
    destruct (Dict.has "start_id" data); destruct (Dict.has "end_id" data);
      cbn [AgeModel.then_set] in H;
      rewrite ?(setattr_start_id_vertex _ _ _ _ _ _ _ _ _ _ _ _ _ _ Hv) in H;
      cbn [AgeModel.then_set] in H;
      rewrite ?(setattr_end_id_vertex _ _ _ _ _ _ _ _ _ _ _ _ _ _ Hv) in H;
      now injection H as <-.
  - destruct (Dict.has "start_id" data); destruct (Dict.has "end_id" data);
      cbn [AgeModel.then_set] in H;
      rewrite ?(setattr_start_id _ _ _ _ _ _ _ _ _ _ _ _ _ _ Hv) in H;
      cbn [AgeModel.then_set] in H;
      rewrite ?(setattr_end_id _ _ _ _ _ _ _ _ _ _ _ _ _ _ Hv) in H;
      injection H as <-; eexists; eexists; (split; [exact Hprops |]);
      (split; [exact Ev |]); reflexivity.
Qed.

(** X17: an instance that [dict_to_model] returns is of the given class,
    carries the graph id of the record (None when the record has none),
    is bound to the given database and graph, is clean, has no cached
    relationship value, and has as label the label of the record or, when
    the record has none, the label the class declares; its field values
    are what validation makes of the properties of the record, or of the
    whole record when it has no properties key.  A properties entry that
    is no map raises TypeError. *)
Theorem dict_to_model_binds (data : list (string * pyval)) (c : ModelClass)
    (db : option Database) (graph : option Graph.Graph) :
  (forall e,
      AgeModel.dict_to_model data c db graph = Ok e ->
      cls e = c
      /\ _age_graph_id e = AgeModel.as_id (Dict.get "graph_id" data)
      /\ _age_db e = db /\ _age_graph e = graph
      /\ _age_dirty e = ∅ /\ _age_refs_vals e = []
      /\ _age_label e = match Dict.get "label" data with
                        | Some v => AgeModel.as_label (Some v)
                        | None => __label__ c
                        end
      /\ validate c (match Dict.get "properties" data with
                     | Some (VDict p) => p
                     | _ => data
                     end) = Some (field_values e))
  /\ (forall v,
         Dict.get "properties" data = Some v ->
         (forall p, v <> VDict p) ->
         AgeModel.dict_to_model data c db graph = Raise TypeError).
Proof.
  split.
  - intros e H.
    destruct (dict_to_model_record data c db graph e H)
      as (props & values & sid & eid & Hprops & Hv & ->).
    cbn [cls _age_graph_id _age_db _age_graph _age_dirty _age_refs_vals _age_label
         field_values].
    repeat split.
    destruct (Dict.get "properties" data) as [[]|]; try contradiction; now subst props.
  - intros v Hv Hnot. unfold AgeModel.dict_to_model. rewrite Hv.
    destruct v; try reflexivity. now destruct (Hnot items).
Qed.

Lemma dict_to_model_binds_witness :
  exists alice,
    AgeModel.dict_to_model EntityScenario.alice_record Fixtures.Person
      (Some Fixtures.db0) (Some Fixtures.g0) = Ok alice
    /\ _age_graph_id alice = Some 844424930131969%Z
    /\ _age_db alice = Some Fixtures.db0 /\ _age_graph alice = Some Fixtures.g0
    /\ AgeModel.dict_to_model [("properties", VInt 1)] Fixtures.Person None None
       = Raise TypeError.
Proof.
  exists GraphScenario.alice_loaded.
  destruct (dict_to_model_binds EntityScenario.alice_record Fixtures.Person
              (Some Fixtures.db0) (Some Fixtures.g0)) as (H & _).
  destruct (H GraphScenario.alice_loaded eq_refl) as (_ & Hid & Hdb & Hgr & _).
  split; [reflexivity |]. split; [exact Hid |]. split; [exact Hdb |]. split; [exact Hgr |].
  apply (proj2 (dict_to_model_binds [("properties", VInt 1)] Fixtures.Person None None)
           (VInt 1) eq_refl).
  intros p. discriminate.
Defined.

Lemma hydrate_all_each (results : list (list (string * pyval))) (c : ModelClass)
    (db : option Database) (graph : option Graph.Graph) (es : list Entity) :
  AgeModel.hydrate_all results c db graph = Ok es ->
  Forall2 (fun r e => AgeModel.dict_to_model r c db graph = Ok e) results es.
Proof.
  revert es. induction results as [|r results IH]; intros es H.
  - injection H as <-. constructor.
  - cbn [AgeModel.hydrate_all] in H.
    destruct (AgeModel.dict_to_model r c db graph) as [m|] eqn:Em; [| discriminate].
    destruct (AgeModel.hydrate_all results c db graph) as [ms|]; [| discriminate].
    injection H as <-. constructor; [exact Em | now apply IH].
Qed.

Lemma parse_result_rows_length (rows : list (list cell)) (return_type : string) (n : nat)
    (parsed : list (list (string * pyval))) :
  _parse_result_rows rows return_type n = Ok parsed ->
  List.length parsed = List.length rows.
Proof.
  revert parsed. induction rows as [|row rows IH]; intros parsed H.
  - injection H as <-. reflexivity.
  - cbn [_parse_result_rows] in H.
    destruct (if Nat.eqb n 1 then _ else _) as [p|]; [| discriminate].
    destruct (_parse_result_rows rows return_type n) as [ps|]; [| discriminate].
    injection H as <-. cbn [List.length]. now rewrite (IH ps eq_refl).
Qed.

(** A statement that ran: what the journal and the database say. *)
Lemma execute_cypher_ran
    (respond : World -> string -> option (list (list cell)))
    (g : Graph.Graph) (cypher return_type : string) (w w' : World)
    (parsed : list (list (string * pyval))) :
  Graph._execute_cypher respond g cypher None None return_type w = (Ok parsed, w') ->
  w' = (w ++ [Graph.wrap_sql g cypher "result agtype"])%list
  /\ exists rows,
       respond w (Graph.wrap_sql g cypher "result agtype") = Some rows
       /\ List.length parsed = List.length rows.
Proof.
  unfold Graph._execute_cypher, bind, lift, Graph.fetchall.
  cbn [substitute_cypher_params Graph.column_clause Graph.num_columns].
  destruct (respond w (Graph.wrap_sql g cypher "result agtype")) as [rows|];
    [| discriminate].
  unfold Graph._parse_results.
  destruct (_parse_result_rows rows return_type 1) as [p|] eqn:Ep; [| discriminate].
  intros H. injection H as <- <-. split; [reflexivity |].
  exists rows. split; [reflexivity |]. now apply parse_result_rows_length in Ep.
Qed.

(** X18: when [Query.all] returns, it has sent the one statement built by
    [_build_cypher], and it returns one instance for each row of the
    answer; every instance is of the class of the query, clean, and bound
    to the graph of the query and its database. *)
Theorem query_all_returns_bound
    (respond : World -> string -> option (list (list cell)))
    (q : Query.Query) (w w' : World) (es : list Entity) :
  Query.all respond q w = (Ok es, w') ->
  exists cypher rows,
    Query._build_cypher q = Ok cypher
    /\ w' = (w ++ [Graph.wrap_sql (Query._graph q) cypher "result agtype"])%list
    /\ respond w (Graph.wrap_sql (Query._graph q) cypher "result agtype") = Some rows
    /\ List.length es = List.length rows
    /\ Forall (fun e => cls e = Query._model_class q
                        /\ _age_dirty e = ∅
                        /\ _age_db e = Some (Graph._db (Query._graph q))
                        /\ _age_graph e = Some (Query._graph q)) es.
Proof.
  unfold Query.all, Query.iterator. unfold bind at 1, lift at 1.
  destruct (Query._build_cypher q) as [cypher|]; [| discriminate].
  unfold bind at 1.
  destruct (Graph._execute_cypher respond (Query._graph q) cypher None None "vertex" w)
    as [[parsed|] w1] eqn:Ex; [| discriminate].
  unfold lift.
  destruct (AgeModel.hydrate_all parsed _ _ _) as [ms|] eqn:Eh; [| discriminate].
  intros H. injection H as <- <-.
  destruct (execute_cypher_ran respond _ _ _ _ _ _ Ex) as (-> & rows & Hr & Hlen).
  apply hydrate_all_each in Eh.
  exists cypher, rows. split; [reflexivity |]. split; [reflexivity |]. split; [exact Hr |].
  split.
  - rewrite <- Hlen. symmetry. exact (Forall2_length _ _ _ Eh).
  - clear Ex Hlen. induction Eh as [|r e rs es' Hre _ IH]; constructor; [| exact IH].
    destruct (dict_to_model_record r _ _ _ e Hre)
      as (props & values & sid & eid & _ & _ & ->).
    repeat split.
Qed.

Lemma query_all_returns_bound_witness :
  exists es,
    Query.all (Fixtures.always [Fixtures.alice_row; Fixtures.bob_row]) Scenario.all_persons []
    = (Ok es, [Scenario.sql_of ("MATCH (n:Person)" ++ Query.nl ++ "RETURN n")])
    /\ List.length es = 2
    /\ Forall (fun e => _age_dirty e = ∅ /\ _age_graph e = Some Fixtures.g0) es.
Proof.
  destruct (Query.all (Fixtures.always [Fixtures.alice_row; Fixtures.bob_row])
              Scenario.all_persons []) as [[es|] w'] eqn:E; [| vm_compute in E; discriminate].
  destruct (query_all_returns_bound _ _ _ _ _ E) as (cypher & rows & Hc & -> & Hr & Hl & Hall).
  injection Hc as <-. injection Hr as <-.
  exists es. split; [reflexivity |]. split; [exact Hl |].
  eapply List.Forall_impl; [| exact Hall]. intros e (_ & Hd & _ & Hg). split; assumption.
Defined.

(* ====================================================================== *)
(** * Query: filters, first, lookups *)
(* ====================================================================== *)

Lemma join_space_tail (a : string) (l : list string) :
  Text.join " " (a :: l) = a ++ String.concat EmptyString (map (fun s => " " ++ s) l).
Proof.
  unfold Text.join. revert a. induction l as [|b l IH]; intros a.
  - cbn. now rewrite append_nil_r.
  - change (String.concat " " (a :: b :: l)) with (a ++ " " ++ String.concat " " (b :: l)).
    rewrite IH. cbn [map].
    destruct l as [|c l].
    + cbn. now rewrite !append_nil_r.
    + change (String.concat EmptyString ((" " ++ b) :: map (fun s => " " ++ s) (c :: l)))
        with ((" " ++ b) ++ EmptyString
              ++ String.concat EmptyString (map (fun s => " " ++ s) (c :: l))).
      change (EmptyString ++ ?x) with x. now rewrite !append_assoc.
Qed.

Lemma filter_all_state (calls : list (string * bool)) :
  forall q : Query.Query,
    Query._filters q <> [] -> Query._bind_vars q = [] ->
    Query._filters (QueryMore.filter_all q calls)
    = List.app (Query._filters q)
        (map (fun call : string * bool =>
                Query.MkFilter (fst call) (Some (if snd call then "OR" else "AND")))
           calls)
    /\ Query._bind_vars (QueryMore.filter_all q calls) = []
    /\ Query._label (QueryMore.filter_all q calls) = Query._label q.
Proof.
  induction calls as [|[cond o] calls IH]; intros q Hf Hb.
  - cbn. now rewrite app_nil_r.
  - unfold QueryMore.filter_all. cbn [fold_left fst snd].
    fold (QueryMore.filter_all (Query.filter q cond o []) calls).
    destruct (IH (Query.filter q cond o [])) as (H1 & H2 & H3).
    + cbn. destruct (Query._filters q); discriminate.
    + cbn. exact Hb.
    + rewrite H1, H2, H3. cbn [Query.filter Query.add_filter Query._filters Query._label map
                               fst snd].
      unfold Query.next_joiner.
      destruct (Query._filters q) as [|f fs] eqn:E; [congruence |].
      rewrite <- app_assoc. repeat split.
Qed.

(** X19: a chain of [filter] calls without parameters on a new query gives
    the WHERE clause of the conditions in the order of the calls, each
    after the first preceded by OR or AND as its call says; the flag of
    the first call has no effect, and no parentheses are added. *)
Theorem filters_join_in_call_order (c : ModelClass) (g : Graph.Graph)
    (cond : string) (o : bool) (calls : list (string * bool)) :
  Query._build_match_where (QueryMore.filter_all (Query.new c g) ((cond, o) :: calls))
  = Ok ("MATCH (n:" ++ label_or_name c ++ ")" ++ Query.nl ++ "WHERE " ++ cond
        ++ String.concat EmptyString
             (map (fun call : string * bool =>
                     " " ++ (if snd call then "OR" else "AND") ++ " " ++ fst call)
                calls)).
Proof.
  unfold QueryMore.filter_all. cbn [fold_left fst snd].
  fold (QueryMore.filter_all (Query.filter (Query.new c g) cond o []) calls).
  destruct (filter_all_state calls (Query.filter (Query.new c g) cond o []))
    as (H1 & H2 & H3); [discriminate | reflexivity |].
  unfold Query._build_match_where. rewrite H1, H2, H3.
  cbn [Query.filter Query.add_filter Query.new Query._filters Query._label Query.next_joiner
       app map Query.where_part Query.joiner Query.condition].
  rewrite List.map_map. cbn [Query.where_part Query.joiner Query.condition fst snd].
  rewrite join_space_tail, List.map_map.
  cbn [substitute_cypher_params]. now rewrite !append_assoc.
Qed.

Lemma no_char_app (c : ascii) (a b : string) :
  Shape.no_char c (a ++ b) = Shape.no_char c a && Shape.no_char c b.
Proof.
  induction a as [|x a IH]; [reflexivity |].
  change (String x a ++ b) with (String x (a ++ b)).
  cbn [Shape.no_char]. now rewrite IH, andb_assoc.
Qed.

(** X20: [filter_by] with one field, on a new query: when the name of the
    field has no dollar sign and the literal of the value has no backslash,
    the WHERE clause compares the field with the literal of the value. *)
Theorem filter_by_plain_value (c : ModelClass) (g : Graph.Graph) (o : bool)
    (k : string) (v : pyval) :
  Shape.no_char "$" k = true ->
  Shape.no_char backslash (format_cypher_value v) = true ->
  Query._build_match_where (Query.filter_by (Query.new c g) o [(k, v)])
  = Ok ("MATCH (n:" ++ label_or_name c ++ ")" ++ Query.nl
        ++ "WHERE n." ++ k ++ " = " ++ format_cypher_value v).
Proof.
  intros Hk Hv.
  unfold Query.filter_by, Query.add_filter, Query._build_match_where.
  cbn [Dict.keys map fst List.length Nat.ltb Nat.leb Query.new Query._filters Query._label
       Query._bind_vars Query.next_joiner app Query.where_part Query.joiner Query.condition
       Text.join String.concat Dict.update fold_left Dict.set snd].
  assert (E : "n." ++ k ++ " = $" ++ k = ("n." ++ k ++ " = ") ++ "$" ++ k ++ EmptyString).
  { rewrite !append_assoc, append_nil_r. reflexivity. }
  rewrite E, (substitute_one_plain ("n." ++ k ++ " = ") EmptyString k v).
  - rewrite append_nil_r, !append_assoc. reflexivity.
  - change ("n." ++ k ++ " = ") with (String "n" (String "." (k ++ " = "))).
    cbn [Shape.no_char]. rewrite no_char_app, Hk. reflexivity.
  - reflexivity.
  - reflexivity.
  - exact Hv.
Qed.

Lemma filter_by_plain_value_witness :
  Query._build_match_where (Query.filter_by (Query.new Fixtures.Person Fixtures.g0) false
                              [("name", VStr "Alice")])
  = Ok ("MATCH (n:" ++ label_or_name Fixtures.Person ++ ")" ++ Query.nl
        ++ "WHERE n." ++ "name" ++ " = " ++ format_cypher_value (VStr "Alice")).
Proof.
  apply (filter_by_plain_value Fixtures.Person Fixtures.g0 false "name" (VStr "Alice"));
    reflexivity.
Defined.

Lemma set_limit_back (q : Query.Query) (x : option Z) :
  QueryMore.set_limit (QueryMore.set_limit q x) (Query._limit q) = q.
Proof. destruct q. reflexivity. Qed.

(** X21: [first] runs the query with its limit set to 1, whatever limit
    it had.  When [all] returns, [first] returns the first instance, or
    None when there is none, and leaves the query with the limit it had
    before; when [all] raises, the query is left with the limit 1.  For a
    query without limit, the statement sent is the statement of the query
    followed by LIMIT 1. *)
Theorem first_limits_to_one
    (respond : World -> string -> option (list (list cell)))
    (q : Query.Query) (w : World) :
  (forall es w',
      Query.all respond (QueryMore.set_limit q (Some 1%Z)) w = (Ok es, w') ->
      QueryMore.first respond q w = (Ok (hd_error es), q, w'))
  /\ (forall e w',
         Query.all respond (QueryMore.set_limit q (Some 1%Z)) w = (Raise e, w') ->
         QueryMore.first respond q w = (Raise e, QueryMore.set_limit q (Some 1%Z), w'))
  /\ (forall cypher,
         Query._build_cypher q = Ok cypher ->
         Query._limit q = None ->
         Query._build_cypher (QueryMore.set_limit q (Some 1%Z))
         = Ok (cypher ++ Query.nl ++ "LIMIT 1")).
Proof.
  repeat split.
  - intros es w' H. unfold QueryMore.first. rewrite H, set_limit_back.
    destruct es; reflexivity.
  - intros e w' H. unfold QueryMore.first. now rewrite H.
  - intros cypher Hc Hl. unfold Query._build_cypher in *.
    unfold Query._build_match_where in *.
    cbn [QueryMore.set_limit Query._filters Query._label Query._bind_vars
         Query._return_fields Query._sort_columns Query._skip Query._limit] in *.
    rewrite Hl in Hc.
    destruct (match Query._filters q with
              | [] => Ok ("MATCH (n:" ++ Query._label q ++ ")")
              | _ :: _ => _
              end) as [mw|]; [| discriminate].
    injection Hc as <-. reflexivity.
Qed.

Lemma first_limits_to_one_witness :
  QueryMore.first (Fixtures.always []) (Query.limit Scenario.all_persons 10 0) []
  = (Ok None, Query.limit Scenario.all_persons 10 0,
     [Scenario.sql_of ("MATCH (n:Person)" ++ Query.nl ++ "RETURN n" ++ Query.nl ++ "LIMIT 1")])
  /\ QueryMore.first (fun _ _ => None) (Query.limit Scenario.all_persons 10 0) []
     = (Raise DatabaseError, Query.limit Scenario.all_persons 1 0,
        [Scenario.sql_of ("MATCH (n:Person)" ++ Query.nl ++ "RETURN n" ++ Query.nl
                          ++ "LIMIT 1")]).
Proof.
  split.
  - apply (proj1 (first_limits_to_one (Fixtures.always [])
                    (Query.limit Scenario.all_persons 10 0) []) [] _ eq_refl).
  - apply (proj1 (proj2 (first_limits_to_one (fun _ _ => None)
                           (Query.limit Scenario.all_persons 10 0) []))
             DatabaseError _ eq_refl).
Defined.

(** X22: [by_id] sends one statement that matches the label of the query
    and the given identity; with no row in the answer it returns None,
    otherwise it returns the instance of the first record, and of that
    record only: of the class of the query, with the graph id of the
    record, clean, and bound to the graph of the query and its database. *)
Theorem by_id_takes_first_row
    (respond : World -> string -> option (list (list cell)))
    (q : Query.Query) (graph_id : Z) (w : World) (rows : list (list cell)) :
  respond w (Graph.wrap_sql (Query._graph q) (QueryMore.by_id_statement q graph_id)
               "result agtype") = Some rows ->
  (Graph._parse_results rows "vertex" 1 = Ok [] ->
   QueryMore.by_id respond q graph_id w
   = (Ok None,
      (w ++ [Graph.wrap_sql (Query._graph q) (QueryMore.by_id_statement q graph_id)
               "result agtype"])%list))
  /\ (forall first others m,
         Graph._parse_results rows "vertex" 1 = Ok (first :: others) ->
         AgeModel.dict_to_model first (Query._model_class q)
           (Some (Graph._db (Query._graph q))) (Some (Query._graph q)) = Ok m ->
         QueryMore.by_id respond q graph_id w
         = (Ok (Some m),
            (w ++ [Graph.wrap_sql (Query._graph q) (QueryMore.by_id_statement q graph_id)
                     "result agtype"])%list)
         /\ cls m = Query._model_class q
         /\ _age_graph_id m = AgeModel.as_id (Dict.get "graph_id" first)
         /\ _age_dirty m = ∅
         /\ _age_graph m = Some (Query._graph q)).
Proof.
  intros Hr. split.
  - intros Hp. unfold QueryMore.by_id, bind.
    now rewrite (execute_cypher_ok respond _ _ "vertex" w rows [] Hr Hp).
  - intros first others m Hp Hm. split.
    + unfold QueryMore.by_id. unfold bind at 1.
      rewrite (execute_cypher_ok respond _ _ "vertex" w rows _ Hr Hp).
      unfold bind, lift, ret. now rewrite Hm.
    + destruct (dict_to_model_record first _ _ _ m Hm)
        as (props & values & sid & eid & _ & _ & ->).
      repeat split.
Qed.

Lemma by_id_takes_first_row_witness :
  QueryMore.by_id (Fixtures.always []) Scenario.all_persons 7 []
  = (Ok None, [Scenario.sql_of "MATCH (n:Person) WHERE id(n) = 7 RETURN n"]).
Proof.
  apply (proj1 (by_id_takes_first_row (Fixtures.always []) Scenario.all_persons 7 [] []
                  eq_refl)).
  reflexivity.
Defined.

(* ====================================================================== *)
(** * Events: registration and dispatch *)
(* ====================================================================== *)

Lemma listen_other_event (same_class : ModelClass -> ModelClass -> bool)
    (target : ModelClass) (fn : Event.handler) (events : list string) (event : string) :
  ~ In event events ->
  forall reg : Listen.registry,
    Listen.by_event
      (fold_left
         (fun reg ev =>
            Dict.set ev (Listen.add_handler same_class target fn (Listen.by_event reg ev)) reg)
         events reg) event
    = Listen.by_event reg event.
Proof.
  induction events as [|ev events IH]; intros Hnot reg; [reflexivity |].
  cbn [fold_left]. rewrite IH by (intros Hin; apply Hnot; now right).
  unfold Listen.by_event at 1 3.
  rewrite dict_get_set_other; [reflexivity |].
  intros ->. apply Hnot. now left.
Qed.

(** X23: registering a handler for some events changes nothing for the
    other events.  And on a registry that has no handler for an event,
    after two handlers were registered for it on one class, a dispatch of
    the event on an instance of the class runs the first handler and then
    the second on what the first left, and stops at the first that raises;
    on a target that is no instance of the class it runs nothing. *)
Theorem listen_then_dispatch
    (same_class isinstance : ModelClass -> ModelClass -> bool)
    (reg : Listen.registry) (target : ModelClass) (g : Graph.Graph) (t : Entity) :
  (forall c, same_class c c = true) ->
  (forall fn event other,
      ~ In other (match event with inl ev => [ev] | inr evs => evs end) ->
      Listen.dispatch isinstance (Listen.listen same_class reg target event fn) t other g
      = Listen.dispatch isinstance reg t other g)
  /\ (forall f1 f2 event,
         Listen.by_event reg event = [] ->
         Listen.dispatch isinstance
           (Listen.listen same_class (Listen.listen same_class reg target (inl event) f1)
              target (inl event) f2)
           t event g
         = if isinstance (cls t) target
           then match f1 t event g with
                | Ok t1 => f2 t1 event g
                | Raise e => Raise e
                end
           else Ok t).
Proof.
  intros Hsame. split.
  - intros fn event other Hnot.
    unfold Listen.dispatch, Event.dispatch, Listen.registrars_of, Listen.listen.
    now rewrite (listen_other_event same_class target fn _ other Hnot reg).
  - intros f1 f2 event Hempty.
    unfold Listen.dispatch, Event.dispatch, Listen.registrars_of, Listen.listen.
    cbn [fold_left]. rewrite Hempty.
    unfold Listen.by_event at 2. rewrite dict_get_set.
    cbn [Listen.add_handler]. rewrite Hsame.
    unfold Listen.by_event. rewrite dict_get_set.
    cbn [map fst snd app Event.dispatch_classes Event.run_handlers].
    destruct (isinstance (cls t) target); [| reflexivity].
    destruct (f1 t event g) as [t1|]; [| reflexivity].
    destruct (f2 t1 event g); reflexivity.
Qed.

Lemma listen_then_dispatch_witness :
  Listen.dispatch (fun _ _ => true)
    (Listen.listen (fun _ _ => true)
       (Listen.listen (fun _ _ => true) [] Fixtures.Person (inl "pre_add")
          (fun t _ _ => AgeModel.__setattr__ t "age" (AgeModel.AVal (VInt 1))))
       Fixtures.Person (inl "pre_add")
       (fun t _ _ => AgeModel.__setattr__ t "age" (AgeModel.AVal (VInt 2))))
    GraphScenario.alice_loaded "pre_add" Fixtures.g0
  = match AgeModel.__setattr__ GraphScenario.alice_loaded "age" (AgeModel.AVal (VInt 1)) with
    | Ok t1 => AgeModel.__setattr__ t1 "age" (AgeModel.AVal (VInt 2))
    | Raise e => Raise e
    end.
Proof.
  exact (proj2 (listen_then_dispatch (fun _ _ => true) (fun _ _ => true) []
                  Fixtures.Person Fixtures.g0 GraphScenario.alice_loaded
                  (fun _ => eq_refl))
           (fun t _ _ => AgeModel.__setattr__ t "age" (AgeModel.AVal (VInt 1)))
           (fun t _ _ => AgeModel.__setattr__ t "age" (AgeModel.AVal (VInt 2)))
           "pre_add" eq_refl).
Defined.

(* ====================================================================== *)
(** * Relationships: loading once *)
(* ====================================================================== *)

Lemma refs_after_set_refs_val (e : Entity) (item : string) (r_val : RelValue) :
  _age_refs (AgeModel.set_refs_val e item r_val) = _age_refs e
  /\ Dict.get item (_age_refs_vals (AgeModel.set_refs_val e item r_val)) = Some r_val.
Proof. destruct e. split; [reflexivity | apply dict_get_set]. Qed.

(** A read of a relationship slot that has a cached value. *)
Lemma getattribute_cached
    (respond : World -> string -> option (list (list cell)))
    (locate : string -> option ModelClass)
    (e : Entity) (item : string) (finfo : FieldInfo) (cached : RelValue) (w : World) :
  Text.startswith "_" item = false -> Text.startswith "model_" item = false ->
  Dict.get item (_age_refs e) = Some finfo ->
  Dict.get item (_age_refs_vals e) = Some cached ->
  AgeModel.__getattribute__ respond locate e item w = (Ok (AgeModel.ARel cached, e), w).
Proof.
  intros Hu Hm Hrefs Hvals. unfold AgeModel.__getattribute__.
  rewrite (not_internal item Hu), Hu, Hm. cbn [orb]. now rewrite Hrefs, Hvals.
Qed.

(** X24: a relationship that is declared with its cache on is loaded
    once: when a read of the slot has returned, the next read of the slot
    on the instance it left, at any time, returns the same value and the
    same instance and sends nothing. *)
Theorem relationship_loaded_once
    (respond : World -> string -> option (list (list cell)))
    (locate : string -> option ModelClass)
    (e e1 : Entity) (item : string) (r : Relationship) (v : AgeModel.attr_value)
    (w w1 : World) :
  Text.startswith "_" item = false -> Text.startswith "model_" item = false ->
  Dict.get item (_age_refs e) = Some (DefaultRelationship r) ->
  cache r = true ->
  AgeModel.__getattribute__ respond locate e item w = (Ok (v, e1), w1) ->
  forall w2, AgeModel.__getattribute__ respond locate e1 item w2 = (Ok (v, e1), w2).
Proof.
  intros Hu Hm Hrefs Hcache H w2.
  unfold AgeModel.__getattribute__ in H.
  rewrite (not_internal item Hu), Hu, Hm in H. cbn [orb] in H. rewrite Hrefs in H.
  destruct (Dict.get item (_age_refs_vals e)) as [cached|] eqn:Hvals.
  - injection H as <- <- <-.
    now apply (getattribute_cached respond locate e item _ cached w2 Hu Hm Hrefs).
  - destruct (_age_db e) as [db|]; [| discriminate].
    destruct (_age_graph e) as [graph|]; [| discriminate].
    unfold bind at 1, lift at 1 in H.
    destruct (AgeModel.resolve_target_class locate r) as [target_class|]; [| discriminate].
    unfold bind at 1 in H.
    destruct (Graph._execute_cypher respond graph _ None None "vertex" w)
      as [[results|] w'] eqn:Ex; [| discriminate].
    unfold bind at 1, lift at 1 in H.
    destruct (AgeModel.hydrate_all results target_class (Some db) (Some graph))
      as [models|]; [| discriminate].
    rewrite Hcache in H. unfold ret in H. injection H as <- <- <-.
    destruct (refs_after_set_refs_val e item
                (if uselist r then RelMany models
                 else RelOne match models with
                             | [] => None
                             | m :: _ => Some m
                             end)) as (Hr1 & Hv1).
    apply (getattribute_cached respond locate _ item (DefaultRelationship r) _ w2 Hu Hm).
    + now rewrite Hr1.
    + exact Hv1.
Qed.

Lemma relationship_loaded_once_witness :
  exists p v p1 w1,
    AgeModel.dict_to_model EntityScenario.rel_person_record Fixtures.PersonWithRels
      (Some Fixtures.db0) (Some Fixtures.g0) = Ok p
    /\ AgeModel.__getattribute__ (Fixtures.always [Fixtures.bob_row]) Fixtures.locate p
         "friends" []
       = (Ok (v, p1), w1)
    /\ List.length w1 = 1
    /\ AgeModel.__getattribute__ (Fixtures.always [Fixtures.bob_row]) Fixtures.locate p1
         "friends" w1
       = (Ok (v, p1), w1).
Proof.
  destruct (AgeModel.dict_to_model EntityScenario.rel_person_record Fixtures.PersonWithRels
              (Some Fixtures.db0) (Some Fixtures.g0)) as [p|] eqn:Ep;
    [| vm_compute in Ep; discriminate].
  destruct (AgeModel.__getattribute__ (Fixtures.always [Fixtures.bob_row]) Fixtures.locate p
              "friends" []) as [[[v p1]|] w1] eqn:E1.
  2:{ vm_compute in Ep. injection Ep as <-. vm_compute in E1. discriminate. }
  assert (Hlen : List.length w1 = 1).
  { vm_compute in Ep. injection Ep as <-. vm_compute in E1. injection E1 as _ _ <-.
    reflexivity. }
  exists p, v, p1, w1. split; [reflexivity |]. split; [exact E1 |]. split; [exact Hlen |].
  apply (relationship_loaded_once (Fixtures.always [Fixtures.bob_row]) Fixtures.locate
           p p1 "friends" Fixtures.friends_rel v [] w1 eq_refl eq_refl).
  - vm_compute in Ep. injection Ep as <-. reflexivity.
  - reflexivity.
  - exact E1.
Defined.

(* ====================================================================== *)
(** * Dumping an instance *)
(* ====================================================================== *)

Lemma dump_keys_in_fields (fs : list (string * FieldInfo)) (vs : list (string * pyval))
    (mf : list (string * FieldInfo)) (k : string) :
  In k (Dict.keys
          (flat_map
             (fun kf =>
                if Dict.has (fst kf) fs then
                  match Dict.get (fst kf) vs with
                  | Some v => [(fst kf, v)]
                  | None => []
                  end
                else [])
             mf)) ->
  In k (Dict.keys fs).
Proof.
  unfold Dict.keys. induction mf as [|[k0 f0] mf IH]; [intros [] |].
  cbn [flat_map fst]. rewrite List.map_app, List.in_app_iff. intros [H | H]; [| exact (IH H)].
  destruct (Dict.has k0 fs) eqn:Eh; [| destruct H].
  destruct (Dict.get k0 vs); [| destruct H].
  destruct H as [<- | []]. now apply dict_has_in_keys.
Qed.

Lemma filter_all_kept {A : Type} (p : A -> bool) (l : list A) :
  (forall x, In x l -> p x = true) -> List.filter p l = l.
Proof.
  induction l as [|a l IH]; intros H; [reflexivity |].
  cbn [List.filter]. rewrite (H a (or_introl eq_refl)), IH; [reflexivity |].
  intros x Hx. apply H. now right.
Qed.

(** X25: the dump of an instance has no relationship slot: its keys are
    persisted field names of the class.  For an instance constructed
    without a database, the dump of the dirty fields is the whole dump;
    for one constructed with a database it is empty. *)
Theorem dump_of_new_instance (c : ModelClass) (kwargs : AgeModel.Kwargs) (e : Entity) :
  AgeModel.__init__ c kwargs = Ok e ->
  (forall k, In k (Dict.keys (Dump.model_dump e)) -> In k (persisted_names c))
  /\ (AgeModel.kw_db kwargs = None -> Dump.dirty_fields_dump e = Dump.model_dump e)
  /\ (forall db, AgeModel.kw_db kwargs = Some db -> Dump.dirty_fields_dump e = []).
Proof.
  intros H.
  pose proof (init_dirty c kwargs e H) as Hdirty.
  unfold AgeModel.__init__ in H.
  destruct (validate c (AgeModel.kw_fields kwargs)) as [values|]; [| discriminate].
  pose proof (split_fields_fst (model_fields c)) as Hs.
  destruct (AgeModel.split_fields (model_fields c)) as [fields refs]. cbn [fst] in Hs.
  injection H as <-.
  assert (Hkeys : forall k,
             In k (Dict.keys (Dump.model_dump
                                {| cls := c; field_values := values; _age_fields := fields;
                                   _age_refs := refs; _age_refs_vals := [];
                                   _age_graph_id := AgeModel.kw_graph_id kwargs;
                                   _age_label := AgeModel.initial_label c (AgeModel.kw_label kwargs);
                                   _age_db := AgeModel.kw_db kwargs;
                                   _age_graph := AgeModel.kw_graph kwargs;
                                   _age_relations := [];
                                   _age_dirty :=
                                     match AgeModel.kw_db kwargs with
                                     | Some _ => ∅
                                     | None => list_to_set (Dict.keys fields)
                                     end;
                                   _age_start_id :=
                                     if is_vertex c then None else AgeModel.kw_start_id kwargs;
                                   _age_end_id :=
                                     if is_vertex c then None else AgeModel.kw_end_id kwargs |})) ->
             In k (persisted_names c)).
  { intros k Hk. unfold persisted_names. rewrite <- Hs.
    exact (dump_keys_in_fields fields values (model_fields c) k Hk). }
  split; [exact Hkeys |]. split.
  - intros Hdb. unfold Dump.dirty_fields_dump. rewrite Hdirty, Hdb.
    apply filter_all_kept. intros [k v] Hin. cbn [fst].
    apply bool_decide_eq_true_2. apply elem_of_list_to_set, list_elem_of_In.
    apply Hkeys. unfold Dict.keys. apply (List.in_map fst _ _ Hin).
  - intros db Hdb. unfold Dump.dirty_fields_dump. rewrite Hdirty, Hdb.
    apply filter_nothing_dirty.
Qed.

Lemma dump_of_new_instance_witness :
  exists alice,
    AgeModel.__init__ Fixtures.Person EntityScenario.alice_kwargs = Ok alice
    /\ Dump.model_dump alice
       = [("name", VStr "Alice"); ("age", VInt 30); ("email", VStr "alice@example.com")]
    /\ Dump.dirty_fields_dump alice = Dump.model_dump alice.
Proof.
  destruct (AgeModel.__init__ Fixtures.Person EntityScenario.alice_kwargs) as [alice|] eqn:E;
    [| vm_compute in E; discriminate].
  exists alice. split; [reflexivity |]. split.
  - vm_compute in E. injection E as <-. reflexivity.
  - exact (proj1 (proj2 (dump_of_new_instance _ _ _ E)) eq_refl).
Defined.

(* ====================================================================== *)
(** * Hydrating results *)
(* ====================================================================== *)

(** X26: [_hydrate_result] on a record that has a label and properties and
    no positional key.  When the label is registered, a result is an
    instance of the registered class that carries the graph id and the
    label of the record and is clean and bound to the graph and its
    database.  When the label is a text that is not registered, the record
    comes back unchanged.  When the label is a list or a map, the lookup
    in the registry raises TypeError. *)
Theorem hydrate_result_by_label (registry : list (string * ModelClass)) (g : Graph.Graph)
    (d : list (string * pyval)) (label : pyval) :
  existsb (Text.startswith "col_") (Dict.keys d) = false ->
  Dict.get "label" d = Some label ->
  Dict.has "properties" d = true ->
  (forall l c h,
      label = VStr l -> Dict.get l registry = Some c ->
      GraphOps._hydrate_result registry g (VDict d) = Ok h ->
      exists e,
        h = HModel e /\ cls e = c
        /\ _age_graph_id e = AgeModel.as_id (Dict.get "graph_id" d)
        /\ _age_label e = Some l
        /\ _age_dirty e = ∅
        /\ _age_db e = Some (Graph._db g) /\ _age_graph e = Some g)
  /\ (forall l,
         label = VStr l -> Dict.get l registry = None ->
         GraphOps._hydrate_result registry g (VDict d) = Ok (HValue (VDict d)))
  /\ ((exists items, label = VList items) \/ (exists items, label = VDict items) ->
      GraphOps._hydrate_result registry g (VDict d) = Raise TypeError).
Proof.
  intros Hcols Hl Hp.
  assert (Hhas : Dict.has "label" d = true) by (unfold Dict.has; now rewrite Hl).
  assert (Hstep : GraphOps._hydrate_result registry g (VDict d)
                  = match GraphOps.registry_get registry label with
                    | Raise e => Raise e
                    | Ok None => Ok (HValue (VDict d))
                    | Ok (Some model_class) =>
                        match AgeModel.dict_to_model d model_class
                                (Some (Graph._db g)) (Some g) with
                        | Ok m => Ok (HModel m)
                        | Raise e => Raise e
                        end
                    end).
  { cbn [GraphOps._hydrate_result]. rewrite Hcols, Hhas, Hp, Hl. reflexivity. }
  rewrite Hstep. split; [| split].
  - intros l c h -> Hc. cbn [GraphOps.registry_get]. rewrite Hc.
    destruct (AgeModel.dict_to_model d c (Some (Graph._db g)) (Some g)) as [e|] eqn:E;
      [| discriminate].
    intros H. injection H as <-. exists e.
    destruct (dict_to_model_record d c _ _ e E)
      as (props & values & sid & eid & _ & _ & ->).
    cbn [cls _age_graph_id _age_label _age_dirty _age_db _age_graph].
    rewrite Hl. repeat split.
  - intros l -> Hc. cbn [GraphOps.registry_get]. now rewrite Hc.
  - intros [[items ->] | [items ->]]; reflexivity.
Qed.

Lemma hydrate_result_by_label_witness :
  GraphOps._hydrate_result Fixtures.registry Fixtures.g0 (VDict EntityScenario.alice_record)
  = Ok (HModel GraphScenario.alice_loaded)
  /\ _age_graph_id GraphScenario.alice_loaded = Some 844424930131969%Z
  /\ GraphOps._hydrate_result [] Fixtures.g0 (VDict EntityScenario.alice_record)
     = Ok (HValue (VDict EntityScenario.alice_record)).
Proof.
  destruct (hydrate_result_by_label Fixtures.registry Fixtures.g0
              EntityScenario.alice_record (VStr "Person") eq_refl eq_refl eq_refl)
    as (H1 & _ & _).
  destruct (H1 "Person" Fixtures.Person (HModel GraphScenario.alice_loaded)
              eq_refl eq_refl eq_refl) as (e & He & _ & Hid & _).
  injection He as <-.
  split; [reflexivity |]. split; [exact Hid |].
  exact (proj1 (proj2 (hydrate_result_by_label [] Fixtures.g0
                         EntityScenario.alice_record (VStr "Person") eq_refl eq_refl eq_refl))
           "Person" eq_refl eq_refl).
Defined.

(* ====================================================================== *)
(** * The catalogue of graphs *)
(* ====================================================================== *)

Lemma graph_exists_answer (respond : World -> string -> option (list (list cell)))
    (name : string) (w : World) (rows : list (list cell)) :
  respond w (DatabaseOps.exists_statement name) = Some rows ->
  DatabaseOps.graph_exists respond name w
  = (Ok (match rows with [] => false | _ :: _ => true end),
     (w ++ [DatabaseOps.exists_statement name])%list).
Proof.
  intros H. unfold DatabaseOps.graph_exists, GraphCrud.fetchone, bind, Graph.fetchall, ret.
  rewrite H. now destruct rows.
Qed.

(** X27: [Database.graph] asks the catalogue once when [create] is off and
    twice when it is on, whether the graph is there or not.  With [create]
    off, a graph that is not found is GraphNotFoundError.  With [create]
    on, the graph is created only when both answers are empty; when the
    second answer differs from the first, the call raises GraphExistsError
    (the graph appeared in between) or GraphNotFoundError (it went away),
    and nothing is created. *)
Theorem graph_asks_catalogue_twice
    (respond : World -> string -> option (list (list cell)))
    (self : Database) (name : string) (w : World) (r1 r2 : list (list cell)) :
  let ask := DatabaseOps.exists_statement name in
  respond w ask = Some r1 ->
  respond (w ++ [ask])%list ask = Some r2 ->
  respond (w ++ [ask; ask])%list (DatabaseOps.create_statement name) <> None ->
  DatabaseOps.graph respond self name false w
  = (match r1 with
     | [] => DatabaseOps.Failed DatabaseOps.GraphNotFoundError
     | _ :: _ => DatabaseOps.Done (Graph.MkGraph name self)
     end, (w ++ [ask])%list)
  /\ DatabaseOps.graph respond self name true w
     = match r1, r2 with
       | [], [] =>
           (DatabaseOps.Done (Graph.MkGraph name self),
            (w ++ [ask; ask; DatabaseOps.create_statement name])%list)
       | [], _ :: _ =>
           (DatabaseOps.Failed DatabaseOps.GraphExistsError, (w ++ [ask; ask])%list)
       | _ :: _, [] =>
           (DatabaseOps.Failed DatabaseOps.GraphNotFoundError, (w ++ [ask; ask])%list)
       | _ :: _, _ :: _ =>
           (DatabaseOps.Done (Graph.MkGraph name self), (w ++ [ask; ask])%list)
       end.
Proof.
  intros ask H1 H2 H3. subst ask.
  assert (Happ2 : ((w ++ [DatabaseOps.exists_statement name]) ++ [DatabaseOps.exists_statement name] = w ++ [DatabaseOps.exists_statement name; DatabaseOps.exists_statement name])%list)
    by now rewrite <- List.app_assoc.
  assert (Happ3 : ((w ++ [DatabaseOps.exists_statement name; DatabaseOps.exists_statement name]) ++ [DatabaseOps.create_statement name]
                   = w ++ [DatabaseOps.exists_statement name; DatabaseOps.exists_statement name; DatabaseOps.create_statement name])%list)
    by now rewrite <- List.app_assoc.
  split.
  - unfold DatabaseOps.graph. rewrite (graph_exists_answer respond name w r1 H1).
    now destruct r1.
  - unfold DatabaseOps.graph, DatabaseOps.create_graph.
    rewrite (graph_exists_answer respond name w r1 H1).
    destruct r1 as [|row1 r1]; cbn [negb].
    + rewrite (graph_exists_answer respond name _ r2 H2), Happ2.
      destruct r2 as [|row2 r2]; [| reflexivity].
      unfold GraphCrud.execute, bind, Graph.fetchall, ret.
      destruct (respond (w ++ [DatabaseOps.exists_statement name; DatabaseOps.exists_statement name])%list (DatabaseOps.create_statement name))
        as [rows|]; [| now destruct H3].
      now rewrite Happ3.
    + rewrite (graph_exists_answer respond name _ r2 H2), Happ2.
      now destruct r2.
Qed.

Lemma graph_asks_catalogue_twice_witness :
  DatabaseOps.graph (Fixtures.always []) Fixtures.db0 "g" true []
  = (DatabaseOps.Done (Graph.MkGraph "g" Fixtures.db0),
     [DatabaseOps.exists_statement "g"; DatabaseOps.exists_statement "g";
      DatabaseOps.create_statement "g"])
  /\ DatabaseOps.graph
       (fun w _ => match w with [] => Some [] | _ => Some [[CInt 1]] end)
       Fixtures.db0 "g" true []
     = (DatabaseOps.Failed DatabaseOps.GraphExistsError,
        [DatabaseOps.exists_statement "g"; DatabaseOps.exists_statement "g"]).
Proof.
  split.
  - refine (proj2 (graph_asks_catalogue_twice (Fixtures.always []) Fixtures.db0 "g" []
                     [] [] eq_refl eq_refl _)).
    discriminate.
  - refine (proj2 (graph_asks_catalogue_twice
                     (fun w _ => match w with [] => Some [] | _ => Some [[CInt 1]] end)
                     Fixtures.db0 "g" [] [] [[CInt 1]] eq_refl eq_refl _)).
    discriminate.
Defined.

(* ====================================================================== *)
(** * Traversal *)
(* ====================================================================== *)

Lemma eqb_other (a b : string) : a <> b -> String.eqb a b = false.
Proof. intros H. now apply String.eqb_neq. Qed.

(** X28: [Graph.traverse] refuses a start vertex without identity before
    anything is sent.  With a target class, a call that returns has sent
    one statement, and every result is an instance of the target class,
    clean and bound to the graph and its database, whatever is registered
    for the label of the record.  A direction that is neither inbound nor
    outbound gives the same statement as the direction any: no arrow on
    either side, and no error. *)
Theorem traverse_from_vertex
    (respond : World -> string -> option (list (list cell)))
    (registry : list (string * ModelClass))
    (g : Graph.Graph) (vertex : Entity) (edge_label : string) (depth : Z)
    (direction : string) :
  (AgeModel.graph_id vertex = None ->
   forall target w,
     GraphCrud.traverse respond registry g vertex edge_label depth direction target w
     = (Raise EntityNotFoundError, w))
  /\ (forall c hs w w',
         GraphCrud.traverse respond registry g vertex edge_label depth direction (Some c) w
         = (Ok hs, w') ->
         w' = (w ++ [Graph.wrap_sql g
                       (GraphCrud.traverse_statement vertex edge_label depth direction)
                       "result agtype"])%list
         /\ Forall (fun h => exists e,
                        h = HModel e /\ cls e = c /\ _age_dirty e = ∅
                        /\ _age_db e = Some (Graph._db g) /\ _age_graph e = Some g) hs)
  /\ (direction <> "inbound" -> direction <> "outbound" ->
      GraphCrud.traverse_statement vertex edge_label depth direction
      = GraphCrud.traverse_statement vertex edge_label depth "any").
Proof.
  split; [| split].
  - intros H target w. unfold GraphCrud.traverse. now rewrite H.
  - intros c hs w w'. unfold GraphCrud.traverse.
    destruct (AgeModel.graph_id vertex); [| discriminate].
    unfold bind at 1.
    destruct (Graph._execute_cypher respond g _ None None "vertex" w)
      as [[parsed|] w1] eqn:Ex; [| discriminate].
    unfold bind, lift, ret.
    destruct (AgeModel.hydrate_all parsed c _ _) as [ms|] eqn:Eh; [| discriminate].
    intros H. injection H as <- <-.
    destruct (execute_cypher_ran respond _ _ _ _ _ _ Ex) as (-> & _).
    split; [reflexivity |].
    apply hydrate_all_each in Eh. clear Ex.
    induction Eh as [|r e rs es Hre _ IH]; cbn [map]; constructor; [| exact IH].
    exists e.
    destruct (dict_to_model_record r _ _ _ e Hre)
      as (props & values & sid & eid & _ & _ & ->).
    repeat split.
  - intros Hin Hout. unfold GraphCrud.traverse_statement, GraphCrud.dir_left,
      GraphCrud.dir_right.
    rewrite (eqb_other _ _ Hin), (eqb_other _ _ Hout).
    now destruct (String.eqb direction "any").
Qed.

Lemma traverse_from_vertex_witness :
  exists hs,
    GraphCrud.traverse (Fixtures.always [Fixtures.bob_row]) Fixtures.registry Fixtures.g0
      GraphScenario.alice_loaded "KNOWS" 2 "outbound" (Some Fixtures.Person) []
    = (Ok hs,
       [Scenario.sql_of
          "MATCH (n)-[:KNOWS*1..2]->(m) WHERE id(n) = 844424930131969 RETURN m"])
    /\ Forall (fun h => exists e, h = HModel e /\ cls e = Fixtures.Person) hs
    /\ GraphCrud.traverse_statement GraphScenario.alice_loaded "KNOWS" 2 "both"
       = "MATCH (n)-[:KNOWS*1..2]-(m) WHERE id(n) = 844424930131969 RETURN m".
Proof.
  destruct (GraphCrud.traverse (Fixtures.always [Fixtures.bob_row]) Fixtures.registry
              Fixtures.g0 GraphScenario.alice_loaded "KNOWS" 2 "outbound"
              (Some Fixtures.Person) []) as [[hs|] w'] eqn:E; [| vm_compute in E; discriminate].
  destruct (traverse_from_vertex (Fixtures.always [Fixtures.bob_row]) Fixtures.registry
              Fixtures.g0 GraphScenario.alice_loaded "KNOWS" 2 "outbound") as (_ & H & _).
  destruct (H _ _ _ _ E) as (-> & Hall).
  exists hs. split; [reflexivity |]. split.
  - eapply List.Forall_impl; [| exact Hall].
    intros h (e & He & Hc & _). exists e. now split.
  - rewrite (proj2 (proj2 (traverse_from_vertex (Fixtures.always []) Fixtures.registry
                             Fixtures.g0 GraphScenario.alice_loaded "KNOWS" 2 "both"))).
    + reflexivity.
    + discriminate.
    + discriminate.
Defined.

(* ====================================================================== *)
(** * Bulk insertion *)
(* ====================================================================== *)



